(** * The quality-gated research pipeline of Group_2_project

    A shallow embedding of
      - [config.py]                    (Settings),
      - [orchestrator/state.py]        (ResearchState),
      - [agents/*_agent.py]            (the six stages),
      - [orchestrator/graph.py]        (the graph, the quality gate, run_research),
      - [utils/llm_client.py]          (LLMClient._parse_json),
    together with the properties the specification states about them.

    Conventions.  Python [int] is [Z]; a score (Python [float], 0-100) is a
    rational [Q], on which order comparisons are exact; [str] is [string]
    (code points below 256); a function that may raise returns [result].
    The language model, the web search and the clock are the [World]: a
    record of oracles indexed by the pass in which they are called. *)

From Stdlib Require Import ZArith QArith Ascii String List Lia Bool.
From stdpp Require Import base decidable list strings pretty gmap.
Import ListNotations.

Open Scope string_scope.
Open Scope Z_scope.

(** ** Python-level helpers *)

Module Py.

(** A computation that returns a value or raises an exception carrying a
    message ([str(e)]). *)
Inductive result (A : Type) : Type :=
| Ok (a : A)
| Raise (e : string).
Arguments Ok {A} a.
Arguments Raise {A} e.

Definition is_ok {A} (r : result A) : bool :=
  match r with Ok _ => true | Raise _ => false end.

(** [x or y] on an optional integer: [None] and [0] are falsy. *)
Definition or_int (x : option Z) (y : Z) : Z :=
  match x with
  | Some v => if v =? 0 then y else v
  | None => y
  end.

(** [l[:n]] for a list: a negative bound counts from the end. *)
Definition slice_to {A} (l : list A) (n : Z) : list A :=
  if 0 <=? n then firstn (Z.to_nat n) l
  else firstn (length l - Z.to_nat (- n)) l.

(** [len(l)] as an integer. *)
Definition len {A} (l : list A) : Z := Z.of_nat (length l).

(** [s[:n]] for a string and a non-negative literal bound. *)
Definition str_prefix (n : nat) (s : string) : string := substring 0 n s.

(** [str.isspace] on one character. *)
Definition isspace (c : ascii) : bool :=
  let n := nat_of_ascii c in
  ((9 <=? n)%nat && (n <=? 13)%nat) || ((28 <=? n)%nat && (n <=? 32)%nat)
  || (n =? 133)%nat || (n =? 160)%nat.

Fixpoint lstrip (s : list ascii) : list ascii :=
  match s with
  | c :: r => if isspace c then lstrip r else s
  | [] => []
  end.

Definition rstrip (s : list ascii) : list ascii := rev (lstrip (rev s)).

(** [s.strip()] *)
Definition strip (s : list ascii) : list ascii := rstrip (lstrip s).

(** [hay.startswith(needle)] *)
Fixpoint startswith (needle hay : list ascii) : bool :=
  match needle, hay with
  | [], _ => true
  | a :: n', b :: h' => if Ascii.eqb a b then startswith n' h' else false
  | _ :: _, [] => false
  end.

(** [needle in hay] for strings. *)
Fixpoint contains_chars (needle hay : list ascii) : bool :=
  startswith needle hay ||
  match hay with
  | [] => false
  | _ :: h' => contains_chars needle h'
  end.

Definition contains (needle hay : string) : bool :=
  contains_chars (list_ascii_of_string needle) (list_ascii_of_string hay).

(** [s.lower()] on the ASCII letters. *)
Definition lower_char (c : ascii) : ascii :=
  let n := nat_of_ascii c in
  if ((65 <=? n)%nat && (n <=? 90)%nat) then ascii_of_nat (n + 32) else c.

Definition lower (s : string) : string :=
  string_of_list_ascii (map lower_char (list_ascii_of_string s)).

(** [s.split()]: the maximal runs of non-space characters. *)
Fixpoint split_ws (cur : list ascii) (s : list ascii) : list (list ascii) :=
  match s with
  | [] => match cur with [] => [] | _ => [rev cur] end
  | c :: r =>
      if isspace c
      then match cur with [] => split_ws [] r | _ => rev cur :: split_ws [] r end
      else split_ws (c :: cur) r
  end.

(** [sep.join(words)] *)
Fixpoint join (sep : list ascii) (words : list (list ascii)) : list ascii :=
  match words with
  | [] => []
  | [w] => w
  | w :: ws => w ++ sep ++ join sep ws
  end.

(** [s.replace(old, "")] for a non-empty [old]; [skip] counts the
    characters of the current occurrence still to be dropped. *)
Fixpoint remove_all (skip : nat) (old s : list ascii) : list ascii :=
  match s with
  | [] => []
  | c :: r =>
      match skip with
      | S k => remove_all k old r
      | O => if startswith old s then remove_all (length old - 1) old r
             else c :: remove_all 0 old r
      end
  end.

(** [any(x in s for x in needles)] *)
Definition any_in (needles : list string) (s : string) : bool :=
  existsb (fun x => contains x s) needles.

End Py.
Import Py.

(** ** JSON values, as [json.loads] builds them *)

#[local] Set Warnings "-register-all".

Inductive json : Type :=
| JNull
| JBool (b : bool)
| JInt (z : Z)
| JFloat (q : Q)
| JStr (s : string)
| JArr (items : list json)
| JObj (members : list (string * json)).

Definition is_dict (v : json) : bool :=
  match v with JObj _ => true | _ => false end.

Definition is_list (v : json) : bool :=
  match v with JArr _ => true | _ => false end.

(** ** config.py *)

Record Settings : Type := {
  MAX_SEARCH_RESULTS : Z;
  MAX_ITERATIONS : Z;
  QUALITY_THRESHOLD : Q;
  MAX_SUB_QUERIES : Z
}.

(** The singleton [settings = Settings()] with the defaults of the source. *)
Definition settings : Settings := {|
  MAX_SEARCH_RESULTS := 6;
  MAX_ITERATIONS := 2;
  QUALITY_THRESHOLD := 65;
  MAX_SUB_QUERIES := 5
|}.

(** ** The data carried by the state *)

(** [agents/retriever_agent.py]: the dataclass [SourceDocument]; the state
    stores [asdict(s)], a dict with the same seven keys. *)
Record SourceDocument : Type := {
  title : string;
  url : string;
  content : string;
  source_type : string;
  relevance_score : Q;
  domain : string;
  sub_query : string
}.

(** One entry of [analysis["findings"]], in the shape the prompt asks for
    (a dict; [source_indices] a list of integers); a key the model left out
    is [None] and is read through [f.get(key, default)].  The stage stores
    what the model sent without checking it: a value of another shape makes
    later code raise, which is a [node_crash] of the [World]. *)
Record Finding : Type := {
  f_claim : option string;
  f_source_indices : option (list Z);
  f_category : option string;
  f_importance : option string
}.

(** [state["analysis"]] *)
Record Analysis : Type := {
  a_executive_summary : string;
  a_findings : list Finding;
  a_contradictions : list json;
  a_gaps : list string;
  a_source_assessments : list json
}.

(** One entry of [fact_check["verified_claims"]]. *)
Record VerifiedClaim : Type := {
  vc_claim : string;
  vc_confidence_score : Q;
  vc_status : string;
  vc_supporting_sources : list Z;
  vc_contradicting_sources : list Z;
  vc_reasoning : string
}.

(** [state["fact_check"]] *)
Record FactCheck : Type := {
  fc_verified_claims : list VerifiedClaim;
  fc_overall_reliability_score : Q;
  fc_warnings : list string;
  fc_contradiction_details : list json
}.

(** [state["insights"]] *)
Record Insights : Type := {
  i_hypotheses : list json;
  i_trends : list json;
  i_key_patterns : list string;
  i_implications : list string;
  i_further_questions : list string
}.

(** [state["report"]] *)
Record Report : Type := {
  r_title : string;
  r_executive_summary : string;
  r_key_findings : list json;
  r_contradictions_and_gaps : string;
  r_insights_and_trends : string;
  r_source_reliability : string;
  r_methodology_note : string;
  r_sources_cited : list (string * string);
  r_quality_score : Q;
  r_quality_breakdown : json;
  r_follow_up_queries : list string;
  r_generated_at : string
}.

(** ** orchestrator/state.py

    [ResearchState], with every key [run_research] puts in the initial
    state.  The four result dicts start as [{}], which is [None] here.
    [agent_outputs] and [usage_stats] are bookkeeping no stage reads and
    are left out. *)
Record ResearchState : Type := {
  original_query : string;
  sub_queries : list string;
  sources : list SourceDocument;
  analysis : option Analysis;
  fact_check : option FactCheck;
  insights : option Insights;
  report : option Report;
  iteration : Z;
  max_iterations : Z;
  quality_score : Q;
  status : string;
  errors : list string
}.

(** The dict a node returns: only the keys it updates. *)
Record Update : Type := {
  u_sub_queries : option (list string);
  u_sources : option (list SourceDocument);
  u_analysis : option Analysis;
  u_fact_check : option FactCheck;
  u_insights : option Insights;
  u_report : option Report;
  u_iteration : option Z;
  u_quality_score : option Q;
  u_status : option string;
  u_errors : option (list string)
}.

Definition no_update : Update := {|
  u_sub_queries := None; u_sources := None; u_analysis := None;
  u_fact_check := None; u_insights := None; u_report := None;
  u_iteration := None; u_quality_score := None; u_status := None;
  u_errors := None
|}.

(** How the graph applies a node's dict: no key of [ResearchState] declares
    a reducer, so a returned key replaces the stored value and every other
    key is kept. *)
Definition merge (state : ResearchState) (u : Update) : ResearchState := {|
  original_query := original_query state;
  sub_queries := default (sub_queries state) (u_sub_queries u);
  sources := default (sources state) (u_sources u);
  analysis := match u_analysis u with Some a => Some a | None => analysis state end;
  fact_check := match u_fact_check u with Some a => Some a | None => fact_check state end;
  insights := match u_insights u with Some a => Some a | None => insights state end;
  report := match u_report u with Some a => Some a | None => report state end;
  iteration := default (iteration state) (u_iteration u);
  max_iterations := max_iterations state;
  quality_score := default (quality_score state) (u_quality_score u);
  status := default (status state) (u_status u);
  errors := default (errors state) (u_errors u)
|}.

(** ** The outside world

    What the hosted model, the search service and the clock answer.  Every
    oracle is indexed by the pass (0 for the first run of the pipeline) in
    which the call is made; a [Raise] stands for any exception inside the
    calling agent's [try] block: a transport error, the [ValueError] of
    [_parse_json], or a reply whose shape trips the code that reads it. *)

Inductive node : Type :=
| Decompose | Retrieve | Analyze | FactChecking | GenerateInsights
| BuildReport | IncrementIteration.

#[global] Instance node_eq_dec : EqDecision node.
Proof. solve_decision. Defined.

(** The name under which [builder.add_node] registers the node. *)
Definition node_name (n : node) : string :=
  match n with
  | Decompose => "decompose"
  | Retrieve => "retrieve"
  | Analyze => "analyze"
  | FactChecking => "fact_check"
  | GenerateInsights => "generate_insights"
  | BuildReport => "build_report"
  | IncrementIteration => "increment_iteration"
  end.

(** One entry of [response["results"]] of the search service. *)
Record TavilyResult : Type := {
  tr_title : option string;
  tr_url : option string;
  tr_content : option string;
  tr_score : option Q
}.

(** One entry of the categorisation reply's ["sources"]. *)
Record CatItem : Type := {
  ci_index : option Z;
  ci_source_type : option string
}.

Record AnalysisReply : Type := {
  ar_executive_summary : option string;
  ar_findings : option (list Finding);
  ar_contradictions : option (list json);
  ar_gaps : option (list string);
  ar_source_assessments : option (list json)
}.

Record FactCheckReply : Type := {
  fr_verified_claims : option (list VerifiedClaim);
  fr_overall_reliability_score : option Q;
  fr_warnings : option (list string);
  fr_contradiction_details : option (list json)
}.

Record InsightReply : Type := {
  ir_hypotheses : option (list json);
  ir_trends : option (list json);
  ir_key_patterns : option (list string);
  ir_implications : option (list string);
  ir_further_questions : option (list string)
}.

Record ReportReply : Type := {
  rr_quality_score : option Q;
  rr_title : option string;
  rr_executive_summary : option string;
  rr_key_findings : option (list json);
  rr_contradictions_and_gaps : option string;
  rr_insights_and_trends : option string;
  rr_source_reliability : option string;
  rr_methodology_note : option string;
  rr_quality_breakdown : option json;
  rr_follow_up_queries : option (list string)
}.

Record World : Type := {
  (** [LLMClient()] or an agent constructor raising in [run_research],
      before the [try]. *)
  setup_failure : option string;
  (** An exception that leaves a node: raised outside the agent's own
      [try] block (while a prompt is formatted from malformed data, or by
      the progress tracker), or inside its [except] handler (the report's
      fallback builder on a stored finding that has not the shape of
      [Finding], see [ReportAgent.key_finding]). *)
  node_crash : nat -> node -> option string;
  (** [chat_json] in the decomposer, read as [result.get("sub_queries")]:
      an array of strings, or [None] when the key is missing. *)
  llm_decompose : nat -> result (option (list string));
  (** [tavily.search] for the [i]-th sub-query of the pass. *)
  tavily_search : nat -> nat -> string -> result (list TavilyResult);
  llm_categorize : nat -> result (list CatItem);
  llm_analysis : nat -> result AnalysisReply;
  llm_fact_check : nat -> result FactCheckReply;
  llm_insight : nat -> result InsightReply;
  llm_report : nat -> result ReportReply;
  (** [urlparse(u).netloc] *)
  netloc : string -> string;
  (** how an f-string prints a score *)
  show_float : Q -> string;
  (** [str(v)] of a list of JSON values *)
  show_json : list json -> string;
  (** [datetime.now().isoformat()] *)
  now_isoformat : nat -> string
}.

(** Writing one key of a returned dict. *)
Definition set_sub_queries v (u : Update) : Update :=
  {| u_sub_queries := Some v; u_sources := u_sources u; u_analysis := u_analysis u; u_fact_check := u_fact_check u;
     u_insights := u_insights u; u_report := u_report u; u_iteration := u_iteration u; u_quality_score := u_quality_score u;
     u_status := u_status u; u_errors := u_errors u |}.
Definition set_sources v (u : Update) : Update :=
  {| u_sub_queries := u_sub_queries u; u_sources := Some v; u_analysis := u_analysis u; u_fact_check := u_fact_check u;
     u_insights := u_insights u; u_report := u_report u; u_iteration := u_iteration u; u_quality_score := u_quality_score u;
     u_status := u_status u; u_errors := u_errors u |}.
Definition set_analysis v (u : Update) : Update :=
  {| u_sub_queries := u_sub_queries u; u_sources := u_sources u; u_analysis := Some v; u_fact_check := u_fact_check u;
     u_insights := u_insights u; u_report := u_report u; u_iteration := u_iteration u; u_quality_score := u_quality_score u;
     u_status := u_status u; u_errors := u_errors u |}.
Definition set_fact_check v (u : Update) : Update :=
  {| u_sub_queries := u_sub_queries u; u_sources := u_sources u; u_analysis := u_analysis u; u_fact_check := Some v;
     u_insights := u_insights u; u_report := u_report u; u_iteration := u_iteration u; u_quality_score := u_quality_score u;
     u_status := u_status u; u_errors := u_errors u |}.
Definition set_insights v (u : Update) : Update :=
  {| u_sub_queries := u_sub_queries u; u_sources := u_sources u; u_analysis := u_analysis u; u_fact_check := u_fact_check u;
     u_insights := Some v; u_report := u_report u; u_iteration := u_iteration u; u_quality_score := u_quality_score u;
     u_status := u_status u; u_errors := u_errors u |}.
Definition set_report v (u : Update) : Update :=
  {| u_sub_queries := u_sub_queries u; u_sources := u_sources u; u_analysis := u_analysis u; u_fact_check := u_fact_check u;
     u_insights := u_insights u; u_report := Some v; u_iteration := u_iteration u; u_quality_score := u_quality_score u;
     u_status := u_status u; u_errors := u_errors u |}.
Definition set_iteration v (u : Update) : Update :=
  {| u_sub_queries := u_sub_queries u; u_sources := u_sources u; u_analysis := u_analysis u; u_fact_check := u_fact_check u;
     u_insights := u_insights u; u_report := u_report u; u_iteration := Some v; u_quality_score := u_quality_score u;
     u_status := u_status u; u_errors := u_errors u |}.
Definition set_quality_score v (u : Update) : Update :=
  {| u_sub_queries := u_sub_queries u; u_sources := u_sources u; u_analysis := u_analysis u; u_fact_check := u_fact_check u;
     u_insights := u_insights u; u_report := u_report u; u_iteration := u_iteration u; u_quality_score := Some v;
     u_status := u_status u; u_errors := u_errors u |}.
Definition set_status v (u : Update) : Update :=
  {| u_sub_queries := u_sub_queries u; u_sources := u_sources u; u_analysis := u_analysis u; u_fact_check := u_fact_check u;
     u_insights := u_insights u; u_report := u_report u; u_iteration := u_iteration u; u_quality_score := u_quality_score u;
     u_status := Some v; u_errors := u_errors u |}.
Definition set_errors v (u : Update) : Update :=
  {| u_sub_queries := u_sub_queries u; u_sources := u_sources u; u_analysis := u_analysis u; u_fact_check := u_fact_check u;
     u_insights := u_insights u; u_report := u_report u; u_iteration := u_iteration u; u_quality_score := u_quality_score u;
     u_status := u_status u; u_errors := Some v |}.

(** ** agents/decomposer_agent.py *)

Module DecomposerAgent.

(** [DecomposerAgent.run].  The prompt (the query and, on a reflection
    pass, the follow-up queries of the previous report) goes to the model;
    what comes back is the oracle's answer for this pass. *)
Definition run (cfg : Settings) (w : World) (pass : nat)
    (state : ResearchState) : Update :=
  let query := original_query state in
  match llm_decompose w pass with
  | Ok result =>
      let sub_queries := default [query] result in
      let max_q := MAX_SUB_QUERIES cfg in
      let sub_queries :=
        if len sub_queries >? max_q then slice_to sub_queries max_q
        else sub_queries in
      let sub_queries :=
        match sub_queries with [] => [query] | _ => sub_queries end in
      set_sub_queries sub_queries
        (set_status ("Decomposed into " +:+ pretty (length sub_queries)
                     +:+ " sub-queries") no_update)
  | Raise e =>
      set_sub_queries [query]
        (set_status ("Decomposition fallback: " +:+ str_prefix 100 e)
           (set_errors (errors state ++ ["Decomposer: " +:+ e]) no_update))
  end.

End DecomposerAgent.

(** ** agents/retriever_agent.py *)

Module RetrieverAgent.

(** [_fallback_categorize] *)
Definition _fallback_categorize (domain : string) : string :=
  let domain := lower domain in
  if any_in [".edu"; "arxiv"; "scholar"; "pubmed"; "ncbi"] domain then "academic"
  else if any_in [".gov"; "government"] domain then "government"
  else if any_in ["reuters"; "bbc"; "nytimes"; "cnn"; "guardian"; "apnews"] domain
  then "news"
  else if any_in ["wikipedia"; "britannica"] domain then "encyclopedia"
  else if any_in ["medium.com"; "substack"; "wordpress"; "blogspot"] domain
  then "blog"
  else "other".

Definition with_source_type (t : string) (s : SourceDocument) : SourceDocument :=
  {| title := title s; url := url s; content := content s; source_type := t;
     relevance_score := relevance_score s; domain := domain s;
     sub_query := sub_query s |}.

(** The truncation of a long [content] to about 800 words. *)
Definition truncate_content (content : string) : string :=
  let words := split_ws [] (list_ascii_of_string content) in
  if (800 <? length words)%nat
  then string_of_list_ascii (join [" "%char] (firstn 800 words)) +:+ "..."
  else content.

(** One search result turned into a [SourceDocument]. *)
Definition to_source (w : World) (query : string) (r : TavilyResult)
    : SourceDocument :=
  {| title := default "Untitled" (tr_title r);
     url := default "" (tr_url r);
     content := truncate_content (default "" (tr_content r));
     source_type := "other";
     relevance_score := default 0%Q (tr_score r);
     domain :=
       string_of_list_ascii
         (remove_all 0 (list_ascii_of_string "www.")
            (list_ascii_of_string (netloc w (default "" (tr_url r)))));
     sub_query := query |}.

(** [_search]: the [i]-th search of the pass. *)
Definition _search (w : World) (pass i : nat) (query : string)
    : result (list SourceDocument) :=
  match tavily_search w pass i query with
  | Ok results => Ok (map (to_source w query) results)
  | Raise e => Raise e
  end.

(** The loop [for item in result.get("sources", [])]. *)
Fixpoint apply_categories (items : list CatItem) (sources : list SourceDocument)
    : list SourceDocument :=
  match items with
  | [] => sources
  | item :: rest =>
      let idx := default (-1) (ci_index item) in
      let sources :=
        if (0 <=? idx) && (idx <? len sources)
        then alter (with_source_type (default "other" (ci_source_type item)))
                   (Z.to_nat idx) sources
        else sources in
      apply_categories rest sources
  end.

(** [_categorize_sources] *)
Definition _categorize_sources (w : World) (pass : nat)
    (sources : list SourceDocument) : list SourceDocument :=
  match llm_categorize w pass with
  | Ok items => apply_categories items sources
  | Raise _ =>
      map (fun s => with_source_type (_fallback_categorize (domain s)) s) sources
  end.

(** The inner loop [for src in results] over the shared [existing_urls]
    set and [all_sources] list. *)
Fixpoint keep_new (results : list SourceDocument)
    (existing_urls : gset string) (all_sources : list SourceDocument)
    : gset string * list SourceDocument :=
  match results with
  | [] => (existing_urls, all_sources)
  | src :: rest =>
      if decide (url src ∈ existing_urls)
      then keep_new rest existing_urls all_sources
      else keep_new rest ({[url src]} ∪ existing_urls) (all_sources ++ [src])
  end.

(** The outer loop [for i, query in enumerate(sub_queries)]; a search
    that raises is logged and skipped. *)
Fixpoint search_all (w : World) (pass i : nat) (sub_queries : list string)
    (existing_urls : gset string) (all_sources : list SourceDocument)
    : gset string * list SourceDocument :=
  match sub_queries with
  | [] => (existing_urls, all_sources)
  | query :: rest =>
      match _search w pass i query with
      | Ok results =>
          let '(existing_urls, all_sources) :=
            keep_new results existing_urls all_sources in
          search_all w pass (S i) rest existing_urls all_sources
      | Raise _ => search_all w pass (S i) rest existing_urls all_sources
      end
  end.

(** The sources the pass adds: [all_sources] after categorisation. *)
Definition new_sources (w : World) (pass : nat) (state : ResearchState)
    : list SourceDocument :=
  let existing_urls : gset string := list_to_set (map url (sources state)) in
  let all_sources := snd (search_all w pass 0 (sub_queries state) existing_urls []) in
  match all_sources with
  | [] => all_sources
  | _ => _categorize_sources w pass all_sources
  end.

(** [RetrieverAgent.run] *)
Definition run (w : World) (pass : nat) (state : ResearchState) : Update :=
  let all_sources := new_sources w pass state in
  let existing_sources := sources state in
  set_sources (existing_sources ++ all_sources)
    (set_status ("Retrieved " +:+ pretty (length all_sources)
                 +:+ " new sources ("
                 +:+ pretty (length existing_sources + length all_sources)%nat
                 +:+ " total)") no_update).

End RetrieverAgent.

(** ** agents/analysis_agent.py *)

Module AnalysisAgent.

Definition run (w : World) (pass : nat) (state : ResearchState) : Update :=
  match sources state with
  | [] =>
      set_analysis
        {| a_executive_summary := "No sources were found for this query.";
           a_findings := []; a_contradictions := [];
           a_gaps := ["No sources were retrieved"];
           a_source_assessments := [] |}
        (set_status "Analysis: No sources available" no_update)
  | _ =>
      match llm_analysis w pass with
      | Ok result =>
          let analysis :=
            {| a_executive_summary := default "" (ar_executive_summary result);
               a_findings := default [] (ar_findings result);
               a_contradictions := default [] (ar_contradictions result);
               a_gaps := default [] (ar_gaps result);
               a_source_assessments := default [] (ar_source_assessments result) |} in
          set_analysis analysis
            (set_status ("Analyzed: " +:+ pretty (length (a_findings analysis))
                         +:+ " findings, "
                         +:+ pretty (length (a_contradictions analysis))
                         +:+ " contradictions") no_update)
      | Raise e =>
          set_analysis
            {| a_executive_summary := "Analysis encountered an error: " +:+ e;
               a_findings := []; a_contradictions := [];
               a_gaps := ["Analysis failed — manual review recommended"];
               a_source_assessments := [] |}
            (set_status ("Analysis error: " +:+ str_prefix 100 e)
               (set_errors (errors state ++ ["Analysis: " +:+ e]) no_update))
      end
  end.

End AnalysisAgent.

(** ** agents/fact_checker_agent.py *)

Module FactCheckerAgent.

(** [analysis.get("findings", [])] on the state's analysis dict. *)
Definition findings_of (state : ResearchState) : list Finding :=
  match analysis state with
  | Some a => a_findings a
  | None => []
  end.

(** The entry the [except] branch builds for one finding. *)
Definition unverified (f : Finding) : VerifiedClaim :=
  {| vc_claim := default "" (f_claim f);
     vc_confidence_score := 50;
     vc_status := "unverified";
     vc_supporting_sources := default [] (f_source_indices f);
     vc_contradicting_sources := [];
     vc_reasoning := "Fact-check unavailable — treating as unverified" |}.

Definition count_status (st : string) (claims : list VerifiedClaim) : nat :=
  length (filter (fun c => vc_status c = st) claims).

Definition run (w : World) (pass : nat) (state : ResearchState) : Update :=
  let findings := findings_of state in
  match findings with
  | [] =>
      set_fact_check
        {| fc_verified_claims := [];
           fc_overall_reliability_score := 0;
           fc_warnings := ["No findings available for fact-checking"];
           fc_contradiction_details := [] |}
        (set_status "Fact-check: No findings to verify" no_update)
  | _ =>
      match llm_fact_check w pass with
      | Ok result =>
          let fact_check :=
            {| fc_verified_claims := default [] (fr_verified_claims result);
               fc_overall_reliability_score :=
                 default 50%Q (fr_overall_reliability_score result);
               fc_warnings := default [] (fr_warnings result);
               fc_contradiction_details :=
                 default [] (fr_contradiction_details result) |} in
          let verified := count_status "verified" (fc_verified_claims fact_check) in
          let disputed := count_status "disputed" (fc_verified_claims fact_check) in
          let reliability := fc_overall_reliability_score fact_check in
          set_fact_check fact_check
            (set_status ("Fact-checked: " +:+ pretty verified +:+ " verified, "
                         +:+ pretty disputed +:+ " disputed (reliability: "
                         +:+ show_float w reliability +:+ "%)") no_update)
      | Raise e =>
          set_fact_check
            {| fc_verified_claims := map unverified findings;
               fc_overall_reliability_score := 40;
               fc_warnings :=
                 ["Fact-checking failed (" +:+ str_prefix 80 e
                  +:+ "). All claims marked as unverified."];
               fc_contradiction_details := [] |}
            (set_status ("Fact-check fallback: " +:+ str_prefix 100 e)
               (set_errors (errors state ++ ["FactChecker: " +:+ e]) no_update))
      end
  end.

End FactCheckerAgent.

(** ** agents/insight_agent.py *)

Module InsightAgent.

Definition run (w : World) (pass : nat) (state : ResearchState) : Update :=
  match llm_insight w pass with
  | Ok result =>
      let insights :=
        {| i_hypotheses := default [] (ir_hypotheses result);
           i_trends := default [] (ir_trends result);
           i_key_patterns := default [] (ir_key_patterns result);
           i_implications := default [] (ir_implications result);
           i_further_questions := default [] (ir_further_questions result) |} in
      set_insights insights
        (set_status ("Generated " +:+ pretty (length (i_hypotheses insights))
                     +:+ " hypotheses and "
                     +:+ pretty (length (i_trends insights)) +:+ " trends")
           no_update)
  | Raise e =>
      set_insights
        {| i_hypotheses := []; i_trends := []; i_key_patterns := [];
           i_implications := ["Insight generation encountered an error: " +:+ e];
           i_further_questions :=
             ["What are the main factors driving this topic?";
              "What are experts predicting for the near future?"] |}
        (set_status ("Insight error: " +:+ str_prefix 100 e)
           (set_errors (errors state ++ ["Insights: " +:+ e]) no_update))
  end.

End InsightAgent.

(** ** agents/report_agent.py *)

Module ReportAgent.

Definition sources_cited (sources : list SourceDocument) : list (string * string) :=
  map (fun s => (title s, url s)) sources.

(** One entry of the fallback report's [key_findings], for a finding of
    the documented shape; [key_finding] below is the same computation on
    the value as it is stored. *)
Definition fallback_finding (f : Finding) : json :=
  JObj [("finding", JStr (default "" (f_claim f)));
        ("confidence", JInt 50);
        ("sources_count", JInt (len (default [] (f_source_indices f))))].

(** The same entry computed as the source does, from whatever value the
    list [analysis["findings"]] holds: the analysis stage stores the
    model's [findings] as they are decoded. *)







(** [_build_fallback_report] *)
Definition _build_fallback_report (w : World) (pass : nat) (query : string)
    (sources : list SourceDocument) (analysis : option Analysis)
    (fact_check : option FactCheck) (insights : option Insights)
    (error : string) : Report :=
  {| r_title := "Research Report: " +:+ query;
     r_executive_summary :=
       match analysis with
       | Some a => a_executive_summary a
       | None =>
           "Report generation encountered an error. Raw findings are included below."
       end;
     r_key_findings :=
       map fallback_finding
         (slice_to (match analysis with Some a => a_findings a | None => [] end) 10);
     r_contradictions_and_gaps :=
       "Report builder error — review raw analysis data.";
     r_insights_and_trends :=
       show_json w (match insights with Some i => i_hypotheses i | None => [] end);
     r_source_reliability :=
       "Overall reliability: "
       +:+ match fact_check with
           | Some fc => show_float w (fc_overall_reliability_score fc)
           | None => "N/A"
           end
       +:+ "/100";
     r_methodology_note :=
       "Note: Report assembly encountered an error (" +:+ str_prefix 100 error
       +:+ "). This is a fallback report with reduced formatting.";
     r_sources_cited := sources_cited sources;
     r_quality_score := 30;
     r_quality_breakdown := JObj [];
     r_follow_up_queries := [query];
     r_generated_at := now_isoformat w pass |}.

Definition run (w : World) (pass : nat) (state : ResearchState) : Update :=
  let query := original_query state in
  let sources := sources state in
  let analysis_summary :=
    match analysis state with
    | Some a => a_executive_summary a
    | None => "No analysis available."
    end in
  match llm_report w pass with
  | Ok result =>
      let quality_score := default 50%Q (rr_quality_score result) in
      let report :=
        {| r_title := default ("Research Report: " +:+ query) (rr_title result);
           r_executive_summary :=
             default analysis_summary (rr_executive_summary result);
           r_key_findings := default [] (rr_key_findings result);
           r_contradictions_and_gaps :=
             default "" (rr_contradictions_and_gaps result);
           r_insights_and_trends := default "" (rr_insights_and_trends result);
           r_source_reliability := default "" (rr_source_reliability result);
           r_methodology_note :=
             default
               ("This report was generated using a multi-agent AI research system "
                +:+ "with automated web search, critical analysis, fact-checking, "
                +:+ "and insight generation.")
               (rr_methodology_note result);
           r_sources_cited := sources_cited sources;
           r_quality_score := quality_score;
           r_quality_breakdown := default (JObj []) (rr_quality_breakdown result);
           r_follow_up_queries := default [] (rr_follow_up_queries result);
           r_generated_at := now_isoformat w pass |} in
      set_report report
        (set_quality_score quality_score
           (set_status ("Report complete (quality: "
                        +:+ show_float w quality_score +:+ "/100)") no_update))
  | Raise e =>
      let fallback_report :=
        _build_fallback_report w pass query sources (analysis state)
          (fact_check state) (insights state) e in
      set_report fallback_report
        (set_quality_score 30%Q
           (set_status ("Report fallback: " +:+ str_prefix 100 e)
              (set_errors (errors state ++ ["Report: " +:+ e]) no_update)))
  end.

End ReportAgent.

(** ** orchestrator/graph.py *)

Module Graph.

(** Where an edge leads: a node or [END]. *)
Inductive target : Type :=
| To (n : node)
| END.

(** *** Node functions (the progress tracker only reports, and is left out) *)

Definition decompose (cfg : Settings) (w : World) (pass : nat)
    (state : ResearchState) : Update :=
  DecomposerAgent.run cfg w pass state.

Definition retrieve (w : World) (pass : nat) (state : ResearchState) : Update :=
  RetrieverAgent.run w pass state.

Definition analyze (w : World) (pass : nat) (state : ResearchState) : Update :=
  AnalysisAgent.run w pass state.

(** The source calls this node function [fact_check]; that name is the
    state key here. *)
Definition fact_checking (w : World) (pass : nat) (state : ResearchState) : Update :=
  FactCheckerAgent.run w pass state.

Definition generate_insights (w : World) (pass : nat) (state : ResearchState)
    : Update :=
  InsightAgent.run w pass state.

Definition build_report (w : World) (pass : nat) (state : ResearchState) : Update :=
  ReportAgent.run w pass state.

(** *** The quality gate (conditional edge router) *)
Definition quality_gate (cfg : Settings) (state : ResearchState) : string :=
  let quality := quality_score state in
  let iteration := iteration state in
  let max_iter := max_iterations state in
  let threshold := QUALITY_THRESHOLD cfg in
  if Qle_bool threshold quality then "accept"
  else if iteration + 1 >=? max_iter then "accept"
  else "refine".

(** *** The iteration counter *)
Definition increment_iteration (state : ResearchState) : Update :=
  set_iteration (iteration state + 1) no_update.

(** *** The graph *)

(** [builder.add_node]: the function registered under each node. *)
Definition node_function (cfg : Settings) (w : World) (n : node) (pass : nat)
    (state : ResearchState) : Update :=
  match n with
  | Decompose => decompose cfg w pass state
  | Retrieve => retrieve w pass state
  | Analyze => analyze w pass state
  | FactChecking => fact_checking w pass state
  | GenerateInsights => generate_insights w pass state
  | BuildReport => build_report w pass state
  | IncrementIteration => increment_iteration state
  end.

(** [builder.add_edge] *)
Definition edges : list (node * node) :=
  [ (Decompose, Retrieve);
    (Retrieve, Analyze);
    (Analyze, FactChecking);
    (FactChecking, GenerateInsights);
    (GenerateInsights, BuildReport);
    (IncrementIteration, Decompose) ].

(** [builder.add_conditional_edges("build_report", quality_gate, {...})] *)
Definition conditional_edges : list (string * target) :=
  [ ("accept", END); ("refine", To IncrementIteration) ].

Fixpoint lookup_edge (n : node) (es : list (node * node)) : option node :=
  match es with
  | [] => None
  | (a, b) :: rest => if decide (a = n) then Some b else lookup_edge n rest
  end.

Fixpoint lookup_route (r : string) (m : list (string * target)) : option target :=
  match m with
  | [] => None
  | (k, t) :: rest => if String.eqb k r then Some t else lookup_route r rest
  end.

(** Where the graph goes after [n] has written its update. *)
Definition successor (cfg : Settings) (n : node) (state : ResearchState)
    : option target :=
  match n with
  | BuildReport => lookup_route (quality_gate cfg state) conditional_edges
  | _ => To <$> lookup_edge n edges
  end.

(** Running one node: it raises, or its dict is merged into the state. *)
Definition run_node (cfg : Settings) (w : World) (n : node) (pass : nat)
    (state : ResearchState) : result ResearchState :=
  match node_crash w pass n with
  | Some e => Raise e
  | None => Ok (merge state (node_function cfg w n pass state))
  end.

(** How [graph.invoke] ends.  [Crashed] also records the state the graph
    had reached when the exception was raised; the exception itself does
    not carry it. *)
Inductive outcome : Type :=
| Finished (state : ResearchState)
| Crashed (e : string) (partial : ResearchState)
| OutOfSteps.

(** [graph.invoke] from node [n]: the outcome and the nodes executed, in
    order.  [steps] bounds the number of node executions; [pass] counts
    the refinements made so far and selects the oracles' answers. *)
Fixpoint run_from (cfg : Settings) (w : World) (steps : nat) (n : node)
    (pass : nat) (state : ResearchState) : outcome * list node :=
  match steps with
  | O => (OutOfSteps, [])
  | S steps =>
      match run_node cfg w n pass state with
      | Raise e => (Crashed e state, [n])
      | Ok state =>
          match successor cfg n state with
          | None => (Crashed ("no edge from " +:+ node_name n) state, [n])
          | Some END => (Finished state, [n])
          | Some (To n') =>
              let pass := if decide (n = IncrementIteration) then S pass else pass in
              let '(out, trace) := run_from cfg w steps n' pass state in
              (out, n :: trace)
          end
      end
  end.

(** [graph.invoke(initial_state)]: the entry point is ["decompose"]. *)
Definition invoke (cfg : Settings) (w : World) (steps : nat)
    (initial_state : ResearchState) : outcome * list node :=
  run_from cfg w steps Decompose 0 initial_state.

(** The [initial_state] dict of [run_research]. *)
Definition initial_state (cfg : Settings) (query : string)
    (max_iterations : option Z) : ResearchState :=
  {| original_query := query;
     sub_queries := [];
     sources := [];
     analysis := None;
     fact_check := None;
     insights := None;
     report := None;
     iteration := 0;
     max_iterations := or_int max_iterations (MAX_ITERATIONS cfg);
     quality_score := 0;
     status := "Starting research...";
     errors := [] |}.

(** The [except] branch: the initial state with two keys overwritten. *)
Definition pipeline_error (initial_state : ResearchState) (e : string)
    : ResearchState :=
  {| original_query := original_query initial_state;
     sub_queries := sub_queries initial_state;
     sources := sources initial_state;
     analysis := analysis initial_state;
     fact_check := fact_check initial_state;
     insights := insights initial_state;
     report := report initial_state;
     iteration := iteration initial_state;
     max_iterations := max_iterations initial_state;
     quality_score := quality_score initial_state;
     status := "Pipeline error: " +:+ e;
     errors := [e] |}.

Inductive run_result : Type :=
| Returned (state : ResearchState)
| Raised (e : string)
| Unfinished.

(** [run_research(query, max_iterations=...)] with [steps] node executions
    granted to [graph.invoke]: what the caller gets, and the nodes that
    were executed.  [Unfinished]: the steps ran out; what the program does
    then is [run_research_limited] below. *)
Definition run_research (cfg : Settings) (w : World) (steps : nat)
    (query : string) (max_iterations : option Z) : run_result * list node :=
  match setup_failure w with
  | Some e => (Raised e, [])
  | None =>
      let initial_state := initial_state cfg query max_iterations in
      match invoke cfg w steps initial_state with
      | (Finished result, trace) => (Returned result, trace)
      | (Crashed e _, trace) => (Returned (pipeline_error initial_state e), trace)
      | (OutOfSteps, trace) => (Unfinished, trace)
      end
  end.

(** [graph.invoke(initial_state)] is called without a config, so nothing
    in the source sets a [recursion_limit]: the graph library runs under
    its own default of 25 steps and raises [GraphRecursionError] when the
    graph has not reached [END] within them.  A pass is six node
    executions and a refinement one more, so a run ends after 6, 13, 20,
    27, ... of them: whether the library counts exactly 25 does not
    matter, only that its limit lies between 20 and 26. *)
Definition recursion_limit : nat := 25.

(** The message of [GraphRecursionError] (the library's wording, which is
    no part of the source; only that it is the one entry of [errors]
    matters). *)
Definition recursion_error : string :=
  "Recursion limit of 25 reached without hitting a stop condition. "
  +:+ "You can increase the limit by setting the `recursion_limit` config key.".

(** [run_research] as the program runs it: [steps] is the library's
    default, and running out of steps is one more exception that the
    [except] branch turns into the initial state with a pipeline error. *)
Definition run_research_limited (cfg : Settings) (w : World)
    (query : string) (max_iterations : option Z) : run_result * list node :=
  match run_research cfg w recursion_limit query max_iterations with
  | (Unfinished, trace) =>
      (Returned (pipeline_error (initial_state cfg query max_iterations)
                   recursion_error), trace)
  | finished => finished
  end.

(** How often the pipeline was started, and how often the refine
    back-edge was taken, in a trace. *)
Definition passes (trace : list node) : nat :=
  length (filter (fun n => n = Decompose) trace).

Definition refinements (trace : list node) : nat :=
  length (filter (fun n => n = IncrementIteration) trace).

End Graph.

(** ** utils/llm_client.py: [LLMClient._parse_json] *)

Module LLMClient.

(** The length of the match of [```(?:json)?\s*\n?] at the head of [s],
    which starts with three backquotes: the optional word, then every
    following space character (the greedy [\s*] leaves nothing for
    [\n?]). *)
Definition fence_length (s : list ascii) : nat :=
  let r := skipn 3 s in
  let json_word := list_ascii_of_string "json" in
  let '(k, r) := if startswith json_word r then (4%nat, skipn 4 r) else (0%nat, r) in
  (3 + k + (length r - length (lstrip r)))%nat.

(** [re.sub(r"```(?:json)?\s*\n?", "", s)]: every match, left to right,
    is deleted; [skip] counts the characters of the current match still
    to be dropped. *)
Fixpoint strip_fences (skip : nat) (s : list ascii) : list ascii :=
  match s with
  | [] => []
  | c :: r =>
      match skip with
      | S k => strip_fences k r
      | O =>
          if startswith (list_ascii_of_string "```") s
          then strip_fences (fence_length s - 1) r
          else c :: strip_fences 0 r
      end
  end.

(** The suffix of [s] that starts at the first [c]. *)
Fixpoint from_first (c : ascii) (s : list ascii) : option (list ascii) :=
  match s with
  | [] => None
  | x :: r => if Ascii.eqb x c then Some s else from_first c r
  end.

(** The prefix of [s] that ends at the last [c]. *)
Definition through_last (c : ascii) (s : list ascii) : option (list ascii) :=
  match from_first c (rev s) with
  | Some r => Some (rev r)
  | None => None
  end.

(** [re.search(open + ".*" + close, s, re.DOTALL)]: the match runs from
    the first [open] to the last [close] after it. *)
Definition search_span (open close : ascii) (s : list ascii)
    : option (list ascii) :=
  match from_first open s with
  | Some (o :: rest) =>
      match through_last close rest with
      | Some body => Some (o :: body)
      | None => None
      end
  | _ => None
  end.

(** [result if isinstance(result, dict) else {"items": result}] *)
Definition dict_or_items (result : json) : json :=
  if is_dict result then result else JObj [("items", result)].

(** What [json.loads] does with a text: it returns the decoded value, it
    raises [JSONDecodeError], or it raises something else - CPython's
    decoder raises [RecursionError] on a text nested deeper than its
    recursion limit - which no [except json.JSONDecodeError] catches. *)
Inductive decoded : Type :=
| Decoded (v : json)
| JSONDecodeError
| OtherError (e : string).

(** The message of the [ValueError] at the end of [_parse_json]. *)
Definition value_error (text : list ascii) : string :=
  "Could not parse JSON from LLM response. "
  +:+ "First 500 chars: "
  +:+ str_prefix 500 (string_of_list_ascii text).

Section ParseJson.

(** [json.loads] of the standard library. *)
Variable json_loads : string -> decoded.

Definition loads (s : list ascii) : decoded :=
  json_loads (string_of_list_ascii s).

(** The text after [strip()], and after the fences are removed. *)
Definition stripped (text : string) : list ascii :=
  strip (list_ascii_of_string text).

Definition cleaned (text : string) : list ascii :=
  strip (strip_fences 0 (stripped text)).

(** Steps 3 and 4: decode the span, if there is one.  Without a match the
    step is skipped, which continues like a [JSONDecodeError]. *)
Definition load_span (open close : ascii) (s : list ascii) : decoded :=
  match search_span open close s with
  | Some m => loads m
  | None => JSONDecodeError
  end.

Definition _parse_json (text : string) : result json :=
  let text := stripped text in
  match loads text with
  | Decoded result => Ok (dict_or_items result)
  | OtherError e => Raise e
  | JSONDecodeError =>
      let cleaned := strip (strip_fences 0 text) in
      match loads cleaned with
      | Decoded result => Ok (dict_or_items result)
      | OtherError e => Raise e
      | JSONDecodeError =>
          match load_span "{" "}" cleaned with
          | Decoded result => Ok result
          | OtherError e => Raise e
          | JSONDecodeError =>
              match load_span "[" "]" cleaned with
              | Decoded items => Ok (JObj [("items", items)])
              | OtherError e => Raise e
              | JSONDecodeError => Raise (value_error text)
              end
          end
      end
  end.

(** The strings [_parse_json] hands to [json.loads], in order. *)
Definition candidates (text : string) : list (list ascii) :=
  [stripped text; cleaned text]
  ++ option_list (search_span "{" "}" (cleaned text))
  ++ option_list (search_span "[" "]" (cleaned text)).

(** A candidate that ends in [JSONDecodeError]. *)
Definition fails (c : list ascii) : Prop := loads c = JSONDecodeError.

(** The outcome of the first candidate that does not end in
    [JSONDecodeError]; [JSONDecodeError] when they all do. *)
Fixpoint decisive (cs : list (list ascii)) : decoded :=
  match cs with
  | [] => JSONDecodeError
  | c :: rest =>
      match loads c with
      | JSONDecodeError => decisive rest
      | outcome => outcome
      end
  end.

Definition is_container (v : json) : bool := is_dict v || is_list v.

(** The specification's words: "a JSON object or array can be recovered
    from the text", by direct parse, after stripping the code fences,
    or from the brace- or bracket-delimited substring. *)
Definition spec_recoverable (text : string) : bool :=
  existsb (fun c => match loads c with
                    | Decoded v => is_container v
                    | _ => false
                    end) (candidates text).

End ParseJson.

End LLMClient.

(** ** A reference decoder

    [json.loads] belongs to the Python library; [_parse_json] above is
    stated for any decoder.  To run it on concrete replies this is a decoder
    for the JSON grammar without exponents in numbers and without [\u]
    escapes in strings (on which it answers [None]); a fraction is read as
    the exact decimal. *)

Module JsonRef.

Open Scope char_scope.

(** The decoder's own whitespace: space, tab, line feed, carriage return. *)
Definition is_ws (c : ascii) : bool :=
  Ascii.eqb c " " || Ascii.eqb c "009" || Ascii.eqb c "010" || Ascii.eqb c "013".

Fixpoint skip_ws (s : list ascii) : list ascii :=
  match s with
  | c :: r => if is_ws c then skip_ws r else s
  | [] => []
  end.

Definition digit (c : ascii) : option Z :=
  let n := nat_of_ascii c in
  if ((48 <=? n)%nat && (n <=? 57)%nat) then Some (Z.of_nat (n - 48)) else None.

(** The leading digits of [s], read in base ten onto [acc], with their
    number and the rest. *)
Fixpoint digits (s : list ascii) (acc : Z) (count : nat) : Z * nat * list ascii :=
  match s with
  | c :: r =>
      match digit c with
      | Some d => digits r (10 * acc + d) (S count)
      | None => (acc, count, s)
      end
  | [] => (acc, count, s)
  end.

(** An optional minus sign, an integer part without leading zeros and
    an optional fraction of at least one digit. *)
Definition parse_number (s : list ascii) : option (json * list ascii) :=
  let '(neg, s) := match s with "-" :: r => (true, r) | _ => (false, s) end in
  let int_part :=
    match s with
    | "0" :: r => Some (0, r)
    | c :: _ =>
        match digit c with
        | Some _ => let '(v, _, r) := digits s 0 0 in Some (v, r)
        | None => None
        end
    | [] => None
    end in
  match int_part with
  | None => None
  | Some (v, r) =>
      let sign := if neg then (-1) else 1 in
      let frac :=
        match r with
        | "." :: r' =>
            match digits r' 0 0 with
            | (_, O, _) => None
            | (f, n, r'') => Some (f, n, r'')
            end
        | _ => None
        end in
      let '(value, r) :=
        match frac with
        | Some (f, n, r'') =>
            (JFloat (Qmake (sign * (v * 10 ^ Z.of_nat n + f))
                           (Z.to_pos (10 ^ Z.of_nat n))), r'')
        | None => (JInt (sign * v), r)
        end in
      match r with
      | "e" :: _ | "E" :: _ => None
      | _ => Some (value, r)
      end
  end.

Definition unescape (c : ascii) : option ascii :=
  match c with
  | "034" => Some "034"
  | "\" => Some "\"
  | "/" => Some "/"
  | "b" => Some "008"
  | "f" => Some "012"
  | "n" => Some "010"
  | "r" => Some "013"
  | "t" => Some "009"
  | _ => None
  end.

(** The rest of a string literal, after its opening quote. *)
Fixpoint parse_string (s : list ascii) (acc : list ascii)
    : option (string * list ascii) :=
  match s with
  | [] => None
  | "034" :: r => Some (string_of_list_ascii (rev acc), r)
  | "\" :: e :: r =>
      match unescape e with
      | Some c => parse_string r (c :: acc)
      | None => None
      end
  | c :: r =>
      if (nat_of_ascii c <? 32)%nat then None else parse_string r (c :: acc)
  end.

(** [dict(pairs)]: a repeated key keeps its place and takes the later
    value. *)
Fixpoint dict_set (k : string) (v : json) (d : list (string * json))
    : list (string * json) :=
  match d with
  | [] => [(k, v)]
  | (k', v') :: rest =>
      if String.eqb k' k then (k', v) :: rest else (k', v') :: dict_set k v rest
  end.

Definition chars (s : string) : list ascii := list_ascii_of_string s.

Fixpoint parse_value (fuel : nat) (s : list ascii) : option (json * list ascii) :=
  match fuel with
  | O => None
  | S fuel =>
      match s with
      | [] => None
      | c :: r =>
          if Ascii.eqb c "{" then
            match skip_ws r with
            | [] => None
            | c' :: r' =>
                if Ascii.eqb c' "}" then Some (JObj [], r')
                else parse_members fuel (c' :: r') []
            end
          else if Ascii.eqb c "[" then
            match skip_ws r with
            | [] => None
            | c' :: r' =>
                if Ascii.eqb c' "]" then Some (JArr [], r')
                else parse_elements fuel (c' :: r') []
            end
          else if Ascii.eqb c "034" then
            match parse_string r [] with
            | Some (str, r') => Some (JStr str, r')
            | None => None
            end
          else if startswith (chars "true") s then Some (JBool true, skipn 4 s)
          else if startswith (chars "false") s then Some (JBool false, skipn 5 s)
          else if startswith (chars "null") s then Some (JNull, skipn 4 s)
          else parse_number s
      end
  end
with parse_elements (fuel : nat) (s : list ascii) (acc : list json)
    : option (json * list ascii) :=
  match fuel with
  | O => None
  | S fuel =>
      match parse_value fuel s with
      | Some (v, r) =>
          match skip_ws r with
          | [] => None
          | c :: r' =>
              if Ascii.eqb c "," then parse_elements fuel (skip_ws r') (acc ++ [v])
              else if Ascii.eqb c "]" then Some (JArr (acc ++ [v]), r')
              else None
          end
      | None => None
      end
  end
with parse_members (fuel : nat) (s : list ascii) (acc : list (string * json))
    : option (json * list ascii) :=
  match fuel with
  | O => None
  | S fuel =>
      match s with
      | [] => None
      | q :: r =>
          if Ascii.eqb q "034" then
            match parse_string r [] with
            | None => None
            | Some (key, r) =>
                match skip_ws r with
                | [] => None
                | c :: r =>
                    if Ascii.eqb c ":" then
                      match parse_value fuel (skip_ws r) with
                      | None => None
                      | Some (v, r) =>
                          match skip_ws r with
                          | [] => None
                          | c' :: r' =>
                              if Ascii.eqb c' "," then
                                parse_members fuel (skip_ws r') (dict_set key v acc)
                              else if Ascii.eqb c' "}" then
                                Some (JObj (dict_set key v acc), r')
                              else None
                          end
                      end
                    else None
                end
            end
          else None
      end
  end.

(** [json.loads(s)]: one value, with only whitespace around it. *)
Definition json_loads (s : string) : LLMClient.decoded :=
  let s := skip_ws (list_ascii_of_string s) in
  match parse_value (S (length s)) s with
  | Some (v, r) =>
      match skip_ws r with
      | [] => LLMClient.Decoded v
      | _ => LLMClient.JSONDecodeError
      end
  | None => LLMClient.JSONDecodeError
  end.

(** The deepest nesting of brackets and braces in a text. *)
Fixpoint nesting (depth deepest : nat) (s : list ascii) : nat :=
  match s with
  | [] => deepest
  | c :: r =>
      if Ascii.eqb c "[" || Ascii.eqb c "{"
      then nesting (S depth) (Nat.max deepest (S depth)) r
      else if Ascii.eqb c "]" || Ascii.eqb c "}"
      then nesting (Nat.pred depth) deepest r
      else nesting depth deepest r
  end.

(** The decoder under a recursion limit, as CPython runs it: a text nested
    deeper than [limit] ends in [RecursionError]. *)
Definition json_loads_within (limit : nat) (s : string) : LLMClient.decoded :=
  if (limit <? nesting 0 0 (list_ascii_of_string s))%nat
  then LLMClient.OtherError
         "maximum recursion depth exceeded while decoding a JSON array from a unicode string"
  else json_loads s.

End JsonRef.

(** ** Derived notions used to state the properties *)

(** A state with the given score, iteration and ceiling (the gate reads
    nothing else). *)
Definition gate_input (score : Q) (iteration max : Z) : ResearchState :=
  merge (Graph.initial_state settings "q" (Some max))
        (set_quality_score score (set_iteration iteration no_update)).

(** Node executions from [n] up to and including the next run of the gate
    (for the back-edge node: the next pass as well). *)
Definition distance_to_gate (n : node) : nat :=
  match n with
  | Decompose => 6
  | Retrieve => 5
  | Analyze => 4
  | FactChecking => 3
  | GenerateInsights => 2
  | BuildReport => 1
  | IncrementIteration => 7
  end.

(** A number of node executions that suffices to finish from [n]. *)
Definition steps_needed (n : node) (state : ResearchState) : nat :=
  let d := if decide (n = IncrementIteration) then 1 else 0 in
  (distance_to_gate n
   + 7 * Z.to_nat (max_iterations state - 1 - (iteration state + d)))%nat.

(** A world in which every call to the model and to the search service
    fails, and nothing else goes wrong. *)
Definition offline_world : World := {|
  setup_failure := None;
  node_crash := fun _ _ => None;
  llm_decompose := fun _ => Raise "offline";
  tavily_search := fun _ _ _ => Raise "offline";
  llm_categorize := fun _ => Raise "offline";
  llm_analysis := fun _ => Raise "offline";
  llm_fact_check := fun _ => Raise "offline";
  llm_insight := fun _ => Raise "offline";
  llm_report := fun _ => Raise "offline";
  netloc := fun u => u;
  show_float := fun _ => "?";
  show_json := fun _ => "[]";
  now_isoformat := fun _ => "2024-01-01T00:00:00"
|}.

(** The score the report stage writes in a pass: the model's
    [quality_score] (50 when the reply has none), or 30 on the fallback. *)
Definition pass_score (w : World) (pass : nat) : Q :=
  match llm_report w pass with
  | Ok result => default 50%Q (rr_quality_score result)
  | Raise _ => 30%Q
  end.

(** The six stages of one pass, in the order of the linear edges, and the
    state they leave when none of them raises. *)
Definition stage_order : list node :=
  [Decompose; Retrieve; Analyze; FactChecking; GenerateInsights; BuildReport].

Definition pipeline_pass (cfg : Settings) (w : World) (pass : nat)
    (state : ResearchState) : ResearchState :=
  fold_left (fun st n => merge st (Graph.node_function cfg w n pass st))
            stage_order state.

(** The run of the offline world with ceiling 3, and the state it returns. *)
Definition offline_run : Graph.run_result * list node :=
  Graph.run_research settings offline_world 21 "q" (Some 3).

Definition offline_final : ResearchState :=
  match fst offline_run with
  | Graph.Returned s => s
  | _ => Graph.initial_state settings "q" (Some 3)
  end.

(** The state after pass [k] (counted from 0) of a run in which the gate
    has asked for a refinement after each earlier pass: pass [k + 1] starts
    from the accumulated state of pass [k], with the counter moved on. *)
Fixpoint state_after_pass (cfg : Settings) (w : World) (k : nat)
    (initial : ResearchState) : ResearchState :=
  match k with
  | O => pipeline_pass cfg w 0 initial
  | S k' =>
      let previous := state_after_pass cfg w k' initial in
      pipeline_pass cfg w k
        (merge previous (Graph.increment_iteration previous))
  end.



(** The state of the offline world after its first decomposition: the
    fallback sub-query, and one entry in [errors]. *)
Definition offline_decomposed : ResearchState :=
  let s0 := Graph.initial_state settings "q" None in
  merge s0 (Graph.node_function settings offline_world Decompose 0 s0).



(** ** Further worlds *)

(** A world in which every call succeeds: the search finds one page per
    pass, the model answers every stage, and the report scores 50 in the
    first pass and 72 afterwards. *)
Definition scenario_world : World := {|
  setup_failure := None;
  node_crash := fun _ _ => None;
  llm_decompose := fun _ => Ok None;
  tavily_search := fun pass _ _ =>
    Ok [ {| tr_title := Some "A page";
            tr_url := Some ("https://example.org/" +:+ pretty pass);
            tr_content := Some "text"; tr_score := Some 1%Q |} ];
  llm_categorize := fun _ => Ok [];
  llm_analysis := fun _ =>
    Ok {| ar_executive_summary := Some "summary";
          ar_findings :=
            Some [ {| f_claim := Some "a claim"; f_source_indices := Some [0];
                      f_category := None; f_importance := None |} ];
          ar_contradictions := None; ar_gaps := None;
          ar_source_assessments := None |};
  llm_fact_check := fun _ =>
    Ok {| fr_verified_claims := None; fr_overall_reliability_score := Some 80%Q;
          fr_warnings := None; fr_contradiction_details := None |};
  llm_insight := fun _ =>
    Ok {| ir_hypotheses := None; ir_trends := None; ir_key_patterns := None;
          ir_implications := None; ir_further_questions := None |};
  llm_report := fun pass =>
    Ok {| rr_quality_score := Some (match pass with O => 50%Q | _ => 72%Q end);
          rr_title := None; rr_executive_summary := None; rr_key_findings := None;
          rr_contradictions_and_gaps := None; rr_insights_and_trends := None;
          rr_source_reliability := None; rr_methodology_note := None;
          rr_quality_breakdown := None; rr_follow_up_queries := None |};
  netloc := fun u => u;
  show_float := fun _ => "?";
  show_json := fun _ => "[]";
  now_isoformat := fun _ => "2024-01-01T00:00:00"
|}.

(** Every model call of the five LLM-backed stages succeeds in every pass. *)
Definition model_always_answers (w : World) : Prop :=
  forall pass,
    is_ok (llm_decompose w pass) = true
    /\ is_ok (llm_analysis w pass) = true
    /\ is_ok (llm_fact_check w pass) = true
    /\ is_ok (llm_insight w pass) = true
    /\ is_ok (llm_report w pass) = true.

(** Two sources that agree on every field except, possibly, [source_type]. *)
Definition same_but_type (a b : SourceDocument) : Prop :=
  title a = title b /\ url a = url b /\ content a = content b
  /\ relevance_score a = relevance_score b /\ domain a = domain b
  /\ sub_query a = sub_query b.

(** The state of the scenario world before its first retrieval. *)
Definition scenario_decomposed : ResearchState :=
  let s0 := Graph.initial_state settings "q" (Some 2) in
  merge s0 (Graph.node_function settings scenario_world Decompose 0 s0).

(** A text with whitespace put before and after it. *)
Definition padded (before : list ascii) (text : string) (after : list ascii)
    : string :=
  string_of_list_ascii (before ++ list_ascii_of_string text ++ after).

(** Every character of [s] is a space character for [str.isspace]. *)
Definition all_space (s : list ascii) : Prop := Forall (fun c => isspace c = true) s.

(** A reply that wraps [body] in a markdown fence: three backquotes and the
    word json, a line feed, the body, a line feed, three backquotes. *)
Definition fenced (body : string) : string :=
  string_of_list_ascii
    (list_ascii_of_string "```json" ++ ["010"%char]
     ++ list_ascii_of_string body ++ ["010"%char] ++ list_ascii_of_string "```").

(** ** utils/llm_client.py: token bookkeeping *)

Module Usage.

(** One record of [call_log]. *)
Record CallEntry : Type := {
  agent : string;
  prompt_tokens : Z;
  completion_tokens : Z;
  total_tokens : Z
}.

(** The fields of [LLMClient] the bookkeeping touches. *)
Record Client : Type := {
  client_total_tokens : Z;
  call_log : list CallEntry;
  _current_agent : string
}.

(** [LLMClient.__init__] *)
Definition init : Client :=
  {| client_total_tokens := 0; call_log := []; _current_agent := "unknown" |}.

(** [set_agent] *)
Definition set_agent (agent_name : string) (c : Client) : Client :=
  {| client_total_tokens := client_total_tokens c;
     call_log := call_log c;
     _current_agent := agent_name |}.

(** [response.usage]: each count may be missing. *)
Record UsageReport : Type := {
  usage_prompt_tokens : option Z;
  usage_completion_tokens : option Z;
  usage_total_tokens : option Z
}.

(** The bookkeeping of [chat] once the completion has arrived:
    [if response.usage: ...]. *)
Definition record_usage (usage : option UsageReport) (c : Client) : Client :=
  match usage with
  | None => c
  | Some u =>
      let prompt_tok := or_int (usage_prompt_tokens u) 0 in
      let completion_tok := or_int (usage_completion_tokens u) 0 in
      let total_tok := or_int (usage_total_tokens u) (prompt_tok + completion_tok) in
      {| client_total_tokens := client_total_tokens c + total_tok;
         call_log :=
           call_log c ++ [ {| agent := _current_agent c;
                              prompt_tokens := prompt_tok;
                              completion_tokens := completion_tok;
                              total_tokens := total_tok |} ];
         _current_agent := _current_agent c |}
  end.

(** One value of the [by_agent] dict. *)
Record AgentStats : Type := {
  s_prompt_tokens : Z;
  s_completion_tokens : Z;
  s_total_tokens : Z;
  s_calls : Z
}.

Definition no_stats : AgentStats :=
  {| s_prompt_tokens := 0; s_completion_tokens := 0; s_total_tokens := 0;
     s_calls := 0 |}.

(** The body of the loop [for entry in self.call_log]. *)
Definition add_entry (by_agent : gmap string AgentStats) (entry : CallEntry)
    : gmap string AgentStats :=
  let by_agent :=
    match by_agent !! agent entry with
    | None => <[agent entry := no_stats]> by_agent
    | Some _ => by_agent
    end in
  let cur := default no_stats (by_agent !! agent entry) in
  <[agent entry :=
      {| s_prompt_tokens := s_prompt_tokens cur + prompt_tokens entry;
         s_completion_tokens := s_completion_tokens cur + completion_tokens entry;
         s_total_tokens := s_total_tokens cur + total_tokens entry;
         s_calls := s_calls cur + 1 |}]> by_agent.

(** The dict [get_usage_summary] returns. *)
Record Summary : Type := {
  by_agent : gmap string AgentStats;
  sum_total_tokens : Z;
  total_calls : Z
}.

(** [get_usage_summary] *)
Definition get_usage_summary (c : Client) : Summary :=
  {| by_agent := fold_left add_entry (call_log c) ∅;
     sum_total_tokens := client_total_tokens c;
     total_calls := len (call_log c) |}.

(** What a caller does with a client between its creation and the summary. *)
Inductive op : Type :=
| SetAgent (agent_name : string)
| Chat (usage : option UsageReport).

Definition apply_op (c : Client) (o : op) : Client :=
  match o with
  | SetAgent name => set_agent name c
  | Chat usage => record_usage usage c
  end.

(** The entries of the log that belong to one agent. *)
Definition entries_of (a : string) (log : list CallEntry) : list CallEntry :=
  filter (fun e => agent e = a) log.

Definition sum_Z (l : list Z) : Z := fold_right Z.add 0 l.

(** The totals of a [by_agent] dict, over all its agents. *)
Definition tokens_of_all (m : gmap string AgentStats) : Z :=
  map_fold (fun _ s acc => s_total_tokens s + acc) 0 m.

Definition calls_of_all (m : gmap string AgentStats) : Z :=
  map_fold (fun _ s acc => s_calls s + acc) 0 m.

End Usage.

(** ** Group_4_Submission/src/graph.py: the contradiction loop

    The cousin of the quality gate: a straight pipeline with one back-edge,
    taken while a critical contradiction is open and the loop counter is
    below its ceiling. *)

Module Group4.

(** Python truthiness of a JSON value ([if top_contradiction]). *)
Definition truthy (v : json) : bool :=
  match v with
  | JNull => false
  | JBool b => b
  | JInt z => negb (z =? 0)
  | JFloat q => negb (Qeq_bool q 0)
  | JStr s => negb (String.eqb s "")
  | JArr l => match l with [] => false | _ => true end
  | JObj l => match l with [] => false | _ => true end
  end.

(** [src/state.py]: [ResearchState].  The keys annotated with
    [operator.add] accumulate; [tool_usage] adds the counts key by key. *)
Record ResearchState : Type := {
  query : string;
  sub_questions : list string;
  current_sub_questions : list string;
  documents : list json;
  claims : list json;
  contradictions : list json;
  top_contradiction : option json;
  contradiction_confidence : Q;
  loop_count : Z;
  max_loops : Z;
  insights : list string;
  hallucination_flags : list json;
  report : string;
  stage : string;
  logs : list string;
  tool_usage : gmap string Z
}.

(** The dict an agent returns.  The seven agents of [src/agents] call hosted
    models and search; every [return] of theirs is a dict over these keys,
    and none of them holds [loop_count], [max_loops] or [query]. *)
Record AgentUpdate : Type := {
  a_sub_questions : option (list string);
  a_current_sub_questions : option (list string);
  a_documents : option (list json);
  a_claims : option (list json);
  a_contradictions : option (list json);
  a_top_contradiction : option (option json);
  a_contradiction_confidence : option Q;
  a_insights : option (list string);
  a_hallucination_flags : option (list json);
  a_report : option string;
  a_stage : option string;
  a_logs : option (list string);
  a_tool_usage : option (gmap string Z)
}.

(** The reducer of [tool_usage]:
    [{k: a.get(k, 0) + b.get(k, 0) for k in set(a) | set(b)}]. *)
Definition add_usage (a b : gmap string Z) : gmap string Z :=
  union_with (fun x y => Some (x + y)) a b.

(** How the graph applies an agent's dict. *)
Definition apply_agent (state : ResearchState) (u : AgentUpdate) : ResearchState :=
  {| query := query state;
     sub_questions := sub_questions state ++ default [] (a_sub_questions u);
     current_sub_questions :=
       default (current_sub_questions state) (a_current_sub_questions u);
     documents := documents state ++ default [] (a_documents u);
     claims := claims state ++ default [] (a_claims u);
     contradictions := default (contradictions state) (a_contradictions u);
     top_contradiction := default (top_contradiction state) (a_top_contradiction u);
     contradiction_confidence :=
       default (contradiction_confidence state) (a_contradiction_confidence u);
     loop_count := loop_count state;
     max_loops := max_loops state;
     insights := default (insights state) (a_insights u);
     hallucination_flags :=
       default (hallucination_flags state) (a_hallucination_flags u);
     report := default (report state) (a_report u);
     stage := default (stage state) (a_stage u);
     logs := logs state ++ default [] (a_logs u);
     tool_usage :=
       match a_tool_usage u with
       | Some b => add_usage (tool_usage state) b
       | None => tool_usage state
       end |}.

(** [increment_loop] returns [{"loop_count": current_loop + 1}]; this is
    the state after the graph has applied it. *)
Definition increment_loop (state : ResearchState) : ResearchState :=
  {| query := query state;
     sub_questions := sub_questions state;
     current_sub_questions := current_sub_questions state;
     documents := documents state;
     claims := claims state;
     contradictions := contradictions state;
     top_contradiction := top_contradiction state;
     contradiction_confidence := contradiction_confidence state;
     loop_count := loop_count state + 1;
     max_loops := max_loops state;
     insights := insights state;
     hallucination_flags := hallucination_flags state;
     report := report state;
     stage := stage state;
     logs := logs state;
     tool_usage := tool_usage state |}.

(** [check_contradiction] *)
Definition check_contradiction (state : ResearchState) : string :=
  let loop_count := loop_count state in
  let max_loops := max_loops state in
  let top_contradiction := top_contradiction state in
  if match top_contradiction with Some v => truthy v | None => false end
     && (loop_count <? max_loops)
  then "increment_loop"
  else "source_verifier".

Inductive node : Type :=
| Strategist | Gatherer | Extractor | Detector | IncrementLoop
| SourceVerifier | KnowledgeSynthesizer | NarrativeDesigner.

#[global] Instance node_eq_dec : EqDecision node.
Proof. solve_decision. Defined.

Inductive target : Type :=
| To (n : node)
| END.

(** The agents: what the agent behind node [n] returns, or the exception
    it raises, at the [i]-th node execution of the run. *)
Definition Agents : Type := node -> nat -> ResearchState -> result AgentUpdate.

(** [workflow.add_edge] and [workflow.add_conditional_edges] of
    [create_graph]. *)
Definition successor (n : node) (state : ResearchState) : option target :=
  match n with
  | Strategist => Some (To Gatherer)
  | Gatherer => Some (To Extractor)
  | Extractor => Some (To Detector)
  | Detector =>
      let route := check_contradiction state in
      if String.eqb route "increment_loop" then Some (To IncrementLoop)
      else if String.eqb route "source_verifier" then Some (To SourceVerifier)
      else None
  | IncrementLoop => Some (To Strategist)
  | SourceVerifier => Some (To KnowledgeSynthesizer)
  | KnowledgeSynthesizer => Some (To NarrativeDesigner)
  | NarrativeDesigner => Some END
  end.

Definition run_node (agents : Agents) (n : node) (i : nat) (state : ResearchState)
    : result ResearchState :=
  match n with
  | IncrementLoop => Ok (increment_loop state)
  | _ =>
      match agents n i state with
      | Ok u => Ok (apply_agent state u)
      | Raise e => Raise e
      end
  end.

Inductive outcome : Type :=
| Finished (state : ResearchState)
| Crashed (e : string)
| OutOfSteps.

(** [graph.invoke] from node [n], the [i]-th execution of the run. *)
Fixpoint run_from (agents : Agents) (steps : nat) (n : node) (i : nat)
    (state : ResearchState) : outcome * list node :=
  match steps with
  | O => (OutOfSteps, [])
  | S steps =>
      match run_node agents n i state with
      | Raise e => (Crashed e, [n])
      | Ok state =>
          match successor n state with
          | None => (Crashed "no edge", [n])
          | Some END => (Finished state, [n])
          | Some (To n') =>
              let '(out, trace) := run_from agents steps n' (S i) state in
              (out, n :: trace)
          end
      end
  end.

(** The input of [graph.invoke] in [main.py]: the query, the ceiling and a
    counter at 0; every other key starts empty. *)
Definition initial_state (q : string) (MAX_LOOPS : Z) : ResearchState :=
  {| query := q; sub_questions := []; current_sub_questions := [];
     documents := []; claims := []; contradictions := [];
     top_contradiction := None; contradiction_confidence := 0;
     loop_count := 0; max_loops := MAX_LOOPS; insights := [];
     hallucination_flags := []; report := ""; stage := ""; logs := [];
     tool_usage := ∅ |}.

(** [graph.invoke({...})]: the entry point is the strategist. *)
Definition invoke (agents : Agents) (steps : nat) (q : string) (MAX_LOOPS : Z)
    : outcome * list node :=
  run_from agents steps Strategist 0 (initial_state q MAX_LOOPS).

Definition count (n : node) (trace : list node) : nat :=
  length (filter (fun x => x = n) trace).

(** Agents that always find a contradiction, and never fail. *)
Definition quarrelsome : Agents :=
  fun n _ _ =>
    Ok {| a_sub_questions := None; a_current_sub_questions := None;
          a_documents := match n with Gatherer => Some [JStr "doc"] | _ => None end;
          a_claims := None; a_contradictions := None;
          a_top_contradiction :=
            match n with
            | Detector => Some (Some (JObj [("claim_1", JStr "a")]))
            | _ => None
            end;
          a_contradiction_confidence := None; a_insights := None;
          a_hallucination_flags := None; a_report := None; a_stage := None;
          a_logs := None; a_tool_usage := None |}.

End Group4.

(** Node executions that suffice to finish the Group 4 graph from [n]. *)
Definition steps_needed4 (n : Group4.node) (state : Group4.ResearchState) : nat :=
  let loops_left (d : Z) : nat :=
    Z.to_nat (Group4.max_loops state - (Group4.loop_count state + d)) in
  match n with
  | Group4.Strategist => (7 + 5 * loops_left 0%Z)%nat
  | Group4.Gatherer => (6 + 5 * loops_left 0%Z)%nat
  | Group4.Extractor => (5 + 5 * loops_left 0%Z)%nat
  | Group4.Detector => (4 + 5 * loops_left 0%Z)%nat
  | Group4.IncrementLoop => (8 + 5 * loops_left 1%Z)%nat
  | Group4.SourceVerifier => 3%nat
  | Group4.KnowledgeSynthesizer => 2%nat
  | Group4.NarrativeDesigner => 1%nat
  end.

(** A word as [str.split()] yields it: not empty and free of space
    characters. *)
Definition is_word (w : list ascii) : Prop :=
  w <> [] /\ Forall (fun c => isspace c = false) w.

(** The words of a text. *)
Definition words_of (content : string) : list (list ascii) :=
  split_ws [] (list_ascii_of_string content).

(** * Properties *)

Open Scope list_scope.

(** ** The state keys a node writes *)

Lemma node_keeps_max_iterations cfg w n pass state :
  max_iterations (merge state (Graph.node_function cfg w n pass state))
  = max_iterations state.
Proof. reflexivity. Qed.

Lemma agents_leave_iteration cfg w n pass state :
  n <> IncrementIteration ->
  u_iteration (Graph.node_function cfg w n pass state) = None.
Proof.
  intros Hn. destruct n; try congruence; cbn;
    unfold Graph.decompose, Graph.retrieve, Graph.analyze, Graph.fact_checking,
      Graph.generate_insights, Graph.build_report, DecomposerAgent.run, RetrieverAgent.run, AnalysisAgent.run,
      FactCheckerAgent.run, InsightAgent.run, ReportAgent.run;
    repeat case_match; reflexivity.
Qed.

Lemma node_iteration cfg w n pass state :
  iteration (merge state (Graph.node_function cfg w n pass state))
  = if decide (n = IncrementIteration) then iteration state + 1
    else iteration state.
Proof.
  case_decide as Hn.
  - subst n. reflexivity.
  - cbn. now rewrite agents_leave_iteration.
Qed.

Lemma run_node_inv cfg w n pass state state' :
  Graph.run_node cfg w n pass state = Ok state' ->
  state' = merge state (Graph.node_function cfg w n pass state).
Proof. unfold Graph.run_node. case_match; congruence. Qed.

Lemma run_node_no_crash cfg w n pass state :
  node_crash w pass n = None ->
  Graph.run_node cfg w n pass state
  = Ok (merge state (Graph.node_function cfg w n pass state)).
Proof. unfold Graph.run_node. now intros ->. Qed.

(** ** The quality gate *)

Lemma quality_gate_values cfg state :
  Graph.quality_gate cfg state = "accept" \/ Graph.quality_gate cfg state = "refine".
Proof. unfold Graph.quality_gate. repeat case_match; auto. Qed.

Lemma quality_gate_refine cfg state :
  Graph.quality_gate cfg state = "refine" ->
  ~ (QUALITY_THRESHOLD cfg <= quality_score state)%Q
  /\ iteration state + 1 < max_iterations state.
Proof.
  unfold Graph.quality_gate.
  destruct (Qle_bool _ _) eqn:Hq; [discriminate |].
  destruct (_ >=? _) eqn:Hi; [discriminate |]. intros _. split.
  - intros Hle. apply Qle_bool_iff in Hle. congruence.
  - lia.
Qed.

(** The only edge into [increment_iteration] is the gate's "refine". *)
Lemma successor_increment cfg n state :
  Graph.successor cfg n state = Some (Graph.To IncrementIteration) ->
  n = BuildReport /\ Graph.quality_gate cfg state = "refine".
Proof.
  destruct n; cbn; try discriminate. intros H. split; [reflexivity |].
  destruct (quality_gate_values cfg state) as [Hg | Hg]; rewrite Hg in *;
    [discriminate | reflexivity].
Qed.

Lemma successor_total cfg n state : is_Some (Graph.successor cfg n state).
Proof.
  destruct n; cbn; eauto.
  destruct (quality_gate_values cfg state) as [-> | ->]; cbn; eauto.
Qed.

Lemma quality_gate_passed cfg state :
  (QUALITY_THRESHOLD cfg <= quality_score state)%Q ->
  Graph.quality_gate cfg state = "accept".
Proof.
  intros H. unfold Graph.quality_gate. apply Qle_bool_iff in H. now rewrite H.
Qed.

Lemma quality_gate_ceiling cfg state :
  (quality_score state < QUALITY_THRESHOLD cfg)%Q ->
  iteration state + 1 >= max_iterations state ->
  Graph.quality_gate cfg state = "accept".
Proof.
  intros Hq Hi. unfold Graph.quality_gate.
  destruct (Qle_bool _ _) eqn:E; [reflexivity |].
  destruct (_ >=? _) eqn:E'; [reflexivity | lia].
Qed.

Lemma quality_gate_below cfg state :
  (quality_score state < QUALITY_THRESHOLD cfg)%Q ->
  iteration state + 1 < max_iterations state ->
  Graph.quality_gate cfg state = "refine".
Proof.
  intros Hq Hi. unfold Graph.quality_gate. destruct (Qle_bool _ _) eqn:E.
  - apply Qle_bool_iff in E. apply Qlt_not_le in Hq. contradiction.
  - destruct (_ >=? _) eqn:E'; [lia | reflexivity].
Qed.

(** C1.  For every state the quality gate answers "accept" when the score
    reaches the configured threshold; below the threshold it answers
    "accept" when [iteration + 1 >= max_iterations] and "refine" otherwise.
    With threshold 65: accept at (score 70, iteration 0, max 3), refine at
    (40, 0, 3), accept at (40, 2, 3). *)
Theorem quality_gate_decides :
  forall (cfg : Settings) (state : ResearchState),
    ((QUALITY_THRESHOLD cfg <= quality_score state)%Q ->
       Graph.quality_gate cfg state = "accept")
    /\ ((quality_score state < QUALITY_THRESHOLD cfg)%Q ->
        iteration state + 1 >= max_iterations state ->
        Graph.quality_gate cfg state = "accept")
    /\ ((quality_score state < QUALITY_THRESHOLD cfg)%Q ->
        iteration state + 1 < max_iterations state ->
        Graph.quality_gate cfg state = "refine")
    /\ Graph.quality_gate settings (gate_input 70 0 3) = "accept"
    /\ Graph.quality_gate settings (gate_input 40 0 3) = "refine"
    /\ Graph.quality_gate settings (gate_input 40 2 3) = "accept".
Proof.
  intros cfg state.
  split; [apply quality_gate_passed |].
  split; [apply quality_gate_ceiling |].
  split; [apply quality_gate_below |].
  split; [reflexivity |]. split; reflexivity.
Qed.

(** ** Counting passes and refinements along a run *)

Lemma passes_cons n trace :
  Graph.passes (n :: trace)
  = ((if decide (n = Decompose) then 1 else 0) + Graph.passes trace)%nat.
Proof. unfold Graph.passes. rewrite filter_cons. case_decide; reflexivity. Qed.

Lemma refinements_cons n trace :
  Graph.refinements (n :: trace)
  = ((if decide (n = IncrementIteration) then 1 else 0) + Graph.refinements trace)%nat.
Proof. unfold Graph.refinements. rewrite filter_cons. case_decide; reflexivity. Qed.

(** The only edge into [decompose] comes from [increment_iteration]. *)
Lemma successor_decompose cfg n state :
  Graph.successor cfg n state = Some (Graph.To Decompose) -> n = IncrementIteration.
Proof.
  destruct n; cbn; try discriminate; try reflexivity.
  destruct (quality_gate_values cfg state) as [-> | ->]; discriminate.
Qed.

(** One unfolding of [run_from]. *)
Lemma run_from_S cfg w steps n pass state :
  Graph.run_from cfg w (S steps) n pass state =
  match Graph.run_node cfg w n pass state with
  | Raise e => (Graph.Crashed e state, [n])
  | Ok state' =>
      match Graph.successor cfg n state' with
      | None => (Graph.Crashed ("no edge from " +:+ node_name n) state', [n])
      | Some Graph.END => (Graph.Finished state', [n])
      | Some (Graph.To n') =>
          let pass' := if decide (n = IncrementIteration) then S pass else pass in
          let '(out, trace) := Graph.run_from cfg w steps n' pass' state' in
          (out, n :: trace)
      end
  end.
Proof. reflexivity. Qed.

(** Along any run from node [n]: the refine back-edge is taken at most
    [max_iterations - 1 - iteration] more times (once more when the run
    starts on the back-edge itself), a pass starts only at the entry or
    after a refinement, and a finished run has added one to [iteration] per
    refinement and kept [max_iterations]. *)
Lemma run_from_counts cfg w steps :
  forall n pass state out trace,
    Graph.run_from cfg w steps n pass state = (out, trace) ->
    let d := if decide (n = IncrementIteration) then 1 else 0 in
    Z.of_nat (Graph.refinements trace)
      <= d + Z.max 0 (max_iterations state - 1 - (iteration state + d))
    /\ (Graph.passes trace
        <= Graph.refinements trace + (if decide (n = Decompose) then 1 else 0))%nat
    /\ (forall s, out = Graph.Finished s ->
          iteration s = iteration state + Z.of_nat (Graph.refinements trace)
          /\ max_iterations s = max_iterations state).
Proof.
  induction steps as [| steps IH]; intros n pass state out trace Hrun d.
  - cbn in Hrun. injection Hrun as <- <-. cbn. subst d.
    split; [| split]; try discriminate; repeat case_decide; lia.
  - rewrite run_from_S in Hrun.
    destruct (Graph.run_node cfg w n pass state) as [state' | e] eqn:Hnode.
    2:{ injection Hrun as <- <-. rewrite passes_cons, refinements_cons.
        change (Graph.passes []) with 0%nat.
        change (Graph.refinements []) with 0%nat. subst d.
        split; [| split]; try discriminate; repeat case_decide; lia. }
    apply run_node_inv in Hnode.
    assert (Hit : iteration state' = iteration state + d).
    { subst state' d. rewrite node_iteration. case_decide; lia. }
    assert (Hmax : max_iterations state' = max_iterations state) by now subst state'.
    destruct (Graph.successor cfg n state') as [[n' |] |] eqn:Hsucc.
    + cbn zeta in Hrun.
      destruct (Graph.run_from cfg w steps n' _ state') as [out' trace'] eqn:Hrest.
      injection Hrun as <- <-.
      specialize (IH _ _ _ _ _ Hrest). cbn zeta in IH.
      destruct IH as (IHr & IHp & IHf).
      rewrite passes_cons, refinements_cons. rewrite Hit, Hmax in IHr.
      assert (Hback : n' = IncrementIteration -> d = 0 /\ iteration state + 1 < max_iterations state).
      { intros ->. apply successor_increment in Hsucc as [-> Hg].
        apply quality_gate_refine in Hg as [_ Hg]. subst d.
        repeat case_decide; try congruence; lia. }
      assert (Hentry : n' = Decompose -> n = IncrementIteration).
      { intros ->. eapply successor_decompose, Hsucc. }
      split; [| split].
      * subst d. destruct (decide (n' = IncrementIteration)) as [Hn' | Hn'].
        -- destruct (Hback Hn') as [Hd Hlt]. repeat case_decide; try lia.
        -- repeat case_decide; lia.
      * destruct (decide (n' = Decompose)) as [Hn' | Hn'].
        -- rewrite (Hentry Hn'). repeat case_decide; try congruence; lia.
        -- repeat case_decide; lia.
      * intros s Hs. destruct (IHf s Hs) as [-> ->]. subst d.
        rewrite Hit, Hmax. split; [| reflexivity]. repeat case_decide; lia.
    + injection Hrun as <- <-. rewrite passes_cons, refinements_cons.
      change (Graph.passes []) with 0%nat.
      change (Graph.refinements []) with 0%nat. subst d.
      split; [| split]; try (repeat case_decide; lia).
      intros s [= <-]. rewrite Hit. split; [| exact Hmax]. repeat case_decide; lia.
    + injection Hrun as <- <-. rewrite passes_cons, refinements_cons.
      change (Graph.passes []) with 0%nat.
      change (Graph.refinements []) with 0%nat. subst d.
      split; [| split]; try discriminate; repeat case_decide; lia.
Qed.

(** ** Termination of the graph *)

Lemma run_from_enough cfg w steps :
  forall n pass state,
    (steps_needed n state <= steps)%nat ->
    fst (Graph.run_from cfg w steps n pass state) <> Graph.OutOfSteps.
Proof.
  induction steps as [| steps IH]; intros n pass state Hsteps.
  - unfold steps_needed in Hsteps. destruct n; cbn in Hsteps; lia.
  - rewrite run_from_S.
    destruct (Graph.run_node cfg w n pass state) as [state' | e] eqn:Hnode;
      [| discriminate].
    apply run_node_inv in Hnode.
    assert (Hit : iteration state'
                  = iteration state
                    + if decide (n = IncrementIteration) then 1 else 0).
    { subst state'. rewrite node_iteration. case_decide; lia. }
    assert (Hmax : max_iterations state' = max_iterations state) by now subst state'.
    destruct (Graph.successor cfg n state') as [[n' |] |] eqn:Hsucc;
      [| discriminate | discriminate].
    cbn zeta.
    destruct (Graph.run_from cfg w steps n' _ state') as [out trace] eqn:Hrest.
    cbn. specialize (IH n' (if decide (n = IncrementIteration) then S pass else pass) state').
    rewrite Hrest in IH. cbn in IH. apply IH. clear IH Hrest.
    unfold steps_needed in *. rewrite Hit, Hmax.
    destruct n; cbn in Hsucc; try (injection Hsucc as <-);
      try (repeat case_decide; try congruence; cbn in *; lia).
    destruct (quality_gate_values cfg state') as [Hg | Hg]; rewrite Hg in Hsucc;
      cbn in Hsucc; [discriminate |]. injection Hsucc as <-.
    apply quality_gate_refine in Hg as [_ Hg]. rewrite Hit, Hmax in Hg.
    repeat case_decide; try congruence. cbn [distance_to_gate] in *. lia.
Qed.

Lemma initial_state_max cfg query N :
  N <> 0 -> max_iterations (Graph.initial_state cfg query (Some N)) = N.
Proof. intros HN. cbn. destruct (Z.eqb_spec N 0); congruence. Qed.

(** C2.  For every ceiling [N >= 1] one run of [run_research] starts the
    pipeline at most [N] times and takes the refine back-edge at most
    [N - 1] times, whatever the model, the search and the stages do (scores,
    failures, degraded stages, exceptions); and it returns: [7 * N] node
    executions are enough for the graph to come to an end. *)
Theorem run_research_bounded_passes :
  forall (cfg : Settings) (w : World) (steps : nat) (query : string) (N : Z),
    1 <= N ->
    forall result trace,
      Graph.run_research cfg w steps query (Some N) = (result, trace) ->
      Z.of_nat (Graph.passes trace) <= N
      /\ Z.of_nat (Graph.refinements trace) <= N - 1
      /\ (7 * N <= Z.of_nat steps -> result <> Graph.Unfinished).
Proof.
  intros cfg w steps query N HN result trace Hrun.
  unfold Graph.run_research in Hrun.
  destruct (setup_failure w) as [e |].
  { injection Hrun as <- <-. cbn. repeat split; try lia. discriminate. }
  cbn zeta in Hrun. set (s0 := Graph.initial_state cfg query (Some N)) in *.
  unfold Graph.invoke in Hrun.
  destruct (Graph.run_from cfg w steps Decompose 0 s0) as [out tr] eqn:Hinv.
  assert (Hm : max_iterations s0 = N) by (apply initial_state_max; lia).
  assert (Hi : iteration s0 = 0) by reflexivity.
  pose proof (run_from_counts cfg w steps _ _ _ _ _ Hinv) as (Hr & Hp & _).
  cbn zeta in Hr. rewrite Hm, Hi in Hr.
  assert (Htr : trace = tr) by (destruct out; now injection Hrun).
  subst trace. repeat case_decide; try congruence.
  split; [lia | split; [lia |]].
  intros Hsteps Hres.
  pose proof (run_from_enough cfg w steps Decompose 0 s0) as Hen.
  rewrite Hinv in Hen. cbn [fst] in Hen.
  destruct out; [congruence | congruence |].
  apply Hen; [| reflexivity].
  unfold steps_needed. rewrite Hm, Hi. case_decide; try congruence. cbn. lia.
Qed.

Lemma run_research_bounded_passes_witness :
  1 <= 2 /\
  forall result trace,
    Graph.run_research settings offline_world 14 "impact of AI on healthcare"
      (Some 2) = (result, trace) ->
    Z.of_nat (Graph.passes trace) <= 2
    /\ Z.of_nat (Graph.refinements trace) <= 2 - 1
    /\ (7 * 2 <= Z.of_nat 14 -> result <> Graph.Unfinished).
Proof.
  split; [lia |].
  apply (run_research_bounded_passes settings offline_world 14
           "impact of AI on healthcare" 2). lia.
Defined.

(** ** One pass of the pipeline *)

Lemma run_from_edge cfg w steps n n' pass state :
  n <> BuildReport -> n <> IncrementIteration ->
  Graph.lookup_edge n Graph.edges = Some n' ->
  node_crash w pass n = None ->
  Graph.run_from cfg w (S steps) n pass state =
  let '(out, trace) :=
    Graph.run_from cfg w steps n' pass
      (merge state (Graph.node_function cfg w n pass state)) in
  (out, n :: trace).
Proof.
  intros Hb Hi Hedge Hcrash. rewrite run_from_S, run_node_no_crash by assumption.
  assert (Hs : forall st, Graph.successor cfg n st = Some (Graph.To n')).
  { intros st. destruct n; try congruence; cbn [Graph.successor];
      rewrite Hedge; reflexivity. }
  rewrite Hs. cbn zeta. case_decide; [congruence | reflexivity].
Qed.

(** A pass in which no node raises runs the six stages and then asks the
    gate. *)
Lemma run_from_pass cfg w steps pass state :
  (forall n, node_crash w pass n = None) ->
  Graph.run_from cfg w (6 + steps) Decompose pass state =
  let s6 := pipeline_pass cfg w pass state in
  if String.eqb (Graph.quality_gate cfg s6) "accept"
  then (Graph.Finished s6, stage_order)
  else let '(out, trace) := Graph.run_from cfg w steps IncrementIteration pass s6 in
       (out, (stage_order ++ trace)%list).
Proof.
  intros Hcrash.
  change (6 + steps)%nat with (S (S (S (S (S (S steps)))))).
  do 5 (erewrite run_from_edge; [| discriminate | discriminate | reflexivity | apply Hcrash]).
  rewrite run_from_S, run_node_no_crash by apply Hcrash.
  unfold pipeline_pass, stage_order. cbn [fold_left]. cbn zeta.
  set (s6 := merge _ (Graph.node_function cfg w BuildReport pass _)).
  cbn [Graph.successor].
  destruct (quality_gate_values cfg s6) as [Hg | Hg]; rewrite Hg; cbn.
  - reflexivity.
  - case_decide; [congruence |].
    destruct (Graph.run_from cfg w steps IncrementIteration pass s6); reflexivity.
Qed.

Lemma pipeline_pass_iteration cfg w pass state :
  iteration (pipeline_pass cfg w pass state) = iteration state.
Proof.
  unfold pipeline_pass, stage_order. cbn [fold_left].
  repeat (rewrite node_iteration; case_decide; [congruence |]). reflexivity.
Qed.


Lemma pipeline_pass_score cfg w pass state :
  quality_score (pipeline_pass cfg w pass state) = pass_score w pass.
Proof.
  unfold pipeline_pass, stage_order. cbn [fold_left].
  set (s5 := merge _ (Graph.node_function cfg w GenerateInsights pass _)).
  cbn -[s5]. unfold Graph.build_report, ReportAgent.run, pass_score.
  destruct (llm_report w pass); reflexivity.
Qed.

Lemma passes_app t1 t2 :
  Graph.passes (t1 ++ t2) = (Graph.passes t1 + Graph.passes t2)%nat.
Proof. unfold Graph.passes. now rewrite filter_app, length_app. Qed.

Lemma refinements_app t1 t2 :
  Graph.refinements (t1 ++ t2) = (Graph.refinements t1 + Graph.refinements t2)%nat.
Proof. unfold Graph.refinements. now rewrite filter_app, length_app. Qed.

Lemma run_from_increment cfg w steps pass state :
  node_crash w pass IncrementIteration = None ->
  Graph.run_from cfg w (S steps) IncrementIteration pass state =
  let '(out, trace) :=
    Graph.run_from cfg w steps Decompose (S pass)
      (merge state (Graph.increment_iteration state)) in
  (out, IncrementIteration :: trace).
Proof.
  intros Hcrash. rewrite run_from_S, run_node_no_crash by assumption.
  cbn [Graph.successor]. change (Graph.lookup_edge IncrementIteration Graph.edges)
    with (Some Decompose). cbn [fmap option_fmap option_map]. cbn zeta.
  case_decide; [reflexivity | congruence].
Qed.

(** ** Scores that stay below the threshold *)


(** ** The step limit of the graph library *)









(** ** The iteration counter *)

(** C4.  The counter is 0 in the state a run is created with; a node adds
    exactly 1 to it when it is [increment_iteration] and leaves it alone
    otherwise; that node is entered exactly when the gate, asked after
    [build_report], answers "refine"; and the state a run returns (for a
    ceiling that is not negative) satisfies [iteration <= max_iterations]:
    it is the number of refinements made, or the initial 0 after an
    exception. *)
Theorem iteration_counter :
  forall (cfg : Settings) (w : World) (steps : nat) (query : string)
         (max_iter : option Z) (s : ResearchState) (trace : list node),
    0 <= max_iterations (Graph.initial_state cfg query max_iter) ->
    Graph.run_research cfg w steps query max_iter = (Graph.Returned s, trace) ->
    iteration (Graph.initial_state cfg query max_iter) = 0
    /\ (forall n pass st,
          iteration (merge st (Graph.node_function cfg w n pass st))
          = if decide (n = IncrementIteration) then iteration st + 1
            else iteration st)
    /\ (forall n st,
          Graph.successor cfg n st = Some (Graph.To IncrementIteration)
          <-> n = BuildReport /\ Graph.quality_gate cfg st = "refine")
    /\ (iteration s = Z.of_nat (Graph.refinements trace)
        \/ exists e, s = Graph.pipeline_error
                           (Graph.initial_state cfg query max_iter) e)
    /\ iteration s <= max_iterations s.
Proof.
  intros cfg w steps query max_iter s trace Hmax Hrun.
  split; [reflexivity |]. split; [intros; apply node_iteration |].
  split.
  { intros n st. split; [apply successor_increment |].
    intros [-> Hg]. cbn. now rewrite Hg. }
  unfold Graph.run_research, Graph.invoke in Hrun.
  destruct (setup_failure w); [discriminate |]. cbn zeta in Hrun.
  set (s0 := Graph.initial_state cfg query max_iter) in *.
  destruct (Graph.run_from cfg w steps Decompose 0 s0) as [out tr] eqn:Hinv.
  pose proof (run_from_counts cfg w steps _ _ _ _ _ Hinv) as (Hr & _ & Hf).
  cbn zeta in Hr. change (iteration s0) with 0 in Hr.
  destruct out as [s' | e partial |]; [| | discriminate].
  - injection Hrun as <- <-. destruct (Hf s' eq_refl) as [Hi Hm].
    change (iteration s0) with 0 in Hi. rewrite Hi, Hm.
    split; [left; lia |]. repeat case_decide; try congruence; lia.
  - injection Hrun as <- <-. split; [right; now exists e |]. exact Hmax.
Qed.

Lemma iteration_counter_witness :
  0 <= max_iterations (Graph.initial_state settings "q" (Some 3))
  /\ iteration offline_final = Z.of_nat (Graph.refinements (snd offline_run))
  /\ iteration offline_final <= max_iterations offline_final.
Proof.
  assert (H0 : 0 <= max_iterations (Graph.initial_state settings "q" (Some 3)))
    by (vm_compute; discriminate).
  assert (Hrun : Graph.run_research settings offline_world 21 "q" (Some 3)
                 = (Graph.Returned offline_final, snd offline_run))
    by (vm_compute; reflexivity).
  destruct (iteration_counter settings offline_world 21 "q" (Some 3)
              offline_final (snd offline_run) H0 Hrun) as (_ & _ & _ & _ & Hle).
  split; [exact H0 |]. split; [vm_compute; reflexivity | exact Hle].
Defined.

(** ** The retriever: deduplication by url *)

Lemma with_source_type_url t s : url (RetrieverAgent.with_source_type t s) = url s.
Proof. reflexivity. Qed.

Lemma alter_source_type_urls t (srcs : list SourceDocument) :
  forall i : nat,
    map url (alter (RetrieverAgent.with_source_type t) i srcs) = map url srcs.
Proof.
  induction srcs as [| s srcs IHs]; intros [| i]; cbn; f_equal; auto.
Qed.

Lemma apply_categories_urls items :
  forall srcs, map url (RetrieverAgent.apply_categories items srcs) = map url srcs.
Proof.
  induction items as [| item items IH]; intros srcs; cbn; [reflexivity |].
  rewrite IH. case_match; [apply alter_source_type_urls | reflexivity].
Qed.

Lemma categorize_urls w pass srcs :
  map url (RetrieverAgent._categorize_sources w pass srcs) = map url srcs.
Proof.
  unfold RetrieverAgent._categorize_sources. case_match.
  - apply apply_categories_urls.
  - rewrite map_map. reflexivity.
Qed.

(** What the inner loop adds is new, pairwise distinct, and recorded. *)
Lemma keep_new_spec results :
  forall (existing_urls : gset string) all_sources,
    exists added,
      RetrieverAgent.keep_new results existing_urls all_sources
      = (list_to_set (map url added) ∪ existing_urls, all_sources ++ added)
      /\ NoDup (map url added)
      /\ (forall u, u ∈ map url added -> u ∉ existing_urls).
Proof.
  induction results as [| src rest IH]; intros eu al; cbn.
  - exists []. cbn. rewrite app_nil_r. split; [f_equal; set_solver |].
    split; [constructor | intros u Hu; inversion Hu].
  - case_decide as Hin.
    + apply IH.
    + destruct (IH ({[url src]} ∪ eu) (al ++ [src])) as (added & Hk & Hnd & Hnew).
      exists (src :: added). rewrite Hk. cbn. split.
      * f_equal; [set_solver | now rewrite <- app_assoc].
      * split.
        -- constructor; [| exact Hnd]. intros Hu. apply Hnew in Hu. set_solver.
        -- intros u Hu. apply elem_of_cons in Hu as [-> | Hu]; [exact Hin |].
           apply Hnew in Hu. set_solver.
Qed.

Lemma search_all_spec w pass sub_queries :
  forall i (existing_urls : gset string) all_sources,
    exists added,
      RetrieverAgent.search_all w pass i sub_queries existing_urls all_sources
      = (list_to_set (map url added) ∪ existing_urls, all_sources ++ added)
      /\ NoDup (map url added)
      /\ (forall u, u ∈ map url added -> u ∉ existing_urls).
Proof.
  induction sub_queries as [| query rest IH]; intros i eu al; cbn.
  - exists []. cbn. rewrite app_nil_r. split; [f_equal; set_solver |].
    split; [constructor | intros u Hu; inversion Hu].
  - destruct (RetrieverAgent._search w pass i query) as [results | e].
    2:{ apply IH. }
    destruct (keep_new_spec results eu al) as (a1 & -> & Hnd1 & Hnew1).
    destruct (IH (S i) (list_to_set (map url a1) ∪ eu) (al ++ a1))
      as (a2 & -> & Hnd2 & Hnew2).
    exists (a1 ++ a2). rewrite map_app. split; [| split].
    + f_equal; [| now rewrite app_assoc].
      rewrite list_to_set_app_L. set_solver.
    + apply NoDup_app. split; [exact Hnd1 |]. split; [| exact Hnd2].
      intros u Hu1 Hu2. apply Hnew2 in Hu2. apply Hu2.
      apply elem_of_union_l. now apply elem_of_list_to_set.
    + intros u Hu. apply elem_of_app in Hu as [Hu | Hu].
      * now apply Hnew1.
      * apply Hnew2 in Hu. set_solver.
Qed.

Lemma new_sources_spec w pass state :
  NoDup (map url (RetrieverAgent.new_sources w pass state))
  /\ (forall u, u ∈ map url (RetrieverAgent.new_sources w pass state) ->
                u ∉ map url (sources state)).
Proof.
  unfold RetrieverAgent.new_sources.
  destruct (search_all_spec w pass (sub_queries state) 0
              (list_to_set (map url (sources state))) [])
    as (added & -> & Hnd & Hnew).
  cbn [snd app].
  assert (Hu : map url (match added with
                        | [] => added
                        | _ => RetrieverAgent._categorize_sources w pass added
                        end) = map url added).
  { destruct added; [reflexivity | apply categorize_urls]. }
  rewrite Hu. split; [exact Hnd |].
  intros u Hin Hold. apply (Hnew u Hin). now apply elem_of_list_to_set.
Qed.

(** ** The sources key *)

(** Only the retriever writes [sources], and it writes the old list with
    the new sources after it. *)
Lemma node_sources cfg w n pass state :
  sources (merge state (Graph.node_function cfg w n pass state))
  = if decide (n = Retrieve)
    then sources state ++ RetrieverAgent.new_sources w pass state
    else sources state.
Proof.
  case_decide as Hn.
  - subst n. reflexivity.
  - destruct n; try congruence; cbn;
      unfold Graph.decompose, Graph.analyze, Graph.fact_checking,
        Graph.generate_insights, Graph.build_report, DecomposerAgent.run,
        AnalysisAgent.run, FactCheckerAgent.run, InsightAgent.run, ReportAgent.run;
      repeat case_match; reflexivity.
Qed.

Lemma node_sources_prefix cfg w n pass state :
  sources state `prefix_of` sources (merge state (Graph.node_function cfg w n pass state)).
Proof.
  rewrite node_sources. case_decide; [apply prefix_app_r |]; reflexivity.
Qed.

Lemma node_sources_nodup cfg w n pass state :
  NoDup (map url (sources state)) ->
  NoDup (map url (sources (merge state (Graph.node_function cfg w n pass state)))).
Proof.
  intros Hnd. rewrite node_sources. case_decide; [| exact Hnd].
  destruct (new_sources_spec w pass state) as [Hnew Hdisj].
  rewrite map_app. apply NoDup_app. split; [exact Hnd |]. split; [| exact Hnew].
  intros u Hold Hin. exact (Hdisj u Hin Hold).
Qed.

Lemma pipeline_pass_prefix cfg w pass state :
  sources state `prefix_of` sources (pipeline_pass cfg w pass state).
Proof.
  unfold pipeline_pass. generalize stage_order as l. intros l. revert state.
  induction l as [| n l IH]; intros state; cbn [fold_left]; [reflexivity |].
  etransitivity; [apply (node_sources_prefix cfg w n pass) | apply IH].
Qed.

Lemma pipeline_pass_nodup cfg w pass state :
  NoDup (map url (sources state)) ->
  NoDup (map url (sources (pipeline_pass cfg w pass state))).
Proof.
  unfold pipeline_pass. generalize stage_order as l. intros l. revert state.
  induction l as [| n l IH]; intros state Hnd; cbn [fold_left]; [exact Hnd |].
  apply IH. now apply node_sources_nodup.
Qed.

Lemma run_from_sources cfg w steps :
  forall n pass state s trace,
    Graph.run_from cfg w steps n pass state = (Graph.Finished s, trace) ->
    sources state `prefix_of` sources s
    /\ (NoDup (map url (sources state)) -> NoDup (map url (sources s))).
Proof.
  induction steps as [| steps IH]; intros n pass state s trace Hrun;
    [discriminate |].
  rewrite run_from_S in Hrun.
  destruct (Graph.run_node cfg w n pass state) as [state' | e] eqn:Hnode;
    [| discriminate].
  apply run_node_inv in Hnode.
  assert (Hp : sources state `prefix_of` sources state')
    by (subst state'; apply node_sources_prefix).
  assert (Hd : NoDup (map url (sources state)) -> NoDup (map url (sources state')))
    by (subst state'; apply node_sources_nodup).
  destruct (Graph.successor cfg n state') as [[n' |] |]; [| | discriminate].
  - cbn zeta in Hrun.
    destruct (Graph.run_from cfg w steps n' _ state') as [out tr] eqn:Hrest.
    injection Hrun as -> <-. destruct (IH _ _ _ _ _ Hrest) as [IHp IHd].
    split; [etransitivity; eassumption | auto].
  - injection Hrun as <- <-. auto.
Qed.

(** C5.  The retriever's update sets [sources] to the existing list with
    the new sources appended after it, and no other node writes the key; so
    from one pass to the next the list only grows at its end: the sources
    after pass [k] are a prefix of (in particular no longer than) the
    sources after pass [k + 1]. *)
Theorem sources_accumulate :
  forall (cfg : Settings) (w : World),
    (forall pass state,
        u_sources (RetrieverAgent.run w pass state)
        = Some (sources state ++ RetrieverAgent.new_sources w pass state))
    /\ (forall n pass state,
          sources state
            `prefix_of` sources (merge state (Graph.node_function cfg w n pass state)))
    /\ (forall k initial,
          sources (state_after_pass cfg w k initial)
            `prefix_of` sources (state_after_pass cfg w (S k) initial)
          /\ (length (sources (state_after_pass cfg w k initial))
              <= length (sources (state_after_pass cfg w (S k) initial)))%nat)
    /\ (forall steps n pass state s trace,
          Graph.run_from cfg w steps n pass state = (Graph.Finished s, trace) ->
          sources state `prefix_of` sources s).
Proof.
  intros cfg w. split; [reflexivity |].
  split; [apply node_sources_prefix |]. split.
  - intros k initial.
    assert (Hp : sources (state_after_pass cfg w k initial)
                   `prefix_of` sources (state_after_pass cfg w (S k) initial)).
    { cbn [state_after_pass]. cbn zeta.
      etransitivity; [| apply pipeline_pass_prefix]. reflexivity. }
    split; [exact Hp | now apply prefix_length].
  - intros steps n pass state s trace Hrun.
    now destruct (run_from_sources cfg w steps _ _ _ _ _ Hrun).
Qed.

Lemma state_after_pass_nodup cfg w k initial :
  NoDup (map url (sources initial)) ->
  NoDup (map url (sources (state_after_pass cfg w k initial))).
Proof.
  intros Hnd. induction k as [| k IH]; cbn [state_after_pass].
  - now apply pipeline_pass_nodup.
  - cbn zeta. apply pipeline_pass_nodup. exact IH.
Qed.

(** C6.  The sources the retriever appends have pairwise distinct urls,
    none of which is the url of a source already in the state; hence, from
    the empty list a run starts with, the urls of the accumulated sources
    are pairwise distinct after every pass and in the state the run
    returns. *)
Theorem sources_deduplicated :
  forall (cfg : Settings) (w : World),
    (forall pass state,
        let new := RetrieverAgent.new_sources w pass state in
        u_sources (RetrieverAgent.run w pass state) = Some (sources state ++ new)
        /\ NoDup (map url new)
        /\ (forall src, src ∈ new -> url src ∉ map url (sources state)))
    /\ (forall k query max_iter,
          NoDup (map url (sources (state_after_pass cfg w k
                                     (Graph.initial_state cfg query max_iter)))))
    /\ (forall steps query max_iter s trace,
          Graph.run_research cfg w steps query max_iter = (Graph.Returned s, trace) ->
          NoDup (map url (sources s))).
Proof.
  intros cfg w. split; [| split].
  - intros pass state new. split; [reflexivity |].
    destruct (new_sources_spec w pass state) as [Hnd Hdisj].
    split; [exact Hnd |]. intros src Hsrc. apply Hdisj.
    apply list_elem_of_fmap. now exists src.
  - intros k query max_iter. apply state_after_pass_nodup. constructor.
  - intros steps query max_iter s trace Hrun.
    unfold Graph.run_research, Graph.invoke in Hrun.
    destruct (setup_failure w); [discriminate |]. cbn zeta in Hrun.
    destruct (Graph.run_from cfg w steps Decompose 0 _) as [out tr] eqn:Hinv.
    destruct out as [s' | e partial |]; [| | discriminate].
    + injection Hrun as <- <-.
      destruct (run_from_sources cfg w steps _ _ _ _ _ Hinv) as [_ Hd].
      apply Hd. constructor.
    + injection Hrun as <- <-. constructor.
Qed.

(** ** The decomposer *)

Lemma slice_to_firstn {A} (l : list A) (n : Z) :
  0 <= n -> slice_to l n = firstn (Z.to_nat n) l.
Proof. intros Hn. unfold slice_to. destruct (Z.leb_spec 0 n); [reflexivity | lia]. Qed.

(** C10.  For a configured [MAX_SUB_QUERIES >= 1] (5 in the source) the
    decomposer's update always carries a [sub_queries] list that is not
    empty and has at most [MAX_SUB_QUERIES] entries: when the model answers,
    its list (the original query alone when the key is missing) cut to the
    first [MAX_SUB_QUERIES] entries, or the original query alone when that
    is empty; when the call fails, the original query alone. *)
Theorem decomposer_sub_queries_bounded :
  forall (cfg : Settings) (w : World) (pass : nat) (state : ResearchState),
    1 <= MAX_SUB_QUERIES cfg ->
    exists sq,
      u_sub_queries (DecomposerAgent.run cfg w pass state) = Some sq
      /\ sq <> []
      /\ len sq <= MAX_SUB_QUERIES cfg
      /\ (forall reply, llm_decompose w pass = Ok reply ->
            let cut := firstn (Z.to_nat (MAX_SUB_QUERIES cfg))
                              (default [original_query state] reply) in
            sq = match cut with [] => [original_query state] | _ => cut end)
      /\ (forall e, llm_decompose w pass = Raise e -> sq = [original_query state]).
Proof.
  intros cfg w pass state Hmax. unfold DecomposerAgent.run.
  destruct (llm_decompose w pass) as [reply | e].
  - set (l := default [original_query state] reply).
    set (cut := if len l >? MAX_SUB_QUERIES cfg
                then slice_to l (MAX_SUB_QUERIES cfg) else l).
    assert (Hcut : cut = firstn (Z.to_nat (MAX_SUB_QUERIES cfg)) l).
    { subst cut. unfold len. destruct (Z.gtb_spec (Z.of_nat (length l)) (MAX_SUB_QUERIES cfg)).
      - apply slice_to_firstn. lia.
      - symmetry. apply firstn_all2. lia. }
    exists (match cut with [] => [original_query state] | _ => cut end).
    split; [reflexivity |]. split; [| split; [| split]].
    + destruct cut; discriminate.
    + assert (Hlen : len cut <= MAX_SUB_QUERIES cfg).
      { rewrite Hcut. unfold len. rewrite length_firstn. lia. }
      destruct cut; [unfold len; cbn; lia | exact Hlen].
    + intros reply' [= <-]. cbn zeta. fold l. now rewrite <- Hcut.
    + discriminate.
  - exists [original_query state]. split; [reflexivity |].
    split; [discriminate |]. split; [unfold len; cbn; lia |].
    split; [discriminate | reflexivity].
Qed.

Lemma decomposer_sub_queries_bounded_witness :
  1 <= MAX_SUB_QUERIES settings
  /\ exists sq,
      u_sub_queries (DecomposerAgent.run settings offline_world 0
                       (Graph.initial_state settings "q" None)) = Some sq
      /\ sq <> []
      /\ len sq <= MAX_SUB_QUERIES settings.
Proof.
  assert (H : 1 <= MAX_SUB_QUERIES settings) by (vm_compute; discriminate).
  split; [exact H |].
  destruct (decomposer_sub_queries_bounded settings offline_world 0
              (Graph.initial_state settings "q" None) H)
    as (sq & Hsq & Hne & Hlen & _).
  exists sq. auto.
Defined.

(** ** Degraded stages *)







(** ** What [run_research] gives back *)


Lemma run_from_no_crash cfg w steps :
  (forall p n, node_crash w p n = None) ->
  forall n pass state e partial trace,
    Graph.run_from cfg w steps n pass state <> (Graph.Crashed e partial, trace).
Proof.
  intros Hcrash. induction steps as [| steps IH]; intros n pass state e partial trace;
    [discriminate |].
  rewrite run_from_S, run_node_no_crash by apply Hcrash.
  destruct (successor_total cfg n
              (merge state (Graph.node_function cfg w n pass state))) as [t ->].
  destruct t as [n' |]; [| discriminate]. cbn zeta.
  destruct (Graph.run_from cfg w steps n' _ _) as [out tr] eqn:Hrest.
  intros [= -> <-]. eapply IH, Hrest.
Qed.

(** A finished run ends after [build_report], which has written a report. *)
Lemma run_from_finished_report cfg w steps :
  forall n pass state s trace,
    Graph.run_from cfg w steps n pass state = (Graph.Finished s, trace) ->
    exists last, s = merge last (Graph.build_report w (Graph.refinements trace + pass) last).
Proof.
  induction steps as [| steps IH]; intros n pass state s trace Hrun; [discriminate |].
  rewrite run_from_S in Hrun.
  destruct (Graph.run_node cfg w n pass state) as [state' | e] eqn:Hnode;
    [| discriminate].
  apply run_node_inv in Hnode.
  destruct (Graph.successor cfg n state') as [[n' |] |] eqn:Hsucc; [| | discriminate].
  - cbn zeta in Hrun.
    destruct (Graph.run_from cfg w steps n' _ state') as [out tr] eqn:Hrest.
    injection Hrun as -> <-. destruct (IH _ _ _ _ _ Hrest) as [last ->].
    exists last. rewrite refinements_cons. f_equal. f_equal.
    case_decide; lia.
  - injection Hrun as <- <-. exists state.
    destruct n; cbn in Hsucc; try discriminate. exact Hnode.
Qed.




(** ** JSON extraction *)

Lemma from_first_head c s m :
  LLMClient.from_first c s = Some m -> exists r, m = c :: r.
Proof.
  induction s as [| x s IH]; cbn; [discriminate |].
  destruct (Ascii.eqb_spec x c) as [-> | _]; [| exact IH].
  intros [= <-]. eauto.
Qed.

Lemma search_span_head o c s m :
  LLMClient.search_span o c s = Some m -> exists body, m = o :: body.
Proof.
  unfold LLMClient.search_span.
  destruct (LLMClient.from_first o s) as [[| x rest] |] eqn:Hf; try discriminate.
  destruct (from_first_head _ _ _ Hf) as [r [= -> _]].
  destruct (LLMClient.through_last c rest); [| discriminate].
  intros [= <-]. eauto.
Qed.

(** C8, as stated, fails on a bare scalar: the reply [42] holds no JSON
    object or array, directly, without fences or between braces or
    brackets, and yet [_parse_json] raises nothing: it returns
    [{"items": 42}]. *)
Lemma parse_json_wraps_scalar :
  LLMClient.spec_recoverable JsonRef.json_loads "42" = false
  /\ LLMClient._parse_json JsonRef.json_loads "42" = Ok (JObj [("items", JInt 42)]).
Proof. split; vm_compute; reflexivity. Qed.

Section ParseJsonFacts.

Variable json_loads : string -> LLMClient.decoded.


(** The first candidate that does not end in [JSONDecodeError]. *)
Lemma decisive_fails cs :
  Forall (LLMClient.fails json_loads) cs ->
  LLMClient.decisive json_loads cs = LLMClient.JSONDecodeError.
Proof.
  induction 1 as [| c cs Hc _ IH]; cbn; [reflexivity |].
  unfold LLMClient.fails in Hc. now rewrite Hc.
Qed.

Lemma decisive_at pre c post :
  Forall (LLMClient.fails json_loads) pre ->
  LLMClient.loads json_loads c <> LLMClient.JSONDecodeError ->
  LLMClient.decisive json_loads (pre ++ c :: post) = LLMClient.loads json_loads c.
Proof.
  induction 1 as [| x pre Hx _ IH]; intros Hc; cbn.
  - destruct (LLMClient.loads json_loads c); congruence.
  - unfold LLMClient.fails in Hx. rewrite Hx. now apply IH.
Qed.

Lemma decisive_inv cs :
  Forall (LLMClient.fails json_loads) cs
  \/ exists pre c post,
       cs = pre ++ c :: post /\ Forall (LLMClient.fails json_loads) pre
       /\ LLMClient.loads json_loads c = LLMClient.decisive json_loads cs
       /\ LLMClient.loads json_loads c <> LLMClient.JSONDecodeError.
Proof.
  induction cs as [| x cs IH]; [left; constructor |].
  destruct (LLMClient.loads json_loads x) eqn:Hx.
  - right. exists [], x, cs. cbn. rewrite Hx.
    split; [reflexivity |]. split; [constructor |]. split; [reflexivity | discriminate].
  - destruct IH as [IH | (pre & c & post & -> & Hpre & Hc & Hne)].
    + left. now constructor.
    + right. exists (x :: pre), c, post. cbn. rewrite Hx.
      split; [reflexivity |]. split; [now constructor |]. split; assumption.
  - right. exists [], x, cs. cbn. rewrite Hx.
    split; [reflexivity |]. split; [constructor |]. split; [reflexivity | discriminate].
Qed.

(** [_parse_json] goes by the first decisive candidate. *)
Lemma parse_json_decisive (text : string) :
  match LLMClient.decisive json_loads (LLMClient.candidates text) with
  | LLMClient.Decoded _ => exists d, LLMClient._parse_json json_loads text = Ok d
  | LLMClient.OtherError e => LLMClient._parse_json json_loads text = Raise e
  | LLMClient.JSONDecodeError =>
      LLMClient._parse_json json_loads text
      = Raise (LLMClient.value_error (LLMClient.stripped text))
  end.
Proof.
  unfold LLMClient._parse_json, LLMClient.candidates, LLMClient.load_span.
  fold (LLMClient.cleaned text).
  destruct (LLMClient.loads json_loads (LLMClient.stripped text)) eqn:H1;
    destruct (LLMClient.loads json_loads (LLMClient.cleaned text)) eqn:H2;
    destruct (LLMClient.search_span "{" "}" (LLMClient.cleaned text)) as [m1 |];
    try destruct (LLMClient.loads json_loads m1) eqn:H3;
    destruct (LLMClient.search_span "[" "]" (LLMClient.cleaned text)) as [m2 |];
    try destruct (LLMClient.loads json_loads m2) eqn:H4;
    repeat (progress (cbn [option_list option_rect app LLMClient.decisive];
                      rewrite ?H1, ?H2, ?H3, ?H4));
    eauto.
Qed.

(** A text that starts with an opening brace decodes, if at all, to an
    object. *)
Hypothesis loads_object :
  forall s v, json_loads (String "{" s) = LLMClient.Decoded v -> is_dict v = true.

Lemma load_span_object s v :
  LLMClient.load_span json_loads "{" "}" s = LLMClient.Decoded v -> is_dict v = true.
Proof.
  unfold LLMClient.load_span.
  destruct (LLMClient.search_span "{" "}" s) as [m |] eqn:Hm; [| discriminate].
  destruct (search_span_head _ _ _ _ Hm) as [body ->].
  unfold LLMClient.loads. cbn [string_of_list_ascii]. apply loads_object.
Qed.

Lemma dict_or_items_dict v : is_dict (LLMClient.dict_or_items v) = true.
Proof. unfold LLMClient.dict_or_items. destruct (is_dict v) eqn:E; [exact E | reflexivity]. Qed.

Lemma parse_json_facts (text : string) :
  (forall d, LLMClient._parse_json json_loads text = Ok d -> is_dict d = true)
  /\ (Forall (LLMClient.fails json_loads) (LLMClient.candidates text) ->
      LLMClient._parse_json json_loads text
      = Raise (LLMClient.value_error (LLMClient.stripped text)))
  /\ (forall pre c post e,
        LLMClient.candidates text = pre ++ c :: post ->
        Forall (LLMClient.fails json_loads) pre ->
        LLMClient.loads json_loads c = LLMClient.OtherError e ->
        LLMClient._parse_json json_loads text = Raise e)
  /\ (forall pre c post v,
        LLMClient.candidates text = pre ++ c :: post ->
        Forall (LLMClient.fails json_loads) pre ->
        LLMClient.loads json_loads c = LLMClient.Decoded v ->
        exists d, LLMClient._parse_json json_loads text = Ok d)
  /\ (forall e,
        LLMClient._parse_json json_loads text = Raise e ->
        (Forall (LLMClient.fails json_loads) (LLMClient.candidates text)
         /\ e = LLMClient.value_error (LLMClient.stripped text))
        \/ exists pre c post,
             LLMClient.candidates text = pre ++ c :: post
             /\ Forall (LLMClient.fails json_loads) pre
             /\ LLMClient.loads json_loads c = LLMClient.OtherError e)
  /\ (forall v, LLMClient.loads json_loads (LLMClient.stripped text) = LLMClient.Decoded v ->
        LLMClient._parse_json json_loads text = Ok (LLMClient.dict_or_items v))
  /\ (forall v, LLMClient.fails json_loads (LLMClient.stripped text) ->
        LLMClient.loads json_loads (LLMClient.cleaned text) = LLMClient.Decoded v ->
        LLMClient._parse_json json_loads text = Ok (LLMClient.dict_or_items v))
  /\ (forall m v, LLMClient.fails json_loads (LLMClient.stripped text) ->
        LLMClient.fails json_loads (LLMClient.cleaned text) ->
        LLMClient.search_span "{" "}" (LLMClient.cleaned text) = Some m ->
        LLMClient.loads json_loads m = LLMClient.Decoded v ->
        LLMClient._parse_json json_loads text = Ok v)
  /\ (forall m v, LLMClient.fails json_loads (LLMClient.stripped text) ->
        LLMClient.fails json_loads (LLMClient.cleaned text) ->
        LLMClient.load_span json_loads "{" "}" (LLMClient.cleaned text)
        = LLMClient.JSONDecodeError ->
        LLMClient.search_span "[" "]" (LLMClient.cleaned text) = Some m ->
        LLMClient.loads json_loads m = LLMClient.Decoded v ->
        LLMClient._parse_json json_loads text = Ok (JObj [("items", v)])).
Proof.
  pose proof (parse_json_decisive text) as Hdec.
  split; [| split; [| split; [| split; [| split; [| split; [| split; [| split]]]]]]].
  - intros d. unfold LLMClient._parse_json.
    destruct (LLMClient.loads json_loads (LLMClient.stripped text));
      [intros [= <-]; apply dict_or_items_dict | | discriminate].
    destruct (LLMClient.loads json_loads (strip (LLMClient.strip_fences 0 (LLMClient.stripped text))));
      [intros [= <-]; apply dict_or_items_dict | | discriminate].
    destruct (LLMClient.load_span json_loads "{" "}" _) eqn:H3;
      [intros [= <-]; eapply load_span_object, H3 | | discriminate].
    destruct (LLMClient.load_span json_loads "[" "]" _);
      [intros [= <-]; reflexivity | discriminate | discriminate].
  - intros HF. now rewrite (decisive_fails _ HF) in Hdec.
  - intros pre c post e Hcs Hpre Hc.
    rewrite Hcs, decisive_at, Hc in Hdec by (assumption || congruence). exact Hdec.
  - intros pre c post v Hcs Hpre Hc.
    rewrite Hcs, decisive_at, Hc in Hdec by (assumption || congruence). exact Hdec.
  - intros e He.
    destruct (decisive_inv (LLMClient.candidates text))
      as [HF | (pre & c & post & Hcs & Hpre & Hc & Hne)].
    + left. split; [exact HF |].
      rewrite (decisive_fails _ HF) in Hdec. congruence.
    + right. exists pre, c, post. split; [exact Hcs |]. split; [exact Hpre |].
      rewrite <- Hc in Hdec. destruct (LLMClient.loads json_loads c) as [v | | e'].
      * destruct Hdec as [d Hd]. congruence.
      * congruence.
      * congruence.
  - intros v Hv. unfold LLMClient._parse_json. now rewrite Hv.
  - intros v H1 H2. unfold LLMClient.fails in H1.
    unfold LLMClient._parse_json. rewrite H1.
    fold (LLMClient.cleaned text). now rewrite H2.
  - intros m v H1 H2 Hm Hv. unfold LLMClient.fails in H1, H2.
    unfold LLMClient._parse_json, LLMClient.load_span.
    rewrite H1. fold (LLMClient.cleaned text). rewrite H2, Hm, Hv. reflexivity.
  - intros m v H1 H2 H3 Hm Hv. unfold LLMClient.fails in H1, H2.
    unfold LLMClient._parse_json.
    rewrite H1. fold (LLMClient.cleaned text). rewrite H2, H3.
    unfold LLMClient.load_span. rewrite Hm, Hv. reflexivity.
Qed.

(** Whenever one of the candidates holds an object or an array, and
    [json.loads] raises nothing but [JSONDecodeError] on them,
    [_parse_json] returns. *)
Lemma parse_json_recoverable (text : string) :
  LLMClient.spec_recoverable json_loads text = true ->
  (forall c e, In c (LLMClient.candidates text) -> LLMClient.loads json_loads c <> LLMClient.OtherError e) ->
  exists d, LLMClient._parse_json json_loads text = Ok d.
Proof.
  intros Hrec Hother.
  destruct (LLMClient._parse_json json_loads text) as [d | e] eqn:Hp; [eauto |].
  exfalso. destruct parse_json_facts with (text := text)
    as (_ & _ & _ & _ & Hinv & _).
  destruct (Hinv e Hp) as [[HF _] | (pre & c & post & Hcs & _ & Hc)].
  - unfold LLMClient.spec_recoverable in Hrec. apply existsb_exists in Hrec
      as (c & Hc & Hv). rewrite Forall_forall in HF.
    specialize (HF c). unfold LLMClient.fails in HF.
    rewrite HF in Hv; [discriminate |]. now apply list_elem_of_In.
  - apply (Hother c e); [| exact Hc]. rewrite Hcs. apply in_or_app. right. now left.
Qed.

End ParseJsonFacts.

(** The reference decoder answers an object on a text that starts with an
    opening brace. *)
Lemma parse_members_dict fuel :
  forall s acc v r,
    JsonRef.parse_members fuel s acc = Some (v, r) -> is_dict v = true.
Proof.
  induction fuel as [| fuel IH]; intros s acc v r H; [discriminate |].
  cbn [JsonRef.parse_members] in H.
  repeat (case_match; try discriminate); subst.
  - eapply IH, H.
  - now injection H as <- _.
Qed.

Lemma json_loads_object s v :
  JsonRef.json_loads (String "{" s) = LLMClient.Decoded v -> is_dict v = true.
Proof.
  unfold JsonRef.json_loads. cbn [list_ascii_of_string].
  change (JsonRef.skip_ws ("{"%char :: list_ascii_of_string s))
    with ("{"%char :: list_ascii_of_string s).
  cbn [JsonRef.parse_value]. change (Ascii.eqb "{" "{") with true. cbn iota.
  intros H. repeat (case_match; try discriminate); subst;
    injection H as <-.
  - match goal with H : Some _ = Some _ |- _ => now injection H as <- _ end.
  - eapply parse_members_dict; eassumption.
Qed.

Lemma json_loads_within_object limit s v :
  JsonRef.json_loads_within limit (String "{" s) = LLMClient.Decoded v ->
  is_dict v = true.
Proof.
  unfold JsonRef.json_loads_within. case_match; [discriminate |].
  apply json_loads_object.
Qed.

(** C8 (amended).  For every input text (and any JSON decoder that answers
    an object on a text starting with an opening brace) [_parse_json]
    returns a dict whenever it returns.  Its candidates - the stripped
    text, the text without code fences, the span from the first brace to
    the last, the span from the first bracket to the last - are decoded in
    this order, and the first that does not end in [JSONDecodeError]
    decides: if it decodes, [_parse_json] returns - the value of one of
    the first two as it is when it is a dict and wrapped as
    [{"items": value}] when it is not (a top-level array, but a number,
    string, boolean or null as well), the object of the brace span as it
    is, the array of the bracket span wrapped; if it ends in another
    exception, that exception leaves [_parse_json] uncaught.  The
    [ValueError] is raised when all candidates end in [JSONDecodeError],
    and a raise is either that or an exception of the decoder; in
    particular [_parse_json] returns whenever a candidate holds an object
    or an array and the decoder raises nothing else on the candidates. *)
Theorem parse_json_recovers :
  forall (json_loads : string -> LLMClient.decoded),
    (forall s v, json_loads (String "{" s) = LLMClient.Decoded v -> is_dict v = true) ->
    forall text : string,
    let loads := LLMClient.loads json_loads in
    let fails := LLMClient.fails json_loads in
    let stripped := LLMClient.stripped text in
    let cleaned := LLMClient.cleaned text in
  (forall d, LLMClient._parse_json json_loads text = Ok d -> is_dict d = true)
  /\ (Forall fails (LLMClient.candidates text) ->
      LLMClient._parse_json json_loads text = Raise (LLMClient.value_error stripped))
  /\ (forall pre c post e,
        LLMClient.candidates text = pre ++ c :: post ->
        Forall fails pre ->
        loads c = LLMClient.OtherError e ->
        LLMClient._parse_json json_loads text = Raise e)
  /\ (forall pre c post v,
        LLMClient.candidates text = pre ++ c :: post ->
        Forall fails pre ->
        loads c = LLMClient.Decoded v ->
        exists d, LLMClient._parse_json json_loads text = Ok d)
  /\ (forall e,
        LLMClient._parse_json json_loads text = Raise e ->
        (Forall fails (LLMClient.candidates text)
         /\ e = LLMClient.value_error stripped)
        \/ exists pre c post,
             LLMClient.candidates text = pre ++ c :: post
             /\ Forall fails pre
             /\ loads c = LLMClient.OtherError e)
  /\ (forall v, loads stripped = LLMClient.Decoded v ->
        LLMClient._parse_json json_loads text = Ok (LLMClient.dict_or_items v))
  /\ (forall v, fails stripped ->
        loads cleaned = LLMClient.Decoded v ->
        LLMClient._parse_json json_loads text = Ok (LLMClient.dict_or_items v))
  /\ (forall m v, fails stripped -> fails cleaned ->
        LLMClient.search_span "{" "}" cleaned = Some m ->
        loads m = LLMClient.Decoded v ->
        LLMClient._parse_json json_loads text = Ok v)
  /\ (forall m v, fails stripped -> fails cleaned ->
        LLMClient.load_span json_loads "{" "}" cleaned = LLMClient.JSONDecodeError ->
        LLMClient.search_span "[" "]" cleaned = Some m ->
        loads m = LLMClient.Decoded v ->
        LLMClient._parse_json json_loads text = Ok (JObj [("items", v)]))
  /\ (LLMClient.spec_recoverable json_loads text = true ->
      (forall c e, In c (LLMClient.candidates text) -> loads c <> LLMClient.OtherError e) ->
      exists d, LLMClient._parse_json json_loads text = Ok d).
Proof.
  intros json_loads Hobj text loads fails stripped cleaned.
  pose proof (parse_json_facts json_loads Hobj text)
    as (H1 & H2 & H3 & H4 & H5 & H6 & H7 & H8 & H9).
  repeat (split; [assumption |]).
  now apply parse_json_recoverable.
Qed.

Lemma parse_json_recovers_witness :
  (forall d, LLMClient._parse_json JsonRef.json_loads "[1, 2]" = Ok d ->
             is_dict d = true)
  /\ LLMClient._parse_json JsonRef.json_loads "[1, 2]"
     = Ok (JObj [("items", JArr [JInt 1; JInt 2])])
  /\ LLMClient._parse_json JsonRef.json_loads "see [1, 2] above"
     = Ok (JObj [("items", JArr [JInt 1; JInt 2])])
  /\ LLMClient._parse_json JsonRef.json_loads "no json here"
     = Raise (LLMClient.value_error (LLMClient.stripped "no json here"))
  /\ LLMClient._parse_json (JsonRef.json_loads_within 2) "[[[1]]]"
     = Raise "maximum recursion depth exceeded while decoding a JSON array from a unicode string".
Proof.
  destruct (parse_json_recovers JsonRef.json_loads json_loads_object "[1, 2]")
    as (Hd & _ & _ & _ & _ & Hdirect & _).
  destruct (parse_json_recovers JsonRef.json_loads json_loads_object
              "see [1, 2] above")
    as (_ & _ & _ & _ & _ & _ & _ & _ & Hbracket & _).
  destruct (parse_json_recovers JsonRef.json_loads json_loads_object "no json here")
    as (_ & Hraise & _).
  destruct (parse_json_recovers (JsonRef.json_loads_within 2)
              (json_loads_within_object 2) "[[[1]]]")
    as (_ & _ & Hescape & _).
  split; [exact Hd |].
  split; [apply (Hdirect (JArr [JInt 1; JInt 2])); vm_compute; reflexivity |].
  split; [apply (Hbracket (list_ascii_of_string "[1, 2]") (JArr [JInt 1; JInt 2]));
          vm_compute; reflexivity |].
  split.
  { apply Hraise.
    change (LLMClient.candidates "no json here")
      with [list_ascii_of_string "no json here"; list_ascii_of_string "no json here"].
    repeat constructor; vm_compute; reflexivity. }
  apply (Hescape [] (list_ascii_of_string "[[[1]]]")
           [list_ascii_of_string "[[[1]]]"; list_ascii_of_string "[[[1]]]"]).
  - vm_compute. reflexivity.
  - constructor.
  - vm_compute. reflexivity.
Defined.

(** * Further properties of the engine *)

(** ** Acceptance before the ceiling *)

Lemma run_until_accepted cfg w :
  (forall p n, node_crash w p n = None) ->
  forall (k steps pass : nat) (state : ResearchState),
    (forall j, (j < k)%nat ->
       (pass_score w (pass + j) < QUALITY_THRESHOLD cfg)%Q) ->
    (QUALITY_THRESHOLD cfg <= pass_score w (pass + k))%Q ->
    iteration state + Z.of_nat k < max_iterations state ->
    (6 + 7 * k <= steps)%nat ->
    exists s trace,
      Graph.run_from cfg w steps Decompose pass state = (Graph.Finished s, trace)
      /\ Graph.passes trace = S k
      /\ Graph.refinements trace = k
      /\ iteration s = iteration state + Z.of_nat k
      /\ quality_score s = pass_score w (pass + k).
Proof.
  intros Hcrash. induction k as [| k IH];
    intros steps pass state Hlow Hhigh Hit Hsteps.
  - replace steps with (6 + (steps - 6))%nat by lia.
    rewrite run_from_pass by (intros n; apply Hcrash). cbn zeta.
    set (s6 := pipeline_pass cfg w pass state).
    assert (Hsc : quality_score s6 = pass_score w pass)
      by (subst s6; apply pipeline_pass_score).
    assert (Hg : Graph.quality_gate cfg s6 = "accept").
    { apply quality_gate_passed. rewrite Hsc.
      now replace (pass + 0)%nat with pass in Hhigh by lia. }
    rewrite Hg. cbn [String.eqb Ascii.eqb Bool.eqb].
    exists s6, stage_order.
    split; [reflexivity |]. split; [reflexivity |]. split; [reflexivity |].
    split.
    + subst s6. rewrite pipeline_pass_iteration. lia.
    + rewrite Hsc. f_equal. lia.
  - replace steps with (6 + S (steps - 7))%nat by lia.
    rewrite run_from_pass by (intros n; apply Hcrash). cbn zeta.
    set (s6 := pipeline_pass cfg w pass state).
    assert (Hs6i : iteration s6 = iteration state)
      by (subst s6; apply pipeline_pass_iteration).
    assert (Hs6m : max_iterations s6 = max_iterations state) by reflexivity.
    assert (Hg : Graph.quality_gate cfg s6 = "refine").
    { apply quality_gate_below.
      - subst s6. rewrite pipeline_pass_score.
        specialize (Hlow 0%nat). replace (pass + 0)%nat with pass in Hlow by lia.
        apply Hlow. lia.
      - lia. }
    rewrite Hg. cbn [String.eqb Ascii.eqb Bool.eqb].
    rewrite run_from_increment by apply Hcrash.
    set (s7 := merge s6 (Graph.increment_iteration s6)).
    assert (Hs7i : iteration s7 = iteration state + 1)
      by (change (iteration s7) with (iteration s6 + 1); lia).
    assert (Hs7m : max_iterations s7 = max_iterations state) by reflexivity.
    destruct (IH (steps - 7)%nat (S pass) s7) as (s & tr & Hrun & Hp & Hr & Hi & Hq).
    { intros j Hj. replace (S pass + j)%nat with (pass + S j)%nat by lia.
      apply Hlow. lia. }
    { now replace (S pass + k)%nat with (pass + S k)%nat by lia. }
    { lia. }
    { lia. }
    rewrite Hrun. cbn zeta. cbn iota.
    exists s, (stage_order ++ IncrementIteration :: tr).
    split; [reflexivity |].
    rewrite passes_app, refinements_app, passes_cons, refinements_cons, Hp, Hr.
    split; [reflexivity |]. split; [reflexivity |].
    split; [rewrite Hi, Hs7i; lia |].
    rewrite Hq. f_equal. lia.
Qed.

(** X1.  If pass [k] (counted from 0) is the first whose score reaches the
    threshold and it lies below the ceiling, the run makes exactly [k + 1]
    passes and returns with [iteration = k] and that pass's score. *)
Theorem accepted_at_first_passing_score :
  forall (cfg : Settings) (w : World) (steps : nat) (query : string)
         (N : Z) (k : nat),
    setup_failure w = None ->
    (forall p n, node_crash w p n = None) ->
    (forall j, (j < k)%nat -> (pass_score w j < QUALITY_THRESHOLD cfg)%Q) ->
    (QUALITY_THRESHOLD cfg <= pass_score w k)%Q ->
    Z.of_nat k < N ->
    (6 + 7 * k <= steps)%nat ->
    exists s trace,
      Graph.run_research cfg w steps query (Some N) = (Graph.Returned s, trace)
      /\ Graph.passes trace = S k
      /\ iteration s = Z.of_nat k
      /\ quality_score s = pass_score w k.
Proof.
  intros cfg w steps query N k Hsetup Hcrash Hlow Hhigh HN Hsteps.
  unfold Graph.run_research, Graph.invoke. rewrite Hsetup. cbn zeta.
  set (s0 := Graph.initial_state cfg query (Some N)).
  assert (Hm : max_iterations s0 = N) by (apply initial_state_max; lia).
  destruct (run_until_accepted cfg w Hcrash k steps 0%nat s0)
    as (s & tr & Hrun & Hp & _ & Hi & Hq); try assumption.
  { rewrite Hm. change (iteration s0) with 0. lia. }
  rewrite Hrun. exists s, tr. split; [reflexivity |]. split; [exact Hp |].
  split; [exact Hi | exact Hq].
Qed.

Lemma scenario_first_low :
  forall j, (j < 1)%nat -> (pass_score scenario_world j < QUALITY_THRESHOLD settings)%Q.
Proof. intros j Hj. replace j with 0%nat by lia. reflexivity. Qed.

Lemma accepted_at_first_passing_score_witness :
  exists s trace,
    Graph.run_research settings scenario_world 14 "impact of AI on healthcare"
      (Some 2) = (Graph.Returned s, trace)
    /\ Graph.passes trace = 2%nat
    /\ iteration s = 1
    /\ quality_score s = pass_score scenario_world 1.
Proof.
  apply (accepted_at_first_passing_score settings scenario_world 14
           "impact of AI on healthcare" 2 1).
  - reflexivity.
  - intros p n. reflexivity.
  - exact scenario_first_low.
  - vm_compute. discriminate.
  - lia.
  - lia.
Defined.

(** ** A ceiling of one or less *)

(** X2.  With a ceiling of at most 1 in the state (1, or any negative
    number passed by the caller) a run in which no node raises makes
    exactly one pass and takes no refinement, whatever the score; and a
    caller's [None] or [0] is replaced by [settings.MAX_ITERATIONS]. *)
Theorem single_pass_at_low_ceiling :
  forall (cfg : Settings) (w : World) (steps : nat) (query : string)
         (max_iter : option Z),
    setup_failure w = None ->
    (forall n, node_crash w 0 n = None) ->
    max_iterations (Graph.initial_state cfg query max_iter) <= 1 ->
    (6 <= steps)%nat ->
    (exists s,
       Graph.run_research cfg w steps query max_iter = (Graph.Returned s, stage_order)
       /\ iteration s = 0)
    /\ max_iterations (Graph.initial_state cfg query None) = MAX_ITERATIONS cfg
    /\ max_iterations (Graph.initial_state cfg query (Some 0)) = MAX_ITERATIONS cfg.
Proof.
  intros cfg w steps query max_iter Hsetup Hcrash Hmax Hsteps.
  split; [| split; reflexivity].
  unfold Graph.run_research, Graph.invoke. rewrite Hsetup. cbn zeta.
  set (s0 := Graph.initial_state cfg query max_iter) in *.
  replace steps with (6 + (steps - 6))%nat by lia.
  rewrite run_from_pass by exact Hcrash. cbn zeta.
  set (s6 := pipeline_pass cfg w 0 s0).
  assert (Hi : iteration s6 = 0) by (subst s6; now rewrite pipeline_pass_iteration).
  assert (Hm : max_iterations s6 = max_iterations s0) by reflexivity.
  assert (Hg : Graph.quality_gate cfg s6 = "accept").
  { unfold Graph.quality_gate. destruct (Qle_bool _ _); [reflexivity |].
    rewrite Hi, Hm. destruct (Z.geb_spec (0 + 1) (max_iterations s0)); [reflexivity | lia]. }
  rewrite Hg. cbn [String.eqb Ascii.eqb Bool.eqb].
  exists s6. split; [reflexivity | exact Hi].
Qed.

Lemma single_pass_at_low_ceiling_witness :
  exists s,
    Graph.run_research settings offline_world 6 "q" (Some (-3))
      = (Graph.Returned s, stage_order)
    /\ iteration s = 0.
Proof.
  apply (single_pass_at_low_ceiling settings offline_world 6 "q" (Some (-3))).
  - reflexivity.
  - intros n. reflexivity.
  - vm_compute. discriminate.
  - lia.
Defined.

(** ** The errors log *)

Ltac unfold_nodes :=
  unfold Graph.decompose, Graph.retrieve, Graph.analyze, Graph.fact_checking,
    Graph.generate_insights, Graph.build_report, Graph.increment_iteration,
    DecomposerAgent.run, RetrieverAgent.run, AnalysisAgent.run,
    FactCheckerAgent.run, InsightAgent.run, ReportAgent.run.

(** A node leaves [errors] alone or appends one entry to it. *)
Lemma node_errors cfg w n pass state :
  let s' := merge state (Graph.node_function cfg w n pass state) in
  errors s' = errors state \/ exists entry, errors s' = errors state ++ [entry].
Proof.
  destruct n; cbn; unfold_nodes; repeat case_match; cbn; eauto.
Qed.

Lemma node_errors_clean cfg w n pass state :
  model_always_answers w ->
  errors (merge state (Graph.node_function cfg w n pass state)) = errors state.
Proof.
  intros Hok. destruct (Hok pass) as (H1 & H2 & H3 & H4 & H5).
  destruct n; cbn; unfold_nodes; repeat case_match; try reflexivity;
    cbn in *; discriminate.
Qed.

Lemma run_from_errors cfg w steps :
  forall n pass state s trace,
    Graph.run_from cfg w steps n pass state = (Graph.Finished s, trace) ->
    errors state `prefix_of` errors s
    /\ (model_always_answers w -> errors s = errors state).
Proof.
  induction steps as [| steps IH]; intros n pass state s trace Hrun;
    [discriminate |].
  rewrite run_from_S in Hrun.
  destruct (Graph.run_node cfg w n pass state) as [state' | e] eqn:Hnode;
    [| discriminate].
  apply run_node_inv in Hnode.
  assert (Hp : errors state `prefix_of` errors state').
  { subst state'. destruct (node_errors cfg w n pass state) as [-> | [entry ->]];
      [reflexivity | apply prefix_app_r; reflexivity]. }
  assert (Hc : model_always_answers w -> errors state' = errors state)
    by (intros Hok; subst state'; now apply node_errors_clean).
  destruct (Graph.successor cfg n state') as [[n' |] |]; [| | discriminate].
  - cbn zeta in Hrun.
    destruct (Graph.run_from cfg w steps n' _ state') as [out tr] eqn:Hrest.
    injection Hrun as -> <-. destruct (IH _ _ _ _ _ Hrest) as [IHp IHc].
    split; [etransitivity; eassumption |].
    intros Hok. rewrite IHc, Hc by assumption. reflexivity.
  - injection Hrun as <- <-. auto.
Qed.

(** X3.  [errors] is append-only while the graph runs: every node leaves it
    alone or appends one entry, so the list a finished invocation ends with
    extends the list it started with. *)
Theorem errors_append_only :
  forall (cfg : Settings) (w : World),
    (forall n pass state,
        let s' := merge state (Graph.node_function cfg w n pass state) in
        errors s' = errors state
        \/ exists entry, errors s' = errors state ++ [entry])
    /\ (forall steps n pass state s trace,
          Graph.run_from cfg w steps n pass state = (Graph.Finished s, trace) ->
          errors state `prefix_of` errors s).
Proof.
  intros cfg w. split; [apply node_errors |].
  intros steps n pass state s trace Hrun.
  now destruct (run_from_errors cfg w steps _ _ _ _ _ Hrun).
Qed.

Lemma run_research_clean cfg w steps query max_iter s trace :
  model_always_answers w ->
  (forall p n, node_crash w p n = None) ->
  Graph.run_research cfg w steps query max_iter = (Graph.Returned s, trace) ->
  errors s = [].
Proof.
  intros Hok Hcrash Hrun.
  unfold Graph.run_research, Graph.invoke in Hrun.
  destruct (setup_failure w); [discriminate |]. cbn zeta in Hrun.
  destruct (Graph.run_from cfg w steps Decompose 0 _) as [out tr] eqn:Hinv.
  destruct out as [s' | e partial |]; [| | discriminate].
  - injection Hrun as <- <-.
    destruct (run_from_errors cfg w steps _ _ _ _ _ Hinv) as [_ Hc].
    now rewrite Hc.
  - exfalso. eapply run_from_no_crash; eassumption.
Qed.

(** Up to a ceiling of 3 the run ends within the library's limit. *)
Lemma run_research_within_limit cfg w query max_iter :
  max_iterations (Graph.initial_state cfg query max_iter) <= 3 ->
  fst (Graph.run_research cfg w Graph.recursion_limit query max_iter)
  <> Graph.Unfinished.
Proof.
  intros Hmax. generalize Graph.recursion_limit
    (eq_refl : Graph.recursion_limit = 25%nat).
  intros steps Hsteps. unfold Graph.run_research, Graph.invoke.
  destruct (setup_failure w); [discriminate |]. cbn zeta.
  set (initial := Graph.initial_state cfg query max_iter) in *.
  assert (Hneed : (steps_needed Decompose initial <= steps)%nat).
  { unfold steps_needed. change (iteration initial) with 0.
    cbn [distance_to_gate]. case_decide; [congruence |]. lia. }
  pose proof (run_from_enough cfg w steps Decompose 0 initial Hneed) as H.
  destruct (Graph.run_from cfg w steps Decompose 0 initial) as [[r | e p |] tr];
    cbn [fst] in *; congruence.
Qed.

(** X4.  When every model call of the decomposer, the analysis, the
    fact-checker, the insight and the report stage succeeds and no node
    raises, the state [run_research] returns has an empty [errors] list -
    whatever the searches and the categorisation call did: their failures
    are logged, never recorded - unless the graph library's step limit
    ended the run, when the state is the initial one with the library's
    message as its only error; up to a ceiling of 3 the limit is never
    reached. *)
Theorem clean_run_has_no_errors :
  forall (cfg : Settings) (w : World) (query : string)
         (max_iter : option Z) (s : ResearchState) (trace : list node),
    model_always_answers w ->
    (forall p n, node_crash w p n = None) ->
    Graph.run_research_limited cfg w query max_iter = (Graph.Returned s, trace) ->
    let initial := Graph.initial_state cfg query max_iter in
    (errors s = []
     \/ (Graph.run_research cfg w Graph.recursion_limit query max_iter
         = (Graph.Unfinished, trace)
         /\ s = Graph.pipeline_error initial Graph.recursion_error
         /\ errors s = [Graph.recursion_error]))
    /\ (max_iterations initial <= 3 -> errors s = []).
Proof.
  intros cfg w query max_iter s trace Hok Hcrash Hrun initial.
  unfold Graph.run_research_limited in Hrun.
  pose proof (run_research_within_limit cfg w query max_iter) as Hwithin.
  destruct (Graph.run_research cfg w Graph.recursion_limit query max_iter)
    as [[r | e |] tr] eqn:Hr.
  - injection Hrun as <- <-.
    assert (He : errors r = []) by (eapply run_research_clean; eassumption).
    split; [left; exact He | intros _; exact He].
  - discriminate.
  - injection Hrun as <- <-. split; [right; repeat split |].
    intros Hmax. exfalso. now apply Hwithin.
Qed.

Lemma scenario_model_answers : model_always_answers scenario_world.
Proof. intros pass. repeat split. Qed.

Lemma scenario_returns :
  exists s trace,
    Graph.run_research settings scenario_world 14 "q" (Some 2)
    = (Graph.Returned s, trace).
Proof. eexists _, _. vm_compute. reflexivity. Qed.

Lemma scenario_returns_limited :
  exists s trace,
    Graph.run_research_limited settings scenario_world "q" (Some 2)
    = (Graph.Returned s, trace).
Proof. eexists _, _. vm_compute. reflexivity. Qed.

Lemma clean_run_has_no_errors_witness :
  exists s trace,
    Graph.run_research_limited settings scenario_world "q" (Some 2)
      = (Graph.Returned s, trace)
    /\ errors s = [].
Proof.
  destruct scenario_returns_limited as (s & trace & Hrun).
  exists s, trace. split; [exact Hrun |].
  apply (clean_run_has_no_errors settings scenario_world "q" (Some 2) s trace).
  - exact scenario_model_answers.
  - intros p n. reflexivity.
  - exact Hrun.
  - vm_compute. discriminate.
Defined.

(** ** What a run leaves unchanged, and what the report records *)

Lemma run_from_query cfg w steps :
  forall n pass state s trace,
    Graph.run_from cfg w steps n pass state = (Graph.Finished s, trace) ->
    original_query s = original_query state.
Proof.
  induction steps as [| steps IH]; intros n pass state s trace Hrun;
    [discriminate |].
  rewrite run_from_S in Hrun.
  destruct (Graph.run_node cfg w n pass state) as [state' | e] eqn:Hnode;
    [| discriminate].
  apply run_node_inv in Hnode.
  assert (Hq : original_query state' = original_query state) by now subst state'.
  destruct (Graph.successor cfg n state') as [[n' |] |]; [| | discriminate].
  - cbn zeta in Hrun.
    destruct (Graph.run_from cfg w steps n' _ state') as [out tr] eqn:Hrest.
    injection Hrun as -> <-. now rewrite (IH _ _ _ _ _ Hrest).
  - now injection Hrun as <- <-.
Qed.

(** X5.  The state [run_research] returns always carries the caller's query
    and the ceiling the run was created with ([max_iterations], or
    [settings.MAX_ITERATIONS] for [None] and [0]): no node writes either
    key. *)
Theorem query_and_ceiling_preserved :
  forall (cfg : Settings) (w : World) (steps : nat) (query : string)
         (max_iter : option Z) (s : ResearchState) (trace : list node),
    Graph.run_research cfg w steps query max_iter = (Graph.Returned s, trace) ->
    original_query s = query
    /\ max_iterations s = or_int max_iter (MAX_ITERATIONS cfg).
Proof.
  intros cfg w steps query max_iter s trace Hrun.
  unfold Graph.run_research, Graph.invoke in Hrun.
  destruct (setup_failure w); [discriminate |]. cbn zeta in Hrun.
  destruct (Graph.run_from cfg w steps Decompose 0 _) as [out tr] eqn:Hinv.
  destruct out as [s' | e partial |]; [| | discriminate].
  - injection Hrun as <- <-. split.
    + now rewrite (run_from_query cfg w steps _ _ _ _ _ Hinv).
    + pose proof (run_from_counts cfg w steps _ _ _ _ _ Hinv) as (_ & _ & Hf).
      now destruct (Hf s' eq_refl) as [_ ->].
  - injection Hrun as <- <-. split; reflexivity.
Qed.

Lemma query_and_ceiling_preserved_witness :
  exists s trace,
    Graph.run_research settings scenario_world 14 "q" (Some 2)
      = (Graph.Returned s, trace)
    /\ original_query s = "q"
    /\ max_iterations s = or_int (Some 2) (MAX_ITERATIONS settings).
Proof.
  destruct scenario_returns as (s & trace & Hrun).
  exists s, trace. split; [exact Hrun |].
  exact (query_and_ceiling_preserved settings scenario_world 14 "q" (Some 2)
           s trace Hrun).
Defined.

Lemma build_report_consistent w pass last :
  let s := merge last (Graph.build_report w pass last) in
  exists r,
    report s = Some r
    /\ r_quality_score r = quality_score s
    /\ r_sources_cited r = ReportAgent.sources_cited (sources s)
    /\ r_generated_at r = now_isoformat w pass.
Proof.
  unfold Graph.build_report, ReportAgent.run.
  destruct (llm_report w pass); cbn; eexists; repeat split.
Qed.

(** X6.  The state [run_research] returns has no report only after an
    exception; otherwise its report agrees with the state around it: the
    report's [quality_score] is the [quality_score] the gate read, and its
    [sources_cited] lists the title and url of every accumulated source,
    in order. *)
Theorem returned_report_consistent :
  forall (cfg : Settings) (w : World) (steps : nat) (query : string)
         (max_iter : option Z) (s : ResearchState) (trace : list node),
    Graph.run_research cfg w steps query max_iter = (Graph.Returned s, trace) ->
    (report s = None
     /\ exists e, s = Graph.pipeline_error (Graph.initial_state cfg query max_iter) e)
    \/ (exists r,
          report s = Some r
          /\ r_quality_score r = quality_score s
          /\ r_sources_cited r = map (fun src => (title src, url src)) (sources s)).
Proof.
  intros cfg w steps query max_iter s trace Hrun.
  unfold Graph.run_research, Graph.invoke in Hrun.
  destruct (setup_failure w); [discriminate |]. cbn zeta in Hrun.
  destruct (Graph.run_from cfg w steps Decompose 0 _) as [out tr] eqn:Hinv.
  destruct out as [s' | e partial |]; [| | discriminate].
  - injection Hrun as <- <-. right.
    destruct (run_from_finished_report cfg w steps _ _ _ _ _ Hinv) as [last ->].
    destruct (build_report_consistent w (Graph.refinements tr + 0) last)
      as (r & Hr & Hq & Hc & _).
    exists r. split; [exact Hr |]. split; [exact Hq | exact Hc].
  - injection Hrun as <- <-. left. split; [reflexivity | eauto].
Qed.

Lemma returned_report_consistent_witness :
  exists s trace,
    Graph.run_research settings scenario_world 14 "q" (Some 2)
      = (Graph.Returned s, trace)
    /\ ((report s = None
         /\ exists e, s = Graph.pipeline_error
                            (Graph.initial_state settings "q" (Some 2)) e)
        \/ (exists r,
              report s = Some r
              /\ r_quality_score r = quality_score s
              /\ r_sources_cited r
                 = map (fun src => (title src, url src)) (sources s))).
Proof.
  destruct scenario_returns as (s & trace & Hrun).
  exists s, trace. split; [exact Hrun |].
  exact (returned_report_consistent settings scenario_world 14 "q" (Some 2)
           s trace Hrun).
Defined.

(** * Further properties of the retriever *)

Lemma keep_new_grows results :
  forall (existing_urls : gset string) all_sources,
    existing_urls ⊆ fst (RetrieverAgent.keep_new results existing_urls all_sources).
Proof.
  intros eu al. destruct (keep_new_spec results eu al) as (added & -> & _).
  cbn. set_solver.
Qed.

Lemma keep_new_covers results :
  forall (existing_urls : gset string) all_sources src,
    src ∈ results ->
    url src ∈ fst (RetrieverAgent.keep_new results existing_urls all_sources).
Proof.
  induction results as [| r rest IH]; intros eu al src Hin; [inversion Hin |].
  cbn [RetrieverAgent.keep_new]. apply elem_of_cons in Hin as [-> | Hin].
  - case_decide as Hr.
    + now apply keep_new_grows.
    + apply keep_new_grows. set_solver.
  - case_decide; now apply IH.
Qed.

Lemma search_all_grows w pass sub_queries :
  forall i (existing_urls : gset string) all_sources,
    existing_urls
      ⊆ fst (RetrieverAgent.search_all w pass i sub_queries existing_urls all_sources).
Proof.
  intros i eu al.
  destruct (search_all_spec w pass sub_queries i eu al) as (added & -> & _).
  cbn. set_solver.
Qed.

Lemma search_all_covers w pass sub_queries :
  forall i0 (existing_urls : gset string) all_sources (i : nat) query results src,
    sub_queries !! i = Some query ->
    RetrieverAgent._search w pass (i0 + i) query = Ok results ->
    src ∈ results ->
    url src
      ∈ fst (RetrieverAgent.search_all w pass i0 sub_queries existing_urls all_sources).
Proof.
  induction sub_queries as [| q rest IH];
    intros i0 eu al i query results src Hq Hs Hin; [discriminate |].
  cbn [RetrieverAgent.search_all]. destruct i as [| i].
  - injection Hq as ->. replace (i0 + 0)%nat with i0 in Hs by lia. rewrite Hs.
    destruct (RetrieverAgent.keep_new results eu al) as [eu' al'] eqn:Hk.
    apply search_all_grows.
    change eu' with (fst (eu', al')). rewrite <- Hk. now apply keep_new_covers.
  - cbn in Hq. replace (i0 + S i)%nat with (S i0 + i)%nat in Hs by lia.
    destruct (RetrieverAgent._search w pass i0 q) as [r0 | e].
    + destruct (RetrieverAgent.keep_new r0 eu al) as [eu' al'].
      eapply IH; eassumption.
    + eapply IH; eassumption.
Qed.

(** X7.  Deduplication loses no page: every url a successful search of the
    pass returns is the url of a source in the list the retriever writes
    (one stored before, or one it appends now). *)
Theorem retriever_keeps_every_url :
  forall (w : World) (pass : nat) (state : ResearchState) (i : nat)
         (query : string) (results : list SourceDocument) (src : SourceDocument),
    sub_queries state !! i = Some query ->
    RetrieverAgent._search w pass i query = Ok results ->
    src ∈ results ->
    exists kept,
      u_sources (RetrieverAgent.run w pass state) = Some kept
      /\ url src ∈ map url kept.
Proof.
  intros w pass state i query results src Hq Hs Hin.
  exists (sources state ++ RetrieverAgent.new_sources w pass state).
  split; [reflexivity |].
  pose proof (search_all_covers w pass (sub_queries state) 0
                (list_to_set (map url (sources state))) [] i query results src
                Hq Hs Hin) as Hcov.
  unfold RetrieverAgent.new_sources.
  destruct (search_all_spec w pass (sub_queries state) 0
              (list_to_set (map url (sources state))) [])
    as (added & Heq & _).
  rewrite Heq in Hcov |- *. cbn [fst snd app] in *.
  assert (Hu : map url (match added with
                        | [] => added
                        | _ => RetrieverAgent._categorize_sources w pass added
                        end) = map url added).
  { destruct added; [reflexivity | apply categorize_urls]. }
  rewrite map_app, Hu. apply elem_of_app.
  apply elem_of_union in Hcov as [Hc | Hc].
  - right. now apply elem_of_list_to_set in Hc.
  - left. now apply elem_of_list_to_set in Hc.
Qed.

Lemma retriever_keeps_every_url_witness :
  exists kept,
    u_sources (RetrieverAgent.run scenario_world 0 scenario_decomposed) = Some kept
    /\ "https://example.org/0" ∈ map url kept.
Proof.
  eapply (retriever_keeps_every_url scenario_world 0 scenario_decomposed 0 "q"
            _ (RetrieverAgent.to_source scenario_world "q"
                 {| tr_title := Some "A page";
                    tr_url := Some "https://example.org/0";
                    tr_content := Some "text"; tr_score := Some 1%Q |})).
  - reflexivity.
  - vm_compute. reflexivity.
  - apply list_elem_of_here.
Defined.

Lemma keep_new_known results :
  forall (existing_urls : gset string) all_sources,
    (forall src, src ∈ results -> url src ∈ existing_urls) ->
    RetrieverAgent.keep_new results existing_urls all_sources
    = (existing_urls, all_sources).
Proof.
  induction results as [| r rest IH]; intros eu al Hknown; [reflexivity |].
  cbn [RetrieverAgent.keep_new]. case_decide as Hr.
  - apply IH. intros src Hsrc. apply Hknown. now apply list_elem_of_further.
  - exfalso. apply Hr, Hknown. apply list_elem_of_here.
Qed.

Lemma search_all_known w pass sub_queries :
  forall i0 (existing_urls : gset string) all_sources,
    (forall (i : nat) query results src,
        sub_queries !! i = Some query ->
        RetrieverAgent._search w pass (i0 + i) query = Ok results ->
        src ∈ results -> url src ∈ existing_urls) ->
    RetrieverAgent.search_all w pass i0 sub_queries existing_urls all_sources
    = (existing_urls, all_sources).
Proof.
  induction sub_queries as [| q rest IH]; intros i0 eu al Hknown; [reflexivity |].
  cbn [RetrieverAgent.search_all].
  assert (Hrest : forall (i : nat) query results src,
             rest !! i = Some query ->
             RetrieverAgent._search w pass (S i0 + i) query = Ok results ->
             src ∈ results -> url src ∈ eu).
  { intros i query results src Hq Hs Hin.
    apply (Hknown (S i) query results src); [exact Hq | | exact Hin].
    now replace (i0 + S i)%nat with (S i0 + i)%nat by lia. }
  destruct (RetrieverAgent._search w pass i0 q) as [r0 | e] eqn:Hs0.
  - rewrite keep_new_known; [now apply IH |].
    intros src Hsrc. apply (Hknown 0%nat q r0 src); [reflexivity | | exact Hsrc].
    now replace (i0 + 0)%nat with i0 by lia.
  - now apply IH.
Qed.

(** X8.  When every search of the pass fails or returns only pages whose
    url is already stored (in particular when there is no sub-query), the
    retriever adds nothing: its update carries the stored sources
    unchanged. *)
Theorem retriever_adds_nothing_new :
  forall (w : World) (pass : nat) (state : ResearchState),
    (forall (i : nat) query results src,
        sub_queries state !! i = Some query ->
        RetrieverAgent._search w pass i query = Ok results ->
        src ∈ results -> url src ∈ map url (sources state)) ->
    RetrieverAgent.new_sources w pass state = []
    /\ u_sources (RetrieverAgent.run w pass state) = Some (sources state).
Proof.
  intros w pass state Hknown.
  assert (Hnew : RetrieverAgent.new_sources w pass state = []).
  { unfold RetrieverAgent.new_sources. rewrite search_all_known; [reflexivity |].
    intros i query results src Hq Hs Hin. apply elem_of_list_to_set.
    eapply Hknown; eassumption. }
  split; [exact Hnew |].
  unfold RetrieverAgent.run. cbn. rewrite Hnew, app_nil_r. reflexivity.
Qed.

Lemma offline_search_fails :
  forall (i : nat) query results src,
    sub_queries offline_decomposed !! i = Some query ->
    RetrieverAgent._search offline_world 0 i query = Ok results ->
    src ∈ results -> url src ∈ map url (sources offline_decomposed).
Proof. intros i query results src _ Hs. discriminate Hs. Qed.

Lemma retriever_adds_nothing_new_witness :
  RetrieverAgent.new_sources offline_world 0 offline_decomposed = []
  /\ u_sources (RetrieverAgent.run offline_world 0 offline_decomposed)
     = Some (sources offline_decomposed).
Proof.
  exact (retriever_adds_nothing_new offline_world 0 offline_decomposed
           offline_search_fails).
Defined.

Lemma same_but_type_refl s : same_but_type s s.
Proof. repeat split. Qed.

Lemma alter_source_type_same t (srcs : list SourceDocument) :
  forall i : nat,
    Forall2 same_but_type (alter (RetrieverAgent.with_source_type t) i srcs) srcs.
Proof.
  induction srcs as [| s srcs IH]; intros [| i]; cbn; constructor;
    try apply same_but_type_refl; try apply IH.
  - repeat split.
  - clear. induction srcs; constructor; auto using same_but_type_refl.
Qed.

Lemma same_but_type_trans a b c :
  same_but_type a b -> same_but_type b c -> same_but_type a c.
Proof. unfold same_but_type. intuition congruence. Qed.

Lemma Forall2_same_trans (l1 l2 l3 : list SourceDocument) :
  Forall2 same_but_type l1 l2 -> Forall2 same_but_type l2 l3 ->
  Forall2 same_but_type l1 l3.
Proof.
  intros H12. revert l3. induction H12; intros l3 H23; inversion H23; subst;
    constructor; eauto using same_but_type_trans.
Qed.

Lemma apply_categories_same items :
  forall srcs, Forall2 same_but_type (RetrieverAgent.apply_categories items srcs) srcs.
Proof.
  induction items as [| item items IH]; intros srcs; cbn.
  - induction srcs; constructor; auto using same_but_type_refl.
  - eapply Forall2_same_trans; [apply IH |]. case_match.
    + apply alter_source_type_same.
    + clear. induction srcs; constructor; auto using same_but_type_refl.
Qed.

(** X9.  Categorisation, through the model or through the domain rules of
    the fallback, changes nothing but [source_type]: it returns the same
    sources in the same order, equal in every other field; and a reply item
    whose index is missing, negative or past the end of the list changes no
    source at all. *)
Theorem categorisation_only_sets_source_type :
  forall (w : World) (pass : nat) (srcs : list SourceDocument),
    Forall2 same_but_type (RetrieverAgent._categorize_sources w pass srcs) srcs
    /\ (forall item,
          (default (-1) (ci_index item) < 0
           \/ len srcs <= default (-1) (ci_index item)) ->
          RetrieverAgent.apply_categories [item] srcs = srcs).
Proof.
  intros w pass srcs. split.
  - unfold RetrieverAgent._categorize_sources. case_match.
    + apply apply_categories_same.
    + clear. induction srcs as [| s srcs IH]; cbn; constructor; [repeat split | exact IH].
  - intros item Hidx. cbn.
    destruct (Z.leb_spec 0 (default (-1) (ci_index item)));
      destruct (Z.ltb_spec (default (-1) (ci_index item)) (len srcs));
      cbn; try reflexivity. lia.
Qed.

(** * Stages without input *)

(** X10.  With no source in the state the analysis stage calls no model:
    whatever the world, it writes an analysis without findings and leaves
    [errors] alone; the fact-checker that follows then calls no model
    either and writes an empty list of verified claims with reliability 0. *)
Theorem empty_sources_skip_the_model :
  forall (w : World) (pass : nat) (state : ResearchState),
    sources state = [] ->
    let s1 := merge state (Graph.analyze w pass state) in
    let s2 := merge s1 (Graph.fact_checking w pass s1) in
    (forall w', merge state (Graph.analyze w' pass state) = s1)
    /\ (forall w', merge s1 (Graph.fact_checking w' pass s1) = s2)
    /\ (exists a, analysis s1 = Some a /\ a_findings a = [])
    /\ (exists fc, fact_check s2 = Some fc
                   /\ fc_verified_claims fc = []
                   /\ fc_overall_reliability_score fc = 0%Q)
    /\ errors s2 = errors state.
Proof.
  intros w pass state Hsrc. cbn zeta.
  unfold Graph.analyze, Graph.fact_checking, AnalysisAgent.run. rewrite Hsrc.
  split; [reflexivity |]. split; [reflexivity |].
  split; [eexists; split; reflexivity |].
  split; [eexists; repeat split |]. reflexivity.
Qed.

Lemma empty_sources_skip_the_model_witness :
  exists fc,
    fact_check
      (merge (merge offline_decomposed (Graph.analyze offline_world 0 offline_decomposed))
         (Graph.fact_checking offline_world 0
            (merge offline_decomposed
               (Graph.analyze offline_world 0 offline_decomposed))))
    = Some fc
    /\ fc_verified_claims fc = []
    /\ fc_overall_reliability_score fc = 0%Q.
Proof.
  destruct (empty_sources_skip_the_model offline_world 0 offline_decomposed eq_refl)
    as (_ & _ & _ & Hfc & _).
  exact Hfc.
Defined.

(** * Further properties of the JSON extraction *)

Lemma elem_of_rev {A} (x : A) (l : list A) : x ∈ rev l <-> x ∈ l.
Proof. rewrite !list_elem_of_In. symmetry. apply in_rev. Qed.

Lemma from_first_spec c s m :
  LLMClient.from_first c s = Some m
  <-> exists pre r, s = pre ++ c :: r /\ m = c :: r /\ c ∉ pre.
Proof.
  revert m. induction s as [| x s IH]; intros m; cbn.
  - split; [discriminate |]. intros (pre & r & Hs & _). now destruct pre.
  - destruct (Ascii.eqb_spec x c) as [-> | Hne].
    + split.
      * intros [= <-]. exists [], s. repeat split. apply not_elem_of_nil.
      * intros (pre & r & Hs & -> & Hpre). destruct pre as [| p pre].
        -- now injection Hs as <-.
        -- injection Hs as <- _. exfalso. apply Hpre, list_elem_of_here.
    + rewrite IH. split.
      * intros (pre & r & -> & -> & Hpre). exists (x :: pre), r.
        repeat split. intros Hin. apply elem_of_cons in Hin as [-> | Hin]; auto.
      * intros (pre & r & Hs & -> & Hpre). destruct pre as [| p pre].
        -- injection Hs as -> _. congruence.
        -- injection Hs as <- ->. exists pre, r. repeat split.
           intros Hin. apply Hpre. now apply list_elem_of_further.
Qed.

Lemma through_last_spec c s m :
  LLMClient.through_last c s = Some m
  <-> exists r post, s = r ++ c :: post /\ m = r ++ [c] /\ c ∉ post.
Proof.
  unfold LLMClient.through_last. split.
  - destruct (LLMClient.from_first c (rev s)) as [m' |] eqn:Hf; [| discriminate].
    intros [= <-]. apply from_first_spec in Hf as (pre & r & Hs & -> & Hpre).
    exists (rev r), (rev pre). split; [| split].
    + rewrite <- (rev_involutive s), Hs, rev_app_distr. cbn.
      now rewrite <- app_assoc.
    + reflexivity.
    + intros Hin. apply Hpre. exact (proj1 (elem_of_rev c pre) Hin).
  - intros (r & post & -> & -> & Hpost).
    assert (Hf : LLMClient.from_first c (rev (r ++ c :: post)) = Some (c :: rev r)).
    { apply from_first_spec. exists (rev post), (rev r). split; [| split].
      - rewrite rev_app_distr. cbn. now rewrite <- app_assoc.
      - reflexivity.
      - intros Hin. apply Hpost. exact (proj1 (elem_of_rev c post) Hin). }
    rewrite Hf. cbn. now rewrite rev_involutive.
Qed.

Lemma search_span_spec o c s m :
  LLMClient.search_span o c s = Some m
  <-> exists pre body post,
        s = pre ++ o :: body ++ c :: post
        /\ m = o :: body ++ [c]
        /\ (o ∉ pre) /\ (c ∉ post).
Proof.
  unfold LLMClient.search_span. split.
  - destruct (LLMClient.from_first o s) as [[| x rest] |] eqn:Hf; try discriminate.
    apply from_first_spec in Hf as (pre & r & -> & [= -> ->] & Hpre).
    destruct (LLMClient.through_last c r) as [body |] eqn:Ht; [| discriminate].
    intros [= <-]. apply through_last_spec in Ht as (b & post & -> & -> & Hpost).
    exists pre, b, post. repeat split; assumption.
  - intros (pre & body & post & -> & -> & Hpre & Hpost).
    assert (Hf : LLMClient.from_first o (pre ++ o :: body ++ c :: post)
                 = Some (o :: body ++ c :: post))
      by (apply from_first_spec; exists pre, (body ++ c :: post); auto).
    rewrite Hf.
    assert (Ht : LLMClient.through_last c (body ++ c :: post) = Some (body ++ [c]))
      by (apply through_last_spec; exists body, post; auto).
    now rewrite Ht.
Qed.

(** The last occurrence of a character that occurs in a list. *)
Lemma last_occurrence (c : ascii) (b post0 : list ascii) :
  exists b' post', b ++ c :: post0 = b' ++ c :: post' /\ (c ∉ post').
Proof.
  revert b. induction post0 as [| x post0 IH] using rev_ind; intros b.
  - exists b, []. split; [reflexivity | apply not_elem_of_nil].
  - destruct (Ascii.eqb_spec x c) as [-> | Hne].
    + exists (b ++ c :: post0), []. split; [| apply not_elem_of_nil].
      now rewrite <- app_assoc.
    + destruct (IH b) as (b' & post' & Heq & Hp).
      exists b', (post' ++ [x]). split.
      * change (b ++ c :: post0 ++ [x]) with (b ++ (c :: post0) ++ [x]).
        rewrite app_assoc, Heq, <- app_assoc. reflexivity.
      * intros Hin. apply elem_of_app in Hin as [Hin | Hin]; [auto |].
        apply list_elem_of_singleton in Hin. congruence.
Qed.

(** X11.  The brace (or bracket) search of steps 3 and 4 finds exactly the
    substring that runs from the first opening character of the text to the
    last closing character after it: nothing before it holds an opening
    character, nothing after it a closing one; and it finds nothing exactly
    when no closing character follows the first opening one. *)
Theorem search_span_first_to_last :
  forall (o c : ascii) (s m : list ascii),
    (LLMClient.search_span o c s = Some m
     <-> exists pre body post,
           s = pre ++ o :: body ++ c :: post
           /\ m = o :: body ++ [c]
           /\ (o ∉ pre) /\ (c ∉ post))
    /\ (LLMClient.search_span o c s = None
        <-> forall pre rest, s = pre ++ o :: rest -> o ∉ pre -> c ∉ rest).
Proof.
  intros o c s m. split; [apply search_span_spec |]. split.
  - intros Hnone pre rest -> Hpre Hin.
    apply list_elem_of_split in Hin as (b & post0 & ->).
    destruct (last_occurrence c b post0) as (b' & post' & Heq & Hp).
    rewrite Heq in Hnone.
    assert (Hs : LLMClient.search_span o c (pre ++ o :: b' ++ c :: post')
                 = Some (o :: b' ++ [c]))
      by (apply search_span_spec; exists pre, b', post'; auto).
    congruence.
  - intros Hno. destruct (LLMClient.search_span o c s) as [m' |] eqn:Hs;
      [| reflexivity].
    apply search_span_spec in Hs as (pre & body & post & -> & _ & Hpre & _).
    exfalso. apply (Hno pre (body ++ c :: post) eq_refl Hpre).
    apply elem_of_app. right. apply list_elem_of_here.
Qed.

Lemma lstrip_spaces ws s : all_space ws -> lstrip (ws ++ s) = lstrip s.
Proof. induction 1 as [| c ws Hc _ IH]; cbn; [reflexivity | now rewrite Hc]. Qed.

Lemma rstrip_spaces ws s : all_space ws -> rstrip (s ++ ws) = rstrip s.
Proof.
  intros Hws. unfold rstrip. rewrite rev_app_distr, lstrip_spaces; [reflexivity |].
  unfold all_space in *. rewrite Forall_forall in *. intros c Hc.
  apply Hws. exact (proj1 (elem_of_rev c ws) Hc).
Qed.

Lemma lstrip_all_space ws : all_space ws -> lstrip ws = [].
Proof. induction 1 as [| c ws Hc _ IH]; cbn; [reflexivity | now rewrite Hc]. Qed.

Lemma strip_padding ws1 s ws2 :
  all_space ws1 -> all_space ws2 -> strip (ws1 ++ s ++ ws2) = strip s.
Proof.
  intros H1 H2. unfold strip. rewrite lstrip_spaces by assumption.
  induction s as [| c s IH]; cbn [lstrip app].
  - rewrite lstrip_all_space by assumption. reflexivity.
  - destruct (isspace c); [exact IH |].
    change (c :: s ++ ws2) with ((c :: s) ++ ws2). now apply rstrip_spaces.
Qed.

(** X12.  Whitespace around the reply never matters: [_parse_json] gives the
    same result, value or error message, on a text and on the text with any
    space characters put before and after it. *)
Theorem parse_json_ignores_padding :
  forall (json_loads : string -> LLMClient.decoded) (text : string)
         (before after : list ascii),
    all_space before -> all_space after ->
    LLMClient._parse_json json_loads (padded before text after)
    = LLMClient._parse_json json_loads text.
Proof.
  intros json_loads text before after Hb Ha.
  assert (Hs : LLMClient.stripped (padded before text after) = LLMClient.stripped text).
  { unfold LLMClient.stripped, padded.
    rewrite list_ascii_of_string_of_list_ascii. now apply strip_padding. }
  unfold LLMClient._parse_json. rewrite Hs. reflexivity.
Qed.

Lemma parse_json_ignores_padding_witness :
  LLMClient._parse_json JsonRef.json_loads
    (padded [" "%char; "010"%char] "[1, 2]" ["010"%char])
  = LLMClient._parse_json JsonRef.json_loads "[1, 2]".
Proof.
  apply (parse_json_ignores_padding JsonRef.json_loads "[1, 2]"
           [" "%char; "010"%char] ["010"%char]);
    repeat constructor.
Defined.

(** ** Code fences *)

Lemma strip_fences_skip (k : nat) :
  forall s, LLMClient.strip_fences k s = LLMClient.strip_fences 0 (skipn k s).
Proof.
  induction k as [| k IH]; intros s; [reflexivity |].
  destruct s as [| c s]; [reflexivity |]. cbn [LLMClient.strip_fences skipn].
  apply IH.
Qed.

Lemma skipn_lstrip s : skipn (length s - length (lstrip s)) s = lstrip s.
Proof.
  induction s as [| c s IH]; [reflexivity |]. cbn [lstrip].
  destruct (isspace c).
  - assert (Hle : (length (lstrip s) <= length s)%nat).
    { clear. induction s as [| c s IH]; cbn; [lia |].
      destruct (isspace c); cbn; lia. }
    replace (length (c :: s) - length (lstrip s))%nat
      with (S (length s - length (lstrip s))) by (cbn; lia).
    exact IH.
  - now rewrite Nat.sub_diag.
Qed.

Lemma lstrip_before_char X c Y :
  isspace c = false -> lstrip (X ++ c :: Y) = lstrip X ++ c :: Y.
Proof.
  intros Hc. induction X as [| x X IH]; cbn; [now rewrite Hc |].
  destruct (isspace x); [exact IH | reflexivity].
Qed.

Lemma lstrip_idempotent s : lstrip (lstrip s) = lstrip s.
Proof.
  induction s as [| c s IH]; [reflexivity |]. cbn.
  destruct (isspace c) eqn:Hc; [exact IH |]. cbn. now rewrite Hc.
Qed.

Lemma lstrip_keeps_absent (c : ascii) s : c ∉ s -> c ∉ lstrip s.
Proof.
  induction s as [| x s IH]; intros Hs; [exact Hs |]. cbn.
  destruct (isspace x); [| exact Hs].
  apply IH. intros Hin. apply Hs. now apply list_elem_of_further.
Qed.

(** Where there is no backquote there is no fence to remove. *)
Lemma strip_fences_no_backquote X rest :
  "`"%char ∉ X ->
  LLMClient.strip_fences 0 (X ++ rest) = X ++ LLMClient.strip_fences 0 rest.
Proof.
  induction X as [| x X IH]; intros HX; [reflexivity |].
  cbn [app LLMClient.strip_fences].
  assert (Hx : x <> "`"%char).
  { intros ->. apply HX, list_elem_of_here. }
  assert (Hs : startswith (list_ascii_of_string "```") (x :: X ++ rest) = false).
  { cbn [list_ascii_of_string startswith].
    destruct (Ascii.eqb_spec "`" x); [congruence | reflexivity]. }
  rewrite Hs. f_equal. apply IH. intros Hin. apply HX. now apply list_elem_of_further.
Qed.

Lemma fence_length_ge s : (3 <= LLMClient.fence_length s)%nat.
Proof.
  unfold LLMClient.fence_length.
  destruct (startswith _ _); lia.
Qed.

(** At a fence the whole match is dropped and the scan goes on after it. *)
Lemma strip_fences_at_fence s :
  startswith (list_ascii_of_string "```") s = true ->
  LLMClient.strip_fences 0 s
  = LLMClient.strip_fences 0 (skipn (LLMClient.fence_length s) s).
Proof.
  intros Hs. destruct s as [| c r]; [discriminate |].
  cbn [LLMClient.strip_fences]. rewrite Hs, strip_fences_skip.
  pose proof (fence_length_ge (c :: r)) as Hge.
  destruct (LLMClient.fence_length (c :: r)) as [| k]; [lia |].
  cbn [skipn Nat.sub]. now rewrite ?Nat.sub_0_r.
Qed.

Lemma rstrip_last X c : isspace c = false -> rstrip (X ++ [c]) = X ++ [c].
Proof.
  intros Hc. unfold rstrip. rewrite rev_app_distr. cbn [rev app lstrip].
  rewrite Hc. cbn [rev]. now rewrite rev_involutive.
Qed.

Lemma cleaned_fenced body :
  "`"%char ∉ list_ascii_of_string body ->
  LLMClient.stripped (fenced body) = list_ascii_of_string (fenced body)
  /\ LLMClient.cleaned (fenced body) = strip (list_ascii_of_string body).
Proof.
  intros Hbody. set (B := list_ascii_of_string body) in *.
  set (f3 := list_ascii_of_string "```").
  assert (Hchars : list_ascii_of_string (fenced body)
                   = list_ascii_of_string "```json" ++ ["010"%char] ++ B
                     ++ ["010"%char] ++ f3).
  { unfold fenced. now rewrite list_ascii_of_string_of_list_ascii. }
  assert (Hstripped : LLMClient.stripped (fenced body)
                      = list_ascii_of_string (fenced body)).
  { unfold LLMClient.stripped. rewrite Hchars. unfold strip.
    set (whole := list_ascii_of_string "```json" ++ ["010"%char] ++ B
                  ++ ["010"%char] ++ f3).
    assert (Hl : lstrip whole = whole) by reflexivity.
    assert (Hw : whole = (list_ascii_of_string "```json" ++ ["010"%char] ++ B
                          ++ ["010"%char] ++ list_ascii_of_string "``")
                         ++ ["`"%char])
      by (rewrite <- !app_assoc; reflexivity).
    rewrite Hl, Hw. now apply rstrip_last. }
  split; [exact Hstripped |].
  unfold LLMClient.cleaned. rewrite Hstripped, Hchars.
  set (rest := ["010"%char] ++ B ++ ["010"%char] ++ f3).
  assert (Hhead : LLMClient.strip_fences 0 (list_ascii_of_string "```json" ++ rest)
                  = LLMClient.strip_fences 0 (lstrip rest)).
  { rewrite strip_fences_at_fence by reflexivity.
    assert (Hfl : LLMClient.fence_length (list_ascii_of_string "```json" ++ rest)
                  = (7 + (length rest - length (lstrip rest)))%nat) by reflexivity.
    rewrite Hfl.
    change (skipn (7 + (length rest - length (lstrip rest)))
                  (list_ascii_of_string "```json" ++ rest))
      with (skipn (length rest - length (lstrip rest)) rest).
    now rewrite skipn_lstrip. }
  rewrite Hhead.
  assert (Hl : lstrip rest = lstrip (B ++ ["010"%char]) ++ f3).
  { subst rest. cbn [app lstrip]. change (isspace "010") with true. cbn iota.
    change (B ++ "010"%char :: f3) with (B ++ ["010"%char] ++ f3).
    rewrite app_assoc. unfold f3. cbn [list_ascii_of_string].
    now rewrite lstrip_before_char by reflexivity. }
  rewrite Hl, strip_fences_no_backquote.
  2:{ apply lstrip_keeps_absent. intros Hin. apply elem_of_app in Hin as [Hin | Hin];
        [now apply Hbody |]. apply list_elem_of_singleton in Hin. discriminate. }
  change (LLMClient.strip_fences 0 f3) with (@nil ascii). rewrite app_nil_r.
  unfold strip at 1. rewrite lstrip_idempotent. fold (strip (B ++ ["010"%char])).
  apply (strip_padding [] B ["010"%char]); repeat constructor.
Qed.

(** X13.  A reply wrapped in a json code fence is read through the fence:
    for any decoder that rejects a text starting with a backquote (no JSON
    text does) and a body without backquotes, [_parse_json] answers with
    what the stripped body decodes to, wrapped as [{"items": value}] when
    that is not a dict; if the body does not decode, the brace and bracket
    searches run on the stripped body alone. *)
Theorem parse_json_reads_through_fence :
  forall (json_loads : string -> LLMClient.decoded) (body : string),
    (forall s, json_loads (String "`" s) = LLMClient.JSONDecodeError) ->
    "`"%char ∉ list_ascii_of_string body ->
    (forall v,
        LLMClient.loads json_loads (strip (list_ascii_of_string body))
        = LLMClient.Decoded v ->
        LLMClient._parse_json json_loads (fenced body)
        = Ok (LLMClient.dict_or_items v))
    /\ LLMClient.cleaned (fenced body) = strip (list_ascii_of_string body).
Proof.
  intros json_loads body Hreject Hbody.
  destruct (cleaned_fenced body Hbody) as [Hs Hc]. split; [| exact Hc].
  intros v Hv. unfold LLMClient._parse_json.
  assert (Hdirect : LLMClient.loads json_loads (LLMClient.stripped (fenced body))
                    = LLMClient.JSONDecodeError).
  { rewrite Hs. unfold LLMClient.loads, fenced.
    rewrite list_ascii_of_string_of_list_ascii. cbn [list_ascii_of_string app
      string_of_list_ascii]. apply Hreject. }
  rewrite Hdirect. fold (LLMClient.cleaned (fenced body)). rewrite Hc, Hv.
  reflexivity.
Qed.

Lemma json_loads_rejects_backquote s :
  JsonRef.json_loads (String "`" s) = LLMClient.JSONDecodeError.
Proof. reflexivity. Qed.

Lemma parse_json_reads_through_fence_witness :
  LLMClient._parse_json JsonRef.json_loads (fenced " [1, 2]")
  = Ok (JObj [("items", JArr [JInt 1; JInt 2])]).
Proof.
  destruct (parse_json_reads_through_fence JsonRef.json_loads " [1, 2]"
              json_loads_rejects_backquote) as [Hread _].
  - intros Hin. repeat (apply elem_of_cons in Hin as [Hin | Hin]; [discriminate |]).
    inversion Hin.
  - apply (Hread (JArr [JInt 1; JInt 2])). vm_compute. reflexivity.
Defined.

(** * Token bookkeeping *)

Lemma usage_total_invariant (ops : list Usage.op) :
  forall c,
    Usage.client_total_tokens c
      = Usage.sum_Z (map Usage.total_tokens (Usage.call_log c)) ->
    let c' := fold_left Usage.apply_op ops c in
    Usage.client_total_tokens c'
      = Usage.sum_Z (map Usage.total_tokens (Usage.call_log c')).
Proof.
  induction ops as [| o ops IH]; intros c Hc; [exact Hc |].
  cbn [fold_left]. apply IH. destruct o as [name | [u |]]; cbn; try exact Hc.
  rewrite map_app. unfold Usage.sum_Z in *. rewrite fold_right_app. cbn.
  rewrite Hc. generalize (map Usage.total_tokens (Usage.call_log c)) as l.
  intros l. induction l as [| x l IHl]; cbn; lia.
Qed.

Lemma add_entry_lookup m e a :
  Usage.add_entry m e !! a
  = if decide (Usage.agent e = a)
    then let cur := default Usage.no_stats (m !! a) in
         Some {| Usage.s_prompt_tokens := Usage.s_prompt_tokens cur + Usage.prompt_tokens e;
                 Usage.s_completion_tokens :=
                   Usage.s_completion_tokens cur + Usage.completion_tokens e;
                 Usage.s_total_tokens := Usage.s_total_tokens cur + Usage.total_tokens e;
                 Usage.s_calls := Usage.s_calls cur + 1 |}
    else m !! a.
Proof.
  unfold Usage.add_entry. case_decide as Ha.
  - subst a. rewrite lookup_insert_eq.
    destruct (m !! Usage.agent e) eqn:Hm; cbn.
    + now rewrite Hm.
    + now rewrite lookup_insert_eq.
  - rewrite lookup_insert_ne by assumption.
    destruct (m !! Usage.agent e); [reflexivity |].
    now rewrite lookup_insert_ne.
Qed.

Lemma stats_eq p c t n p' c' t' n' :
  p = p' -> c = c' -> t = t' -> n = n' ->
  {| Usage.s_prompt_tokens := p; Usage.s_completion_tokens := c;
     Usage.s_total_tokens := t; Usage.s_calls := n |}
  = {| Usage.s_prompt_tokens := p'; Usage.s_completion_tokens := c';
       Usage.s_total_tokens := t'; Usage.s_calls := n' |}.
Proof. now intros -> -> -> ->. Qed.

Lemma fold_add_entry_lookup log :
  forall m a,
    fold_left Usage.add_entry log m !! a
    = match Usage.entries_of a log with
      | [] => m !! a
      | es =>
          let cur := default Usage.no_stats (m !! a) in
          Some {| Usage.s_prompt_tokens :=
                    Usage.s_prompt_tokens cur
                    + Usage.sum_Z (map Usage.prompt_tokens es);
                  Usage.s_completion_tokens :=
                    Usage.s_completion_tokens cur
                    + Usage.sum_Z (map Usage.completion_tokens es);
                  Usage.s_total_tokens :=
                    Usage.s_total_tokens cur
                    + Usage.sum_Z (map Usage.total_tokens es);
                  Usage.s_calls := Usage.s_calls cur + len es |}
      end.
Proof.
  induction log as [| e log IH]; intros m a; [reflexivity |].
  cbn [fold_left]. rewrite IH, add_entry_lookup. unfold Usage.entries_of.
  rewrite filter_cons. case_decide as Ha.
  - cbn zeta. destruct (filter (fun e0 => Usage.agent e0 = a) log) as [| e' es'];
      unfold Usage.sum_Z, len; cbn [from_option id map fold_right length
        Usage.s_prompt_tokens Usage.s_completion_tokens Usage.s_total_tokens
        Usage.s_calls]; f_equal; apply stats_eq; lia.
  - reflexivity.
Qed.

(** X14.  [get_usage_summary] groups the call log by agent without losing
    or double counting a call: an agent is a key of [by_agent] exactly when
    the log has an entry of it, and its prompt, completion and total token
    counts and its number of calls are the sums over its entries. *)
Theorem usage_summary_groups_by_agent :
  forall (c : Usage.Client) (a : string),
    let es := Usage.entries_of a (Usage.call_log c) in
    (Usage.by_agent (Usage.get_usage_summary c) !! a = None <-> es = [])
    /\ (forall s,
          Usage.by_agent (Usage.get_usage_summary c) !! a = Some s ->
          Usage.s_prompt_tokens s = Usage.sum_Z (map Usage.prompt_tokens es)
          /\ Usage.s_completion_tokens s
             = Usage.sum_Z (map Usage.completion_tokens es)
          /\ Usage.s_total_tokens s = Usage.sum_Z (map Usage.total_tokens es)
          /\ Usage.s_calls s = len es).
Proof.
  intros c a es. unfold Usage.get_usage_summary. cbn [Usage.by_agent].
  rewrite fold_add_entry_lookup. fold es. rewrite lookup_empty.
  destruct es as [| e es']; split.
  - tauto.
  - discriminate.
  - split; discriminate.
  - intros s [= <-]. cbn. repeat split; lia.
Qed.

Lemma sum_insert_fresh (g : Usage.AgentStats -> Z) (m : gmap string Usage.AgentStats)
    a s :
  m !! a = None ->
  map_fold (fun _ s acc => g s + acc) 0 (<[a := s]> m)
  = g s + map_fold (fun _ s acc => g s + acc) 0 m.
Proof.
  intros Hm.
  rewrite (map_fold_insert_L (fun _ s acc => g s + acc) 0 a s m);
    [reflexivity | intros; lia | exact Hm].
Qed.

Lemma sum_add_entry (g : Usage.AgentStats -> Z) (d : Usage.CallEntry -> Z) m e :
  g Usage.no_stats = 0 ->
  (forall cur,
      g {| Usage.s_prompt_tokens := Usage.s_prompt_tokens cur + Usage.prompt_tokens e;
           Usage.s_completion_tokens :=
             Usage.s_completion_tokens cur + Usage.completion_tokens e;
           Usage.s_total_tokens := Usage.s_total_tokens cur + Usage.total_tokens e;
           Usage.s_calls := Usage.s_calls cur + 1 |}
      = g cur + d e) ->
  map_fold (fun _ s acc => g s + acc) 0 (Usage.add_entry m e)
  = map_fold (fun _ s acc => g s + acc) 0 m + d e.
Proof.
  intros Hzero Hstep. unfold Usage.add_entry.
  destruct (m !! Usage.agent e) as [cur |] eqn:Hm.
  - rewrite Hm. cbn [from_option id].
    rewrite <- insert_delete_eq, sum_insert_fresh by apply lookup_delete_eq.
    rewrite (map_fold_delete_L (fun _ s acc => g s + acc) 0 (Usage.agent e) cur m);
      [| intros; lia | exact Hm].
    rewrite Hstep. lia.
  - rewrite lookup_insert_eq, insert_insert_eq. cbn [from_option id].
    rewrite sum_insert_fresh by exact Hm. rewrite Hstep, Hzero. lia.
Qed.

Lemma sum_fold_add_entry (g : Usage.AgentStats -> Z) (d : Usage.CallEntry -> Z) log :
  g Usage.no_stats = 0 ->
  (forall e cur,
      g {| Usage.s_prompt_tokens := Usage.s_prompt_tokens cur + Usage.prompt_tokens e;
           Usage.s_completion_tokens :=
             Usage.s_completion_tokens cur + Usage.completion_tokens e;
           Usage.s_total_tokens := Usage.s_total_tokens cur + Usage.total_tokens e;
           Usage.s_calls := Usage.s_calls cur + 1 |}
      = g cur + d e) ->
  forall m,
    map_fold (fun _ s acc => g s + acc) 0 (fold_left Usage.add_entry log m)
    = map_fold (fun _ s acc => g s + acc) 0 m + Usage.sum_Z (map d log).
Proof.
  intros Hzero Hstep. induction log as [| e log IH]; intros m; cbn [fold_left map].
  - unfold Usage.sum_Z. cbn. lia.
  - rewrite IH, (sum_add_entry g d) by auto. unfold Usage.sum_Z. cbn. lia.
Qed.

(** X15.  The totals agree with one another: after any sequence of
    [set_agent] calls and completions on a fresh client, the running
    [total_tokens] is the sum of the [total_tokens] of the logged calls,
    the per-agent totals of the summary add up to it, and the per-agent
    call counts add up to [total_calls]. *)
Theorem usage_total_matches_log :
  forall (ops : list Usage.op),
    let c := fold_left Usage.apply_op ops Usage.init in
    let summary := Usage.get_usage_summary c in
    Usage.sum_total_tokens summary
      = Usage.sum_Z (map Usage.total_tokens (Usage.call_log c))
    /\ Usage.tokens_of_all (Usage.by_agent summary) = Usage.sum_total_tokens summary
    /\ Usage.calls_of_all (Usage.by_agent summary) = Usage.total_calls summary.
Proof.
  intros ops c summary.
  assert (Htotal : Usage.client_total_tokens c
                   = Usage.sum_Z (map Usage.total_tokens (Usage.call_log c)))
    by (apply (usage_total_invariant ops Usage.init); reflexivity).
  split; [exact Htotal |]. subst summary.
  cbn [Usage.get_usage_summary Usage.by_agent Usage.sum_total_tokens Usage.total_calls].
  split.
  - unfold Usage.tokens_of_all.
    rewrite (sum_fold_add_entry Usage.s_total_tokens Usage.total_tokens);
      [| reflexivity | reflexivity].
    rewrite map_fold_empty, Htotal. lia.
  - unfold Usage.calls_of_all.
    rewrite (sum_fold_add_entry Usage.s_calls (fun _ => 1));
      [| reflexivity | reflexivity].
    rewrite map_fold_empty. unfold len.
    generalize (Usage.call_log c) as l. intros l.
    induction l as [| x l IHl]; unfold Usage.sum_Z in *; cbn [map fold_right length];
      lia.
Qed.

(** * The contradiction loop of Group 4 *)

Lemma g4_count_cons m n trace :
  Group4.count m (n :: trace)
  = ((if decide (n = m) then 1 else 0) + Group4.count m trace)%nat.
Proof. unfold Group4.count. rewrite filter_cons. case_decide; reflexivity. Qed.

Lemma g4_run_node_counters agents n i state state' :
  Group4.run_node agents n i state = Ok state' ->
  Group4.max_loops state' = Group4.max_loops state
  /\ Group4.loop_count state'
     = Group4.loop_count state + (if decide (n = Group4.IncrementLoop) then 1 else 0)
  /\ Group4.query state' = Group4.query state.
Proof.
  unfold Group4.run_node.
  destruct n; try (destruct (agents _ i state) as [u |]; [| discriminate]);
    intros [= <-]; cbn; repeat split; try lia; case_decide; try congruence; lia.
Qed.

Lemma g4_successor_increment n state :
  Group4.successor n state = Some (Group4.To Group4.IncrementLoop) ->
  n = Group4.Detector /\ Group4.loop_count state < Group4.max_loops state.
Proof.
  destruct n; cbn; try discriminate. unfold Group4.check_contradiction.
  destruct (match Group4.top_contradiction state with
            | Some v => Group4.truthy v
            | None => false
            end); cbn; [| discriminate].
  destruct (Z.ltb_spec (Group4.loop_count state) (Group4.max_loops state));
    cbn; [auto | discriminate].
Qed.

Lemma g4_successor_strategist n state :
  Group4.successor n state = Some (Group4.To Group4.Strategist) ->
  n = Group4.IncrementLoop.
Proof.
  destruct n; cbn; try discriminate; try reflexivity.
  unfold Group4.check_contradiction. repeat case_match; discriminate.
Qed.

Lemma g4_run_from_S agents steps n i state :
  Group4.run_from agents (S steps) n i state =
  match Group4.run_node agents n i state with
  | Raise e => (Group4.Crashed e, [n])
  | Ok state' =>
      match Group4.successor n state' with
      | None => (Group4.Crashed "no edge", [n])
      | Some Group4.END => (Group4.Finished state', [n])
      | Some (Group4.To n') =>
          let '(out, trace) := Group4.run_from agents steps n' (S i) state' in
          (out, n :: trace)
      end
  end.
Proof. reflexivity. Qed.

Lemma g4_run_from_counts agents steps :
  forall n i state out trace,
    Group4.run_from agents steps n i state = (out, trace) ->
    let d := if decide (n = Group4.IncrementLoop) then 1 else 0 in
    Z.of_nat (Group4.count Group4.IncrementLoop trace)
      <= d + Z.max 0 (Group4.max_loops state - (Group4.loop_count state + d))
    /\ (Group4.count Group4.Strategist trace
        <= Group4.count Group4.IncrementLoop trace
           + (if decide (n = Group4.Strategist) then 1 else 0))%nat
    /\ (forall s, out = Group4.Finished s ->
          Group4.loop_count s
          = Group4.loop_count state
            + Z.of_nat (Group4.count Group4.IncrementLoop trace)
          /\ Group4.max_loops s = Group4.max_loops state
          /\ Group4.query s = Group4.query state).
Proof.
  induction steps as [| steps IH]; intros n i state out trace Hrun d.
  - cbn in Hrun. injection Hrun as <- <-. subst d.
    change (Group4.count _ []) with 0%nat.
    split; [| split]; try discriminate; repeat case_decide; lia.
  - rewrite g4_run_from_S in Hrun.
    destruct (Group4.run_node agents n i state) as [state' | e] eqn:Hnode.
    2:{ injection Hrun as <- <-. rewrite !g4_count_cons.
        change (Group4.count _ []) with 0%nat. subst d.
        split; [| split]; try discriminate; repeat case_decide; try congruence; lia. }
    apply g4_run_node_counters in Hnode as (Hmax & Hloop & Hq). fold d in Hloop.
    destruct (Group4.successor n state') as [[n' |] |] eqn:Hsucc.
    + cbn zeta in Hrun.
      destruct (Group4.run_from agents steps n' (S i) state') as [out' trace'] eqn:Hrest.
      injection Hrun as <- <-.
      specialize (IH _ _ _ _ _ Hrest). cbn zeta in IH.
      destruct IH as (IHr & IHp & IHf). rewrite !g4_count_cons.
      rewrite Hmax, Hloop in IHr.
      assert (Hback : n' = Group4.IncrementLoop ->
                      d = 0 /\ Group4.loop_count state < Group4.max_loops state).
      { intros ->. apply g4_successor_increment in Hsucc as [-> Hlt].
        rewrite Hmax, Hloop in Hlt. subst d.
        repeat case_decide; try congruence; lia. }
      assert (Hentry : n' = Group4.Strategist -> n = Group4.IncrementLoop).
      { intros ->. eapply g4_successor_strategist, Hsucc. }
      split; [| split].
      * subst d. destruct (decide (n' = Group4.IncrementLoop)) as [Hn' | Hn'].
        -- destruct (Hback Hn') as [Hd Hlt]. repeat case_decide; try congruence; lia.
        -- repeat case_decide; try congruence; lia.
      * destruct (decide (n' = Group4.Strategist)) as [Hn' | Hn'].
        -- rewrite (Hentry Hn'). repeat case_decide; try congruence; lia.
        -- repeat case_decide; try congruence; lia.
      * intros s Hs. destruct (IHf s Hs) as (-> & -> & ->). subst d.
        rewrite Hloop, Hmax, Hq. split; [| split; reflexivity].
        repeat case_decide; try congruence; lia.
    + injection Hrun as <- <-. rewrite !g4_count_cons.
      change (Group4.count _ []) with 0%nat. subst d.
      split; [| split]; try (repeat case_decide; try congruence; lia).
      intros s [= <-]. rewrite Hloop. split; [| split; assumption].
      repeat case_decide; try congruence; lia.
    + injection Hrun as <- <-. rewrite !g4_count_cons.
      change (Group4.count _ []) with 0%nat. subst d.
      split; [| split]; try discriminate; repeat case_decide; try congruence; lia.
Qed.

Lemma g4_run_from_enough agents steps :
  forall n i state,
    (steps_needed4 n state <= steps)%nat ->
    fst (Group4.run_from agents steps n i state) <> Group4.OutOfSteps.
Proof.
  induction steps as [| steps IH]; intros n i state Hsteps.
  - destruct n; cbn in Hsteps; lia.
  - rewrite g4_run_from_S.
    destruct (Group4.run_node agents n i state) as [state' | e] eqn:Hnode;
      [| discriminate].
    apply g4_run_node_counters in Hnode as (Hmax & Hloop & _).
    destruct (Group4.successor n state') as [[n' |] |] eqn:Hsucc;
      [| discriminate | discriminate].
    cbn zeta.
    destruct (Group4.run_from agents steps n' (S i) state') as [out trace] eqn:Hrest.
    cbn [fst]. specialize (IH n' (S i) state'). rewrite Hrest in IH. cbn [fst] in IH.
    apply IH. clear IH Hrest.
    destruct n; cbn in Hsucc; try discriminate;
      try (injection Hsucc as <-; unfold steps_needed4 in *;
           rewrite ?Hmax, ?Hloop; repeat case_decide; try congruence; cbn in *; lia).
    destruct (String.eqb (Group4.check_contradiction state') "increment_loop") eqn:Hr.
    + injection Hsucc as <-.
      assert (Hlt : Group4.loop_count state' < Group4.max_loops state').
      { unfold Group4.check_contradiction in Hr.
        destruct (Z.ltb_spec (Group4.loop_count state') (Group4.max_loops state'));
          [assumption |]. rewrite andb_false_r in Hr. discriminate. }
      unfold steps_needed4 in *. rewrite Hmax, Hloop in *.
      repeat case_decide; try congruence. lia.
    + destruct (String.eqb (Group4.check_contradiction state') "source_verifier");
        [| discriminate].
      injection Hsucc as <-. unfold steps_needed4 in *. lia.
Qed.

(** X16.  The contradiction loop of Group 4 is bounded by [max_loops]: from
    the input of [main.py] (counter at 0) the back-edge through
    [increment_loop] is taken at most [max(0, max_loops)] times, so the
    strategist runs at most one time more than that - one pass more than
    the ceiling, where Group 2's gate stops at the ceiling itself; a run
    that finishes ends with [loop_count] equal to the number of loops made
    and with the query and ceiling it was given; and [7 + 5 * max_loops]
    node executions are enough for it to end. *)
Theorem contradiction_loop_bounded :
  forall (agents : Group4.Agents) (steps : nat) (q : string) (MAX_LOOPS : Z)
         (out : Group4.outcome) (trace : list Group4.node),
    Group4.invoke agents steps q MAX_LOOPS = (out, trace) ->
    Z.of_nat (Group4.count Group4.IncrementLoop trace) <= Z.max 0 MAX_LOOPS
    /\ Z.of_nat (Group4.count Group4.Strategist trace) <= Z.max 0 MAX_LOOPS + 1
    /\ (forall s, out = Group4.Finished s ->
          Group4.loop_count s = Z.of_nat (Group4.count Group4.IncrementLoop trace)
          /\ Group4.max_loops s = MAX_LOOPS
          /\ Group4.query s = q)
    /\ ((7 + 5 * Z.to_nat MAX_LOOPS <= steps)%nat -> out <> Group4.OutOfSteps).
Proof.
  intros agents steps q M out trace Hrun. unfold Group4.invoke in Hrun.
  pose proof (g4_run_from_counts agents steps _ _ _ _ _ Hrun) as (Hr & Hp & Hf).
  cbn zeta in Hr. cbn [Group4.initial_state Group4.max_loops Group4.loop_count] in Hr.
  repeat case_decide; try congruence.
  split; [lia |]. split; [lia |]. split.
  - intros s Hs. destruct (Hf s Hs) as (Hl & Hm & Hq). rewrite Hl, Hm, Hq.
    cbn. repeat split; lia.
  - intros Hsteps Hout.
    pose proof (g4_run_from_enough agents steps Group4.Strategist 0
                  (Group4.initial_state q M)) as Hen.
    rewrite Hrun in Hen. cbn [fst] in Hen. apply Hen; [| exact Hout].
    cbn. replace (M - (0 + 0)) with M by lia. lia.
Qed.

Lemma contradiction_loop_bounded_witness :
  exists out trace,
    Group4.invoke Group4.quarrelsome 17 "q" 2 = (out, trace)
    /\ Group4.count Group4.Strategist trace = 3%nat
    /\ Z.of_nat (Group4.count Group4.Strategist trace) <= Z.max 0 2 + 1
    /\ out <> Group4.OutOfSteps.
Proof.
  destruct (Group4.invoke Group4.quarrelsome 17 "q" 2) as [out trace] eqn:Hrun.
  exists out, trace. split; [reflexivity |].
  destruct (contradiction_loop_bounded Group4.quarrelsome 17 "q" 2 out trace Hrun)
    as (_ & Hs & _ & Hend).
  split; [| split; [exact Hs | apply Hend; cbn; lia]].
  revert Hrun. vm_compute. intros [= <- <-]. reflexivity.
Defined.

Lemma g4_apply_agent_prefix state u :
  let s' := Group4.apply_agent state u in
  Group4.sub_questions state `prefix_of` Group4.sub_questions s'
  /\ Group4.documents state `prefix_of` Group4.documents s'
  /\ Group4.claims state `prefix_of` Group4.claims s'
  /\ Group4.logs state `prefix_of` Group4.logs s'.
Proof. cbn. repeat split; apply prefix_app_r; reflexivity. Qed.

(** X17.  The accumulating keys of Group 4's state only grow, loop after
    loop: whatever the agents return, the sub-questions, documents, claims
    and logs a finished run ends with extend, in order, the lists the run
    (or any later point of it) started from. *)
Theorem reducer_keys_accumulate :
  forall (agents : Group4.Agents) (steps : nat) (n : Group4.node) (i : nat)
         (state s : Group4.ResearchState) (trace : list Group4.node),
    Group4.run_from agents steps n i state = (Group4.Finished s, trace) ->
    Group4.sub_questions state `prefix_of` Group4.sub_questions s
    /\ Group4.documents state `prefix_of` Group4.documents s
    /\ Group4.claims state `prefix_of` Group4.claims s
    /\ Group4.logs state `prefix_of` Group4.logs s.
Proof.
  intros agents steps. induction steps as [| steps IH];
    intros n i state s trace Hrun; [discriminate |].
  rewrite g4_run_from_S in Hrun.
  destruct (Group4.run_node agents n i state) as [state' | e] eqn:Hnode;
    [| discriminate].
  assert (Hstep : Group4.sub_questions state `prefix_of` Group4.sub_questions state'
                  /\ Group4.documents state `prefix_of` Group4.documents state'
                  /\ Group4.claims state `prefix_of` Group4.claims state'
                  /\ Group4.logs state `prefix_of` Group4.logs state').
  { unfold Group4.run_node in Hnode.
    destruct n; try (destruct (agents _ i state) as [u |]; [| discriminate]);
      injection Hnode as <-; try apply g4_apply_agent_prefix.
    cbn. repeat split; reflexivity. }
  destruct Hstep as (H1 & H2 & H3 & H4).
  destruct (Group4.successor n state') as [[n' |] |]; [| | discriminate].
  - cbn zeta in Hrun.
    destruct (Group4.run_from agents steps n' (S i) state') as [out tr] eqn:Hrest.
    injection Hrun as -> <-. destruct (IH _ _ _ _ _ Hrest) as (I1 & I2 & I3 & I4).
    repeat split; etransitivity; eassumption.
  - injection Hrun as <- <-. auto.
Qed.

Lemma reducer_keys_accumulate_witness :
  exists s trace,
    Group4.run_from Group4.quarrelsome 17 Group4.Strategist 0
      (Group4.initial_state "q" 1) = (Group4.Finished s, trace)
    /\ Group4.documents (Group4.initial_state "q" 1) `prefix_of` Group4.documents s
    /\ length (Group4.documents s) = 2%nat.
Proof.
  destruct (Group4.run_from Group4.quarrelsome 17 Group4.Strategist 0
              (Group4.initial_state "q" 1)) as [out trace] eqn:Hrun.
  assert (Hout : exists s, out = Group4.Finished s /\ length (Group4.documents s) = 2%nat).
  { revert Hrun. vm_compute. intros [= <- _]. eexists. split; reflexivity. }
  destruct Hout as (s & -> & Hlen). exists s, trace. split; [reflexivity |].
  destruct (reducer_keys_accumulate Group4.quarrelsome 17 Group4.Strategist 0
              (Group4.initial_state "q" 1) s trace Hrun) as (_ & Hd & _).
  split; [exact Hd | exact Hlen].
Defined.

(** * The truncation of long contents *)

Lemma split_ws_word w :
  forall cur rest,
    Forall (fun c => isspace c = false) w ->
    split_ws cur (w ++ rest) = split_ws (rev w ++ cur) rest.
Proof.
  induction w as [| c w IH]; intros cur rest Hw; [reflexivity |].
  apply Forall_cons in Hw as [Hc Hw]. cbn [app split_ws rev]. rewrite Hc.
  rewrite IH by assumption. now rewrite <- app_assoc.
Qed.

Lemma split_ws_single w : is_word w -> split_ws [] w = [w].
Proof.
  intros [Hne Hw]. rewrite <- (app_nil_r w) at 1.
  rewrite split_ws_word by assumption. rewrite app_nil_r. cbn [split_ws].
  destruct (rev w) as [| x r] eqn:Hr.
  - exfalso. apply Hne. rewrite <- (rev_involutive w), Hr. reflexivity.
  - rewrite <- Hr, rev_involutive. reflexivity.
Qed.

(** Splitting what [" ".join] has joined gives the words back. *)
Lemma split_join words :
  Forall is_word words -> split_ws [] (join [" "%char] words) = words.
Proof.
  induction words as [| w ws IH]; intros Hws; [reflexivity |].
  apply Forall_cons in Hws as [Hw Hws]. destruct ws as [| w2 ws].
  - cbn [join]. now apply split_ws_single.
  - cbn [join]. destruct Hw as [Hne Hw].
    rewrite split_ws_word by assumption. rewrite app_nil_r.
    cbn [app split_ws]. change (isspace " ") with true. cbn iota.
    destruct (rev w) as [| x r] eqn:Hr.
    + exfalso. apply Hne. rewrite <- (rev_involutive w), Hr. reflexivity.
    + rewrite <- Hr, rev_involutive. f_equal. now apply IH.
Qed.

Lemma split_ws_words s :
  forall cur,
    Forall (fun c => isspace c = false) cur ->
    Forall is_word (split_ws cur s).
Proof.
  assert (Hrev : forall cur, cur <> [] ->
             Forall (fun c => isspace c = false) cur -> is_word (rev cur)).
  { intros cur Hne Hcur. split.
    - intros Hr. apply Hne. rewrite <- (rev_involutive cur), Hr. reflexivity.
    - rewrite Forall_forall in *. intros c Hc. apply Hcur.
      exact (proj1 (elem_of_rev c cur) Hc). }
  induction s as [| c s IH]; intros cur Hcur; cbn [split_ws].
  - destruct cur as [| x cur]; constructor; [| constructor].
    apply Hrev; [discriminate | assumption].
  - destruct (isspace c) eqn:Hc.
    + destruct cur as [| x cur]; [apply IH; constructor |].
      constructor; [apply Hrev; [discriminate | assumption] | apply IH; constructor].
    + apply IH. now constructor.
Qed.

Lemma join_last sep ws w tail :
  join sep (ws ++ [w]) ++ tail = join sep (ws ++ [w ++ tail]).
Proof.
  induction ws as [| x ws IH]; [reflexivity |].
  destruct ws as [| y ws].
  - cbn. now rewrite <- !app_assoc.
  - change ((x :: y :: ws) ++ [w]) with (x :: (y :: ws) ++ [w]).
    change ((x :: y :: ws) ++ [w ++ tail]) with (x :: (y :: ws) ++ [w ++ tail]).
    change (join sep (x :: (y :: ws) ++ [w]))
      with (x ++ sep ++ join sep ((y :: ws) ++ [w])).
    change (join sep (x :: (y :: ws) ++ [w ++ tail]))
      with (x ++ sep ++ join sep ((y :: ws) ++ [w ++ tail])).
    rewrite <- !app_assoc. now rewrite IH.
Qed.

Lemma chars_append s1 s2 :
  list_ascii_of_string (s1 +:+ s2)
  = list_ascii_of_string s1 ++ list_ascii_of_string s2.
Proof. induction s1 as [| c s1 IH]; simpl; [reflexivity | f_equal; exact IH]. Qed.

(** X18.  [_search] keeps a content of at most 800 words as it is and cuts
    a longer one to exactly 800 words: the first 799 words of the original,
    then its 800th word with three dots attached, separated by single
    spaces. *)
Theorem truncate_content_words :
  forall content : string,
    ((length (words_of content) <= 800)%nat ->
       RetrieverAgent.truncate_content content = content)
    /\ ((800 < length (words_of content))%nat ->
        exists first last,
          firstn 800 (words_of content) = first ++ [last]
          /\ length first = 799%nat
          /\ words_of (RetrieverAgent.truncate_content content)
             = first ++ [last ++ list_ascii_of_string "..."]).
Proof.
  intros content. unfold RetrieverAgent.truncate_content. fold (words_of content).
  set (words := words_of content). split.
  - intros Hle. destruct (Nat.ltb_spec 800 (length words)); [lia | reflexivity].
  - intros Hlt. destruct (Nat.ltb_spec 800 (length words)); [| lia].
    assert (Hlen : length (firstn 800 words) = 800%nat)
      by (rewrite length_firstn; lia).
    destruct (firstn 800 words) as [| x l] eqn:Hf using rev_ind;
      [discriminate |].
    clear IHl. exists l, x. split; [reflexivity |].
    rewrite length_app in Hlen. cbn [length] in Hlen. split; [lia |].
    unfold words_of at 1. rewrite chars_append, list_ascii_of_string_of_list_ascii.
    rewrite join_last. apply split_join.
    assert (Hgood : Forall is_word (l ++ [x])).
    { rewrite <- Hf. apply Forall_forall. intros w Hw.
      assert (Hall : Forall is_word words)
        by (apply split_ws_words; constructor).
      rewrite Forall_forall in Hall. apply Hall.
      rewrite <- (firstn_skipn 800 words). apply elem_of_app. now left. }
    apply Forall_app in Hgood as [Hl Hx]. apply Forall_app. split; [exact Hl |].
    apply Forall_cons in Hx as [[Hne Hx] _]. constructor; [| constructor].
    split.
    + intros Happ. apply app_eq_nil in Happ as [Hx0 _]. contradiction.
    + apply Forall_app. split; [exact Hx |]. repeat constructor.
Qed.

(** * The fallback report's entries *)


